(** * bank-extractor: layout reconstruction and response salvage

    A shallow embedding of the pure core of the repository
    ([utils.py], [ai_parser.py], [extractor.py], [extract.py]) together
    with the properties its specification states about it.

    Conventions of the embedding.
    - A Python [str] is a list of Unicode code points ([pystr]).
    - A Python [int] is a [Z]; slice indices follow Python's clamping rules.
    - A Python [float] is a [pyfloat]: a finite value is the rational that
      the binary64 number is, [float] rounds the decimal it reads to the
      nearest such number, and the two infinities and NaN are separate
      constructors.  The coordinates of the words of a page are rationals.
    - A [while] loop is a [Fixpoint] on a fuel argument that returns [None]
      when the fuel runs out; results about it are stated for every fuel
      above an explicit bound.
    - External collaborators (the PDF library, Camelot, Tesseract, the
      language model, [json.loads]) are arguments of the functions that
      call them. *)

From Stdlib Require Import Ascii String.
From Stdlib Require Import List Bool Arith ZArith NArith QArith Qabs Qround Lia.
From Stdlib Require Import Permutation Sorted DecimalString DecimalPos.
Import ListNotations.
Close Scope Q_scope.

Set Implicit Arguments.

(* ================================================================== *)
(** * Python strings                                                   *)
(* ================================================================== *)

Definition char := N.
Bind Scope N_scope with char.
Definition pystr := list char.

(** An ASCII literal as a Python string. *)
Definition lit (s : String.string) : pystr :=
  map N_of_ascii (String.list_ascii_of_string s).
Arguments lit s%_string.

Definition char_eqb (a b : char) : bool := N.eqb a b.

Fixpoint pystr_eqb (a b : pystr) : bool :=
  match a, b with
  | [], [] => true
  | x :: a', y :: b' => char_eqb x y && pystr_eqb a' b'
  | _, _ => false
  end.

Definition len (s : pystr) : Z := Z.of_nat (length s).

(** [Py_UNICODE_ISSPACE]: the characters removed by [str.strip()] and
    matched by [\s] in a [str] pattern. *)
Definition py_isspace (c : char) : bool :=
  ((9 <=? c) && (c <=? 13) || (28 <=? c) && (c <=? 32) || (c =? 133)
   || (c =? 160) || (c =? 5760) || (8192 <=? c) && (c <=? 8202)
   || (c =? 8232) || (c =? 8233) || (c =? 8239) || (c =? 8287)
   || (c =? 12288))%N.

Fixpoint lstrip_by (f : char -> bool) (s : pystr) : pystr :=
  match s with
  | c :: s' => if f c then lstrip_by f s' else s
  | [] => []
  end.

Definition rstrip_by (f : char -> bool) (s : pystr) : pystr :=
  rev (lstrip_by f (rev s)).

Definition strip_by (f : char -> bool) (s : pystr) : pystr :=
  rstrip_by f (lstrip_by f s).

(** [s.strip()] *)
Definition strip (s : pystr) : pystr := strip_by py_isspace s.

(** [s.strip(chars)] *)
Definition strip_chars (chars s : pystr) : pystr :=
  strip_by (fun c => existsb (char_eqb c) chars) s.

(** Python's treatment of one slice bound against a length. *)
Definition clamp_index (n i : Z) : Z :=
  if (i <? 0)%Z then Z.max 0 (n + i) else Z.min i n.

(** [s[lo:hi]] *)
Definition slice (s : pystr) (lo hi : Z) : pystr :=
  let a := clamp_index (len s) lo in
  let b := clamp_index (len s) hi in
  firstn (Z.to_nat (b - a)) (skipn (Z.to_nat a) s).

(** [s[:hi]] and [s[lo:]] *)
Definition slice_to (s : pystr) (hi : Z) : pystr := slice s 0 hi.
Definition slice_from (s : pystr) (lo : Z) : pystr := slice s lo (len s).

(** [s.startswith(p)] *)
Fixpoint startswith (s p : pystr) {struct p} : bool :=
  match p, s with
  | [], _ => true
  | x :: p', y :: s' => char_eqb x y && startswith s' p'
  | _ :: _, [] => false
  end.

(** [s.endswith(p)] *)
Definition endswith (s p : pystr) : bool := startswith (rev s) (rev p).

(** Scan the [k] start positions [a + k - 1], ..., [a] from the right. *)
Fixpoint rfind_from (sub s : pystr) (a : Z) (k : nat) : Z :=
  match k with
  | O => (-1)%Z
  | S k' =>
      if startswith (skipn (Z.to_nat (a + Z.of_nat k')) s) sub
      then (a + Z.of_nat k')%Z
      else rfind_from sub s a k'
  end.

(** [s.rfind(sub, lo, hi)]: the highest index in the slice [s[lo:hi]] where
    [sub] starts and fits, or [-1]. *)
Definition rfind (s sub : pystr) (lo hi : Z) : Z :=
  let a := clamp_index (len s) lo in
  let b := clamp_index (len s) hi in
  if (b - a <? len sub)%Z then (-1)%Z
  else rfind_from sub s a (Z.to_nat (b - a - len sub + 1)).

(** [s.rfind(sub)] *)
Definition rfind_all (s sub : pystr) : Z := rfind s sub 0 (len s).

(** [s.replace(old, "")] for a non-empty [old]: every non-overlapping
    occurrence, leftmost first, is deleted. *)
Fixpoint remove_all (fuel : nat) (old s : pystr) : pystr :=
  match fuel with
  | O => s
  | S fuel' =>
      match s with
      | [] => []
      | c :: s' =>
          if startswith s old
          then remove_all fuel' old (skipn (length old) s)
          else c :: remove_all fuel' old s'
      end
  end.

Definition replace_empty (s old : pystr) : pystr :=
  remove_all (length s) old s.

Definition nonempty (s : pystr) : bool :=
  match s with [] => false | _ => true end.

Definition NL : char := 10%N.

(* ================================================================== *)
(** * utils.py                                                         *)
(* ================================================================== *)

(** [max_chars or chunk_size]: [None] and [0] are falsy. *)
Definition effective_size (chunk_size : Z) (max_chars : option Z) : Z :=
  match max_chars with
  | Some m => if (m =? 0)%Z then chunk_size else m
  | None => chunk_size
  end.

(** One evaluation of the loop body: the value of [end] after the
    newline backtrack. *)
Definition chunk_end (text : pystr) (size start : Z) : Z :=
  let end_ := (start + size)%Z in
  if (end_ <? len text)%Z then
    let newline := rfind text [NL] start end_ in
    if (newline >? start)%Z then newline else end_
  else end_.

(** The [while start < len(text)] loop of [chunk_text] (utils.py, lines
    6 to 13); [chunks] is the list built so far. *)
Fixpoint chunk_loop (fuel : nat) (text : pystr) (size start : Z)
         (chunks : list pystr) : option (list pystr) :=
  match fuel with
  | O => None
  | S fuel' =>
      if (start <? len text)%Z then
        let end_ := chunk_end text size start in
        chunk_loop fuel' text size end_
                   (chunks ++ [strip (slice text start end_)])
      else Some chunks
  end.

(** [chunk_text(text, chunk_size, max_chars)] (utils.py, lines 1 to 14). *)
Definition chunk_text (fuel : nat) (text : pystr) (chunk_size : Z)
           (max_chars : option Z) : option (list pystr) :=
  let size := effective_size chunk_size max_chars in
  match chunk_loop fuel text size 0 [] with
  | Some chunks => Some (filter nonempty chunks)
  | None => None
  end.

(** The raw windows [text[start:end]] the loop cuts, before stripping;
    used to state that nothing but edge whitespace is lost. *)
Fixpoint chunk_pieces (fuel : nat) (text : pystr) (size start : Z)
  : list pystr :=
  match fuel with
  | O => []
  | S fuel' =>
      if (start <? len text)%Z then
        let end_ := chunk_end text size start in
        slice text start end_ :: chunk_pieces fuel' text size end_
      else []
  end.

Definition remove_ws (s : pystr) : pystr :=
  filter (fun c => negb (py_isspace c)) s.

(* ================================================================== *)
(** * Python floats                                                    *)
(* ================================================================== *)

(** A float is a binary64 value.  A finite one is carried as the rational
    it is, in lowest terms: [binary64] below rounds a rational to the
    nearest such value, a tie to the one with an even significand, as
    CPython does when it reads a number.  The sign of zero is not kept
    ([-0.0 == 0.0]). *)
Inductive pyfloat : Type :=
| Fin (q : Q)
| Inf (negative : bool)
| NaN.

Definition zero : pyfloat := Fin (0 # 1).

(** Unary minus. *)
Definition float_neg (f : pyfloat) : pyfloat :=
  match f with
  | Fin q => Fin (Qopp q)
  | Inf b => Inf (negb b)
  | NaN => NaN
  end.

(** [a == b] on floats: NaN equals nothing, itself included. *)
Definition float_eqb (a b : pyfloat) : bool :=
  match a, b with
  | Fin p, Fin q => Qeq_bool p q
  | Inf s, Inf t => Bool.eqb s t
  | _, _ => false
  end.

(** [round(q)]: to the nearest integer, a tie to the even one. *)
Definition py_round (q : Q) : Z :=
  let f := Qfloor q in
  match Qcompare (q - inject_Z f) (1 # 2) with
  | Lt => f
  | Gt => (f + 1)%Z
  | Eq => if Z.even f then f else (f + 1)%Z
  end.

(** [2 ^ e], for every integer [e]. *)
Definition pow2 (e : Z) : Q :=
  if (0 <=? e)%Z then inject_Z (2 ^ e) else (1 # Z.to_pos (2 ^ (- e)))%Q.

(** The integer [k] with [2 ^ k <= q < 2 ^ (k + 1)], for [q > 0]. *)
Definition Qlog2 (q : Q) : Z :=
  let e := (Z.log2 (Qnum q) - Z.log2 (Z.pos (Qden q)))%Z in
  if Qle_bool (pow2 e) q then e else (e - 1)%Z.

(** Rounding of a positive rational to binary64: 53 bits of significand,
    exponents from -1074 up (below that the values are the multiples of
    [2 ^ -1074]), and infinity from [2 ^ 1024] on. *)
Definition binary64_pos (a : Q) : pyfloat :=
  let e := Z.max (Qlog2 a - 52) (-1074) in
  let m := py_round (a / pow2 e) in
  let v := (inject_Z m * pow2 e)%Q in
  if Qle_bool (pow2 1024) v then Inf false else Fin (Qred v).

Definition binary64 (q : Q) : pyfloat :=
  match Qcompare q 0 with
  | Eq => zero
  | Gt => binary64_pos q
  | Lt => float_neg (binary64_pos (- q))
  end.

Definition is_digit (c : char) : bool := ((48 <=? c) && (c <=? 57))%N.

Definition digit_value (c : char) : Z := Z.of_N (c - 48).

(** ASCII lower-casing, as the float parser applies to [inf] and [nan]. *)
Definition ascii_lower (c : char) : char :=
  if ((65 <=? c) && (c <=? 90))%N then (c + 32)%N else c.

Definition ieq (s : pystr) (word : pystr) : bool :=
  pystr_eqb (map ascii_lower s) word.

(** [digit (["_"] digit)*] after its first digit: the digits read and the
    text left. *)
Fixpoint digits_tail (s : pystr) : list Z * pystr :=
  match s with
  | c :: s' =>
      if is_digit c then
        let (ds, r) := digits_tail s' in (digit_value c :: ds, r)
      else if (c =? 95)%N then
        match s' with
        | d :: s'' =>
            if is_digit d then
              let (ds, r) := digits_tail s'' in (digit_value d :: ds, r)
            else ([], s)
        | [] => ([], s)
        end
      else ([], s)
  | [] => ([], s)
  end.

(** [digitpart]; the list is empty when [s] does not start with a digit. *)
Definition digitpart (s : pystr) : list Z * pystr :=
  match s with
  | c :: s' =>
      if is_digit c then
        let (ds, r) := digits_tail s' in (digit_value c :: ds, r)
      else ([], s)
  | [] => ([], s)
  end.

Definition digits_to_Z (ds : list Z) : Z :=
  fold_left (fun acc d => (10 * acc + d)%Z) ds 0%Z.

(** [[sign]]: whether a minus was read, and the text left. *)
Definition read_sign (s : pystr) : bool * pystr :=
  match s with
  | c :: s' =>
      if (c =? 45)%N then (true, s')
      else if (c =? 43)%N then (false, s')
      else (false, s)
  | [] => (false, s)
  end.

(** [number ::= [digitpart] "." digitpart | digitpart ["."]]: the digits
    before and after the point, and the text left. *)
Definition read_number (s : pystr) : option (list Z * list Z * pystr) :=
  let (ip, r) := digitpart s in
  match r with
  | c :: r' =>
      if (c =? 46)%N then
        let (fp, r'') := digitpart r' in
        match ip, fp with
        | [], [] => None
        | _, _ => Some (ip, fp, r'')
        end
      else match ip with [] => None | _ => Some (ip, [], r) end
  | [] => match ip with [] => None | _ => Some (ip, [], r) end
  end.

(** [[exponent]] followed by the end of the text. *)
Definition read_exponent (s : pystr) : option Z :=
  match s with
  | [] => Some 0%Z
  | c :: s' =>
      if ((c =? 101) || (c =? 69))%N then
        let (neg, s'') := read_sign s' in
        match digitpart s'' with
        | ([], _) => None
        | (ds, []) => Some (if neg then (- digits_to_Z ds)%Z
                            else digits_to_Z ds)
        | (_, _ :: _) => None
        end
      else None
  end.

(** The rational [m * 10 ^ e], in lowest terms. *)
Definition decimal (m e : Z) : Q :=
  Qred (if (0 <=? e)%Z then (m * 10 ^ e)%Z # 1
        else m # Z.to_pos (10 ^ (- e))).

(** [Py_ISSPACE]: the whitespace of the C locale, which [float] skips at
    both ends of the text. *)
Definition c_isspace (c : char) : bool :=
  ((9 <=? c) && (c <=? 13) || (c =? 32))%N.

(** The decimal digits of Unicode come in runs of ten, [0] to [9]; these
    are the first code points of the runs (Unicode 14.0, the database of
    CPython 3.11). *)
Definition decimal_zeros : list char :=
  [ 48; 1632; 1776; 1984; 2406; 2534; 2662; 2790; 2918; 3046; 3174;
    3302; 3430; 3558; 3664; 3792; 3872; 4160; 4240; 6112; 6160; 6470;
    6608; 6784; 6800; 6992; 7088; 7232; 7248; 42528; 43216; 43264;
    43472; 43504; 43600; 44016; 65296; 66720; 68912; 69734; 69872;
    69942; 70096; 70384; 70736; 70864; 71248; 71360; 71472; 71904;
    72016; 72784; 73040; 73120; 92768; 92864; 93008; 120782; 120792;
    120802; 120812; 120822; 123200; 123632; 125264; 130032 ]%N.

(** [Py_UNICODE_TODECIMAL] *)
Definition py_todecimal (c : char) : option N :=
  match find (fun z => (z <=? c) && (c <=? z + 9))%N decimal_zeros with
  | Some z => Some (c - z)%N
  | None => None
  end.

(** [_PyUnicode_TransformDecimalAndSpaceToASCII]: what [float] makes of
    its argument before it parses: a whitespace character becomes a
    blank, a decimal digit its ASCII digit, and the text is cut, with a
    question mark, at the first other character that is not ASCII. *)
Fixpoint to_ascii_number (s : pystr) : pystr :=
  match s with
  | [] => []
  | c :: r =>
      if (c <? 127)%N then c :: to_ascii_number r
      else if py_isspace c then 32%N :: to_ascii_number r
      else match py_todecimal c with
           | Some d => (48 + d)%N :: to_ascii_number r
           | None => [63%N]
           end
  end.

(** The parser of [float], on the ASCII text without the blanks at its
    ends: a sign, then [inf], [infinity] or [nan] in any letter case, or
    a decimal number with its optional exponent; [None] is
    [ValueError]. *)
Definition float_from_ascii (s : pystr) : option pyfloat :=
  let (neg, body) := read_sign s in
  let signed := fun f => if neg then float_neg f else f in
  if ieq body (lit "inf") || ieq body (lit "infinity") then
    Some (signed (Inf false))
  else if ieq body (lit "nan") then Some NaN
  else
    match read_number body with
    | Some (ip, fp, rest) =>
        match read_exponent rest with
        | Some e =>
            Some (signed
                    (binary64 (decimal (digits_to_Z (ip ++ fp))
                                       (e - Z.of_nat (length fp)))))
        | None => None
        end
    | None => None
    end.

(** [float(s)] on a string; [None] is [ValueError]. *)
Definition py_float (s : pystr) : option pyfloat :=
  float_from_ascii (strip_by c_isspace (to_ascii_number s)).

(* ================================================================== *)
(** * ai_parser.py: numeric normalization                              *)
(* ================================================================== *)

(** The naira sign, U+20A6. *)
Definition NAIRA : char := 8358%N.

(** The strings [_clean_num] reads as "no amount". *)
Definition sentinels : list pystr :=
  [lit ""; lit "-"; lit "nil"; lit "Nil"; lit "N/A"; lit "nan"].

(** [x in (...)] on strings. *)
Definition str_in (x : pystr) (l : list pystr) : bool :=
  existsb (pystr_eqb x) l.

(** [re.sub(r"[#,\s]", "", s)] *)
Definition sub_separators (s : pystr) : pystr :=
  filter (fun c => negb ((c =? 35)%N || (c =? 44)%N || py_isspace c)) s.

(** [re.sub(r"[#,\s]", "", str(val).replace("NGN","").replace("₦",""))] *)
Definition strip_markers (s : pystr) : pystr :=
  sub_separators (replace_empty (replace_empty s (lit "NGN")) [NAIRA]).

(** [_clean_num(val)] (ai_parser.py, lines 16 to 25).  The function looks at [val] only through
    [val is None] and [str(val)], so its argument here is [None] for
    Python's [None] and [Some (str(val))] for every other value. *)
Definition _clean_num (val : option pystr) : pyfloat :=
  match val with
  | None => zero
  | Some v =>
      if str_in (strip v) sentinels then zero
      else
        let s := strip_markers v in
        let negative := startswith s (lit "(") && endswith s (lit ")") in
        let s := strip_chars (lit "()") s in
        match py_float s with
        | Some f => if negative then float_neg f else f
        | None => zero
        end
  end.

(* ================================================================== *)
(** * JSON values and Python dictionaries                              *)
(* ================================================================== *)

(** What [json.loads] can return. *)
#[local] Set Warnings "-register-all".
Inductive json : Type :=
| JNull
| JBool (b : bool)
| JInt (z : Z)
| JFloat (f : pyfloat)
| JStr (s : pystr)
| JList (items : list json)
| JDict (entries : list (pystr * json)).

(** A [dict] with string keys: the entries in insertion order, one per key. *)
Definition dict := list (pystr * json).

(** [d.get(k)] *)
Fixpoint dict_get (k : pystr) (d : dict) : option json :=
  match d with
  | [] => None
  | (k', v) :: d' => if pystr_eqb k k' then Some v else dict_get k d'
  end.

(** [d[k] = v] *)
Fixpoint dict_set (k : pystr) (v : json) (d : dict) : dict :=
  match d with
  | [] => [(k, v)]
  | (k', v') :: d' =>
      if pystr_eqb k k' then (k', v) :: d' else (k', v') :: dict_set k v d'
  end.

Definition keys (d : dict) : list pystr := map fst d.

Definition is_dict (v : json) : bool :=
  match v with JDict _ => true | _ => false end.

Definition is_list (v : json) : bool :=
  match v with JList _ => true | _ => false end.

(* ================================================================== *)
(** * A reader for JSON text                                           *)
(* ================================================================== *)

(** The grammar [json.loads] accepts on a [str], as CPython's scanner reads
    it; the interpreter's recursion limit is not part of it. *)

Definition DQ : char := 34%N.

Definition json_ws (c : char) : bool :=
  ((c =? 32) || (c =? 9) || (c =? 10) || (c =? 13))%N.

Definition skip_ws (s : pystr) : pystr := lstrip_by json_ws s.

Definition hex_value (c : char) : option N :=
  if ((48 <=? c) && (c <=? 57))%N then Some (c - 48)%N
  else if ((97 <=? c) && (c <=? 102))%N then Some (c - 87)%N
  else if ((65 <=? c) && (c <=? 70))%N then Some (c - 55)%N
  else None.

(** The four hex digits after a backslash-u. *)
Definition read_hex4 (s : pystr) : option (N * pystr) :=
  match s with
  | a :: b :: c :: d :: r =>
      match hex_value a, hex_value b, hex_value c, hex_value d with
      | Some x, Some y, Some z, Some w =>
          Some (x * 4096 + y * 256 + z * 16 + w, r)%N
      | _, _, _, _ => None
      end
  | _ => None
  end.

(** The body of a string after its opening quote, up to the closing one. *)
Fixpoint read_string (fuel : nat) (s : pystr) : option (pystr * pystr) :=
  match fuel with
  | O => None
  | S fuel' =>
      match s with
      | [] => None
      | c :: r =>
          if (c =? DQ)%N then Some ([], r)
          else if (c <? 32)%N then None
          else if (c =? 92)%N then
            match r with
            | [] => None
            | e :: r' =>
                let simple := fun (x : char) =>
                  match read_string fuel' r' with
                  | Some (t, rest) => Some (x :: t, rest)
                  | None => None
                  end in
                if (e =? DQ)%N then simple DQ
                else if (e =? 92)%N then simple 92%N
                else if (e =? 47)%N then simple 47%N
                else if (e =? 98)%N then simple 8%N
                else if (e =? 102)%N then simple 12%N
                else if (e =? 110)%N then simple 10%N
                else if (e =? 114)%N then simple 13%N
                else if (e =? 116)%N then simple 9%N
                else if (e =? 117)%N then
                  match read_hex4 r' with
                  | None => None
                  | Some (u, r1) =>
                      let single :=
                        match read_string fuel' r1 with
                        | Some (t, rest) => Some (u :: t, rest)
                        | None => None
                        end in
                      if ((55296 <=? u) && (u <=? 56319))%N then
                        match r1 with
                        | 92%N :: 117%N :: r2 =>
                            match read_hex4 r2 with
                            | Some (u2, r3) =>
                                if ((56320 <=? u2) && (u2 <=? 57343))%N then
                                  match read_string fuel' r3 with
                                  | Some (t, rest) =>
                                      Some ((65536 + (u - 55296) * 1024
                                             + (u2 - 56320))%N :: t, rest)
                                  | None => None
                                  end
                                else single
                            | None => single
                            end
                        | _ => single
                        end
                      else single
                  end
                else None
            end
          else
            match read_string fuel' r with
            | Some (t, rest) => Some (c :: t, rest)
            | None => None
            end
      end
  end.

(** A run of ASCII digits. *)
Fixpoint span_digits (s : pystr) : pystr * pystr :=
  match s with
  | c :: r =>
      if is_digit c then let (ds, rest) := span_digits r in (c :: ds, rest)
      else ([], s)
  | [] => ([], [])
  end.

(** The scanner's number pattern at the head of [s] (an optional minus,
    then [0] or a digit run not starting with [0]; an optional point
    with digits; an optional exponent): the integer part, the fraction
    and exponent parts (empty when absent), and the text left. *)
Definition read_json_number (s : pystr)
  : option (pystr * pystr * pystr * pystr) :=
  let (sign, s1) := match s with
                    | c :: r => if (c =? 45)%N then ([c], r) else ([], s)
                    | [] => ([], s)
                    end in
  let int_part :=
    match s1 with
    | c :: r =>
        if (c =? 48)%N then Some ([c], r)
        else if is_digit c then
          let (ds, rest) := span_digits r in Some (c :: ds, rest)
        else None
    | [] => None
    end in
  match int_part with
  | None => None
  | Some (ip, s2) =>
      let (frac, s3) :=
        match s2 with
        | c :: r =>
            if (c =? 46)%N then
              match span_digits r with
              | ([], _) => ([], s2)
              | (ds, rest) => (c :: ds, rest)
              end
            else ([], s2)
        | [] => ([], s2)
        end in
      let (exp, s4) :=
        match s3 with
        | c :: r =>
            if ((c =? 101) || (c =? 69))%N then
              let (sg, r1) := match r with
                              | x :: r' =>
                                  if ((x =? 45) || (x =? 43))%N
                                  then ([x], r') else ([], r)
                              | [] => ([], r)
                              end in
              match span_digits r1 with
              | ([], _) => ([], s3)
              | (ds, rest) => (c :: sg ++ ds, rest)
              end
            else ([], s3)
        | [] => ([], s3)
        end in
      Some (sign ++ ip, frac, exp, s4)
  end.

(** [int(text)] on an optional minus and ASCII digits. *)
Definition int_of_text (t : pystr) : Z :=
  match t with
  | c :: r =>
      if (c =? 45)%N then (- digits_to_Z (map digit_value r))%Z
      else digits_to_Z (map digit_value t)
  | [] => 0%Z
  end.

Definition after_prefix (s p : pystr) : option pystr :=
  if startswith s p then Some (skipn (length p) s) else None.

(** One value at the head of [s] ([scan_once]), and the two loops of an
    array and of an object. *)
Fixpoint read_value (fuel : nat) (s : pystr) : option (json * pystr) :=
  match fuel with
  | O => None
  | S fuel' =>
      match s with
      | [] => None
      | c :: r =>
          if (c =? DQ)%N then
            match read_string (S (length r)) r with
            | Some (t, rest) => Some (JStr t, rest)
            | None => None
            end
          else if (c =? 123)%N then
            match skip_ws r with
            | 125%N :: rest => Some (JDict [], rest)
            | r' => read_members fuel' r' []
            end
          else if (c =? 91)%N then
            match skip_ws r with
            | 93%N :: rest => Some (JList [], rest)
            | r' => read_items fuel' r' []
            end
          else
            match after_prefix s (lit "null"), after_prefix s (lit "true"),
                  after_prefix s (lit "false") with
            | Some rest, _, _ => Some (JNull, rest)
            | _, Some rest, _ => Some (JBool true, rest)
            | _, _, Some rest => Some (JBool false, rest)
            | None, None, None =>
                match read_json_number s with
                | Some (ip, [], [], rest) => Some (JInt (int_of_text ip), rest)
                | Some (ip, frac, exp, rest) =>
                    match py_float (ip ++ frac ++ exp) with
                    | Some f => Some (JFloat f, rest)
                    | None => None
                    end
                | None =>
                    match after_prefix s (lit "NaN"),
                          after_prefix s (lit "Infinity"),
                          after_prefix s (lit "-Infinity") with
                    | Some rest, _, _ => Some (JFloat NaN, rest)
                    | _, Some rest, _ => Some (JFloat (Inf false), rest)
                    | _, _, Some rest => Some (JFloat (Inf true), rest)
                    | None, None, None => None
                    end
                end
            end
      end
  end

with read_items (fuel : nat) (s : pystr) (acc : list json)
  : option (json * pystr) :=
  match fuel with
  | O => None
  | S fuel' =>
      match read_value fuel' s with
      | None => None
      | Some (v, r) =>
          match skip_ws r with
          | c :: r' =>
              if (c =? 44)%N then read_items fuel' (skip_ws r') (acc ++ [v])
              else if (c =? 93)%N then Some (JList (acc ++ [v]), r')
              else None
          | [] => None
          end
      end
  end

with read_members (fuel : nat) (s : pystr) (acc : dict)
  : option (json * pystr) :=
  match fuel with
  | O => None
  | S fuel' =>
      match s with
      | c :: r =>
          if (c =? DQ)%N then
            match read_string (S (length r)) r with
            | None => None
            | Some (k, r1) =>
                match skip_ws r1 with
                | c1 :: r2 =>
                    if (c1 =? 58)%N then
                      match read_value fuel' (skip_ws r2) with
                      | None => None
                      | Some (v, r3) =>
                          match skip_ws r3 with
                          | c2 :: r4 =>
                              if (c2 =? 44)%N then
                                read_members fuel' (skip_ws r4)
                                             (dict_set k v acc)
                              else if (c2 =? 125)%N then
                                Some (JDict (dict_set k v acc), r4)
                              else None
                          | [] => None
                          end
                      end
                    else None
                | [] => None
                end
            end
          else None
      | [] => None
      end
  end.

(** [json.loads(s)]; [None] stands for any exception it raises. *)
Definition py_json_loads (s : pystr) : option json :=
  match read_value (2 * length s + 2) (skip_ws s) with
  | Some (v, rest) =>
      match skip_ws rest with
      | [] => Some v
      | _ :: _ => None
      end
  | None => None
  end.

(* ================================================================== *)
(** * ai_parser.py: the salvage cascade                                *)
(* ================================================================== *)

(** [c] is [lower] or its capital; [lower] is an ASCII small letter. *)
Definition letter_ci (lower c : char) : bool :=
  ((c =? lower) || (c =? lower - 32))%N.

(** Under [re.IGNORECASE] the letter [s] also matches U+017F. *)
Definition is_json_word (j s o n : char) : bool :=
  letter_ci 106 j && (letter_ci 115 s || (s =? 383)%N)
  && letter_ci 111 o && letter_ci 110 n.

Definition is_fence (a b c : char) : bool :=
  ((a =? 96) && (b =? 96) && (c =? 96))%N.

(** [re.sub(r"```(?:json)?", "", s, flags=re.IGNORECASE)] *)
Fixpoint sub_fences (s : pystr) : pystr :=
  match s with
  | [] => []
  | a :: t =>
      match t with
      | b :: c :: r =>
          if is_fence a b c then
            match r with
            | j :: s' :: o :: n :: r' =>
                if is_json_word j s' o n then sub_fences r' else sub_fences r
            | _ => sub_fences r
            end
          else a :: sub_fences t
      | _ => a :: sub_fences t
      end
  end.

(** The suffix of [s] that starts at the first [c]. *)
Fixpoint drop_until (c : char) (s : pystr) : option pystr :=
  match s with
  | [] => None
  | x :: r => if (x =? c)%N then Some s else drop_until c r
  end.

(** [re.search(r"(\[.*\])", s, re.DOTALL)]: from the first opening bracket
    to the last closing bracket after it. *)
Definition search_bracket_block (s : pystr) : option pystr :=
  match drop_until 91 s with
  | Some suffix =>
      let j := rfind_all suffix [93%N] in
      if (j =? -1)%Z then None else Some (slice_to suffix (j + 1))
  | None => None
  end.

Fixpoint span_no_brace (s : pystr) : pystr * pystr :=
  match s with
  | c :: r =>
      if ((c =? 123) || (c =? 125))%N then ([], s)
      else let (run, rest) := span_no_brace r in (c :: run, rest)
  | [] => ([], [])
  end.

(** [re.findall(r"\{[^{}]+\}", s, re.DOTALL)] *)
Fixpoint findall_objects (fuel : nat) (s : pystr) : list pystr :=
  match fuel with
  | O => []
  | S fuel' =>
      match s with
      | [] => []
      | c :: r =>
          if (c =? 123)%N then
            match span_no_brace r with
            | ((_ :: _) as run, 125%N :: rest) =>
                (c :: run ++ [125%N]) :: findall_objects fuel' rest
            | _ => findall_objects fuel' r
            end
          else findall_objects fuel' r
      end
  end.

(** The text strategy 4 hands to the parser. *)
Definition truncation_repair (text : pystr) : pystr :=
  let last := rfind_all text (lit "},") in
  if negb (last =? -1)%Z then slice_to text (last + 1) ++ lit "
]"
  else
    let last := rfind_all text (lit "{") in
    slice_to text last ++ lit "
]".

Definition option_bind {A B : Type} (x : option A) (f : A -> option B)
  : option B :=
  match x with Some a => f a | None => None end.

Section Salvage.

(** [json.loads]; [None] stands for any exception, which every strategy
    swallows with a bare [except]. *)
Variable json_loads : pystr -> option json.

(** Strategies 1 and 2 after the parse: a list is returned as it is, a
    mapping with a [transactions] key gives the value under that key. *)
Definition accept_document (obj : json) : option json :=
  match obj with
  | JList _ => Some obj
  | JDict d => dict_get (lit "transactions") d
  | _ => None
  end.

(** Strategies 3 and 4 after the parse: [isinstance(obj, list)]. *)
Definition accept_list (obj : json) : option json :=
  match obj with
  | JList _ => Some obj
  | _ => None
  end.

Definition strategy_direct (text : pystr) : option json :=
  option_bind (json_loads text) accept_document.

Definition strategy_block (cleaned : pystr) : option json :=
  match search_bracket_block cleaned with
  | Some block => option_bind (json_loads block) accept_list
  | None => None
  end.

Definition strategy_truncated (cleaned : pystr) : option json :=
  let text := strip cleaned in
  if startswith text (lit "[") && negb (endswith text (lit "]")) then
    option_bind (json_loads (truncation_repair text)) accept_list
  else None.

Definition strategy_objects (cleaned : pystr) : list json :=
  flat_map (fun o => match json_loads o with
                     | Some v => [v]
                     | None => []
                     end)
           (findall_objects (length cleaned) cleaned).

Definition fence_stripped (raw : pystr) : pystr := strip (sub_fences raw).

(** [_extract_json(raw)] (ai_parser.py, lines 27 to 75): the first
    strategy with an answer gives the result; the last always has one. *)
Definition _extract_json (raw : pystr) : json :=
  match strategy_direct raw with
  | Some v => v
  | None =>
      let cleaned := fence_stripped raw in
      match strategy_direct cleaned with
      | Some v => v
      | None =>
          match strategy_block cleaned with
          | Some v => v
          | None =>
              match strategy_truncated cleaned with
              | Some v => v
              | None => JList (strategy_objects cleaned)
              end
          end
      end
  end.

(* ================================================================ *)
(** * ai_parser.py: record normalization                            *)
(* ================================================================ *)

(** [repr] of a float, a list or a mapping, as CPython prints them. *)
Variable py_repr : json -> pystr.

(** [str(v)] *)
Definition py_str (v : json) : pystr :=
  match v with
  | JStr s => s
  | JNull => lit "None"
  | JBool true => lit "True"
  | JBool false => lit "False"
  | JInt z => lit (NilZero.string_of_int (Z.to_int z))
  | _ => py_repr v
  end.

(** [r.get(k, default)] *)
Definition get_default (k : pystr) (r : dict) (default : json) : json :=
  match dict_get k r with Some v => v | None => default end.

(** [_clean_num(v)] on a value of the response. *)
Definition clean_num_value (v : json) : pyfloat :=
  _clean_num (match v with JNull => None | _ => Some (py_str v) end).

Definition text_field (k : pystr) (r : dict) : json :=
  JStr (strip (py_str (get_default k r (JStr [])))).

Definition amount_field (k : pystr) (r : dict) : json :=
  JFloat (clean_num_value (get_default k r (JInt 0))).

(** The mapping literal appended to [cleaned]. *)
Definition transaction_of (r : dict) : dict :=
  [ (lit "date", text_field (lit "date") r);
    (lit "value_date", text_field (lit "value_date") r);
    (lit "description", text_field (lit "description") r);
    (lit "debit", amount_field (lit "debit") r);
    (lit "credit", amount_field (lit "credit") r);
    (lit "balance", amount_field (lit "balance") r) ].

(** [for r in rows]: what the loop visits, or [None] for the [TypeError]
    of a value that cannot be iterated. *)
Definition iterate (rows : json) : option (list json) :=
  match rows with
  | JList items => Some items
  | JDict d => Some (map (fun kv => JStr (fst kv)) d)
  | JStr s => Some (map (fun c => JStr [c]) s)
  | _ => None
  end.

Definition clean_rows (items : list json) : list dict :=
  flat_map (fun r => match r with
                     | JDict d => [transaction_of d]
                     | _ => []
                     end) items.

(** The language model: the content of its reply to a chunk, or [None]
    when the call (or reading the reply) raises. *)
Variable complete : pystr -> option pystr.

(** [AIParser._parse_chunk(chunk, chunk_num)] (ai_parser.py, lines 122 to
    155), without its count of tokens. *)
Definition _parse_chunk (chunk : pystr) : list dict :=
  match complete chunk with
  | None => []
  | Some content =>
      match iterate (_extract_json (strip content)) with
      | Some items => clean_rows items
      | None => []
      end
  end.

(* ================================================================ *)
(** * ai_parser.py: deduplication                                   *)
(* ================================================================ *)

Definition dedup_key : Type := pystr * pystr * pyfloat * pyfloat.

(** [(r["date"], r["description"][:40], r["debit"], r["credit"])] on a
    record as [_parse_chunk] builds them; [None] on any other shape,
    which [parse] never meets. *)
Definition key_of (r : dict) : option dedup_key :=
  match dict_get (lit "date") r, dict_get (lit "description") r,
        dict_get (lit "debit") r, dict_get (lit "credit") r with
  | Some (JStr d), Some (JStr desc), Some (JFloat deb), Some (JFloat cr) =>
      Some (d, slice_to desc 40, deb, cr)
  | _, _, _, _ => None
  end.

(** Equality of two key tuples. *)
Definition key_eqb (a b : dedup_key) : bool :=
  match a, b with
  | (d1, s1, x1, c1), (d2, s2, x2, c2) =>
      pystr_eqb d1 d2 && pystr_eqb s1 s2
      && float_eqb x1 x2 && float_eqb c1 c2
  end.

(** [key in seen] *)
Definition key_in (k : dedup_key) (seen : list dedup_key) : bool :=
  existsb (key_eqb k) seen.

(** The loop of [parse] over [all_rows] (ai_parser.py, lines 173 to 178). *)
Fixpoint dedup_loop (all_rows : list dict) (seen : list dedup_key)
         (unique : list dict) : option (list dict) :=
  match all_rows with
  | [] => Some unique
  | r :: rest =>
      match key_of r with
      | None => None
      | Some key =>
          if negb (key_in key seen)
          then dedup_loop rest (seen ++ [key]) (unique ++ [r])
          else dedup_loop rest seen unique
      end
  end.

Definition deduplicate (all_rows : list dict) : option (list dict) :=
  dedup_loop all_rows [] [].

(** [AIParser.parse(text, chunk_size)] (ai_parser.py, lines 157 to 182). *)
Definition parse (fuel : nat) (text : pystr) (chunk_size : Z)
  : option (list dict) :=
  match chunk_text fuel text 6000 (Some chunk_size) with
  | None => None
  | Some chunks => deduplicate (flat_map _parse_chunk chunks)
  end.

End Salvage.

(** [k] equals the key of one of the records [before]. *)
Definition matches_before (before : list dict) (k : dedup_key) : bool :=
  existsb (fun p => match key_of p with
                    | Some k' => key_eqb k k'
                    | None => false
                    end) before.

(** The specification's wording of deduplication: a record stays exactly
    when no record before it has an equal key. *)
Fixpoint first_seen_spec (before rows : list dict) : list dict :=
  match rows with
  | [] => []
  | r :: rest =>
      let later := first_seen_spec (before ++ [r]) rest in
      match key_of r with
      | Some k => if matches_before before k then later else r :: later
      | None => later
      end
  end.

(* ================================================================== *)
(** * extractor.py: rows from positioned words                         *)
(* ================================================================== *)

(** A word as PyMuPDF reports it, [(x0, y0, x1, y1, text, ...)]; the
    coordinates are floats, carried here as rationals. *)
Record word : Type := {
  x0 : Q;
  y0 : Q;
  x1 : Q;
  y1 : Q;
  text : pystr
}.

(** A member of a row: [(text, x0, x1, y0)]. *)
Definition token : Type := (pystr * Q * Q * Q)%type.

Definition token_of (w : word) : token := (text w, x0 w, x1 w, y0 w).

Definition token_x0 (t : token) : Q := match t with (_, x, _, _) => x end.
Definition token_y0 (t : token) : Q := match t with (_, _, _, y) => y end.

Definition Qltb (a b : Q) : bool := negb (Qle_bool b a).

(** [sorted(l, key=...)] with [lt] the order of the keys: a stable
    insertion sort. *)
Fixpoint insert_by {A : Type} (lt : A -> A -> bool) (x : A) (l : list A)
  : list A :=
  match l with
  | [] => [x]
  | y :: l' => if lt y x then y :: insert_by lt x l' else x :: y :: l'
  end.

Definition sorted_by {A : Type} (lt : A -> A -> bool) (l : list A) : list A :=
  fold_right (insert_by lt) [] l.

(** [(round(w[1] / y_tol), w[0])] *)
Definition word_key (y_tol : Z) (w : word) : Z * Q :=
  (py_round (y0 w / inject_Z y_tol), x0 w).

(** The order of two such tuples. *)
Definition key_ltb (a b : Z * Q) : bool :=
  (fst a <? fst b)%Z || ((fst a =? fst b)%Z && Qltb (snd a) (snd b)).

Definition by_x0 (a b : token) : bool := Qltb (token_x0 a) (token_x0 b).

(** [if current_row: rows.append(sorted(current_row, key=lambda r: r[1]))] *)
Definition close_row (rows : list (list token)) (current_row : list token)
  : list (list token) :=
  match current_row with
  | [] => rows
  | _ :: _ => rows ++ [sorted_by by_x0 current_row]
  end.

(** [abs(y0 - current_y) <= y_tol] *)
Definition within (y_tol : Z) (y current_y : Q) : bool :=
  Qle_bool (Qabs (y - current_y)) (inject_Z y_tol).

(** The [for w in sorted_words] loop with what it leaves behind. *)
Fixpoint rows_loop (y_tol : Z) (sorted_words : list word)
         (rows : list (list token)) (current_row : list token)
         (current_y : Q) : list (list token) :=
  match sorted_words with
  | [] => close_row rows current_row
  | w :: rest =>
      if within y_tol (y0 w) current_y
      then rows_loop y_tol rest rows (current_row ++ [token_of w]) current_y
      else rows_loop y_tol rest (close_row rows current_row)
                     [token_of w] (y0 w)
  end.

(** [_rows_from_words(word_list, y_tol)] (extractor.py, lines 52 to 81);
    [None] is the [ZeroDivisionError] of a zero tolerance. *)
Definition _rows_from_words (word_list : list word) (y_tol : Z)
  : option (list (list token)) :=
  match word_list with
  | [] => Some []
  | _ :: _ =>
      if (y_tol =? 0)%Z then None
      else
        let sorted_words :=
          sorted_by (fun a b => key_ltb (word_key y_tol a) (word_key y_tol b))
                    word_list in
        match sorted_words with
        | [] => None
        | first :: _ => Some (rows_loop y_tol sorted_words [] [] (y0 first))
        end
  end.

(* ================================================================== *)
(** * extractor.py: the fallback chain of a page                       *)
(* ================================================================== *)

Inductive strategy : Type := Positional | StructuredTable | OCR.

(** What [camelot.read_pdf] did on the page: it raised, or it returned
    tables, each a list of rows of cells. *)
Inductive camelot_result : Type :=
| CamelotRaised
| CamelotTables (tables : list (list (list pystr))).

(** What rasterizing and Tesseract did: a text, or an exception with its
    message. *)
Inductive ocr_result : Type :=
| OcrText (t : pystr)
| OcrRaised (message : pystr).

(** A page, seen through what each strategy gets out of it:
    [positional_text] is what [_extract_page_pymupdf(page)] returns. *)
Record page : Type := {
  positional_text : pystr;
  camelot : camelot_result;
  ocr : ocr_result
}.

(** [sep.join(l)] *)
Fixpoint join (sep : pystr) (l : list pystr) : pystr :=
  match l with
  | [] => []
  | [x] => x
  | x :: l' => x ++ sep ++ join sep l'
  end.

(** [_try_camelot(filepath, page_num)] (extractor.py, lines 135 to 157). *)
Definition _try_camelot (p : page) : pystr :=
  match camelot p with
  | CamelotTables ((_ :: _) as tables) =>
      join [NL]
           (flat_map (fun table =>
                        map (fun row => join (lit " | ") (map strip row))
                            table)
                     tables)
  | CamelotTables [] => []
  | CamelotRaised => []
  end.

(** [_ocr_page(page)] (extractor.py, lines 160 to 169). *)
Definition _ocr_page (p : page) : pystr :=
  match ocr p with
  | OcrText t => t
  | OcrRaised e => lit "[OCR ERROR: " ++ e ++ lit "]"
  end.

Definition too_short (t : pystr) : bool := (len (strip t) <? 50)%Z.

(** The body of the page loop of [_extract_pdf] (extractor.py, lines 202
    to 213): the strategies run, in order, and the text kept. *)
Definition extract_page (p : page) : list strategy * pystr :=
  let t := positional_text p in
  if too_short t then
    let t := _try_camelot p in
    if too_short t then ([Positional; StructuredTable; OCR], _ocr_page p)
    else ([Positional; StructuredTable], t)
  else ([Positional], t).

Definition page_text (p : page) : pystr := snd (extract_page p).
Definition page_trace (p : page) : list strategy := fst (extract_page p).

(** [str(n)] for a page number. *)
Definition str_of_nat (n : nat) : pystr :=
  lit (NilZero.string_of_uint (Nat.to_uint n)).

(** [f"\n--- PAGE {page_num} ---\n{text}"] *)
Definition page_block (page_num : nat) (t : pystr) : pystr :=
  [NL] ++ lit "--- PAGE " ++ str_of_nat page_num ++ lit " ---" ++ [NL] ++ t.

Fixpoint page_blocks (page_num : nat) (doc : list page) : list pystr :=
  match doc with
  | [] => []
  | p :: rest =>
      page_block page_num (page_text p) :: page_blocks (S page_num) rest
  end.

(** [DocumentExtractor._extract_pdf()] (extractor.py, lines 193 to 219). *)
Definition _extract_pdf (doc : list page) : pystr :=
  join [NL] (page_blocks 1 doc).

(* ================================================================== *)
(** * extract.py: the outcome of a run                                 *)
(* ================================================================== *)

(** The file handed to [DocumentExtractor]: by its extension a PDF, an
    image (with what Tesseract makes of it), or something else. *)
Inductive document : Type :=
| PdfFile (pages : list page)
| ImageFile (result : ocr_result)
| OtherFile.

(** [DocumentExtractor.extract()]; [None] is an exception. *)
Definition extract (d : document) : option pystr :=
  match d with
  | PdfFile pages => Some (_extract_pdf pages)
  | ImageFile (OcrText t) => Some t
  | ImageFile (OcrRaised _) => None
  | OtherFile => None
  end.

(** What [main] prints, once the path is known to exist. *)
Inductive outcome : Type :=
| NoContent            (* "Could not extract text from document" *)
| NoTransactions       (* "No transactions found" *)
| Succeeded (transactions : list dict)
| Failed.              (* the [except Exception] branch *)

(** The [try] block of [main] (extract.py, lines 66 to 87), up to the
    summary it prints on success; [parse_text] is [AIParser(...).parse], with
    [None] for an exception that leaves it. *)
Definition main (parse_text : pystr -> option (list dict)) (d : document)
  : outcome :=
  match extract d with
  | None => Failed
  | Some raw_text =>
      if negb (nonempty raw_text) || (len (strip raw_text) <? 50)%Z
      then NoContent
      else
        match parse_text raw_text with
        | None => Failed
        | Some [] => NoTransactions
        | Some ((_ :: _) as transactions) => Succeeded transactions
        end
  end.

(* ================================================================== *)
(** * Vocabulary of the statements                                     *)
(* ================================================================== *)

(** ** Plain numerals: digits and the decimal point *)

Definition plain (c : char) : bool := is_digit c || (c =? 46)%N.

Definition numeral (t : pystr) : Prop := forall c, In c t -> plain c = true.

Definition plain_chars : list char :=
  [46; 48; 49; 50; 51; 52; 53; 54; 55; 56; 57]%N.

(** The part of [_clean_num] below the sentinel test. *)
Definition signed_value (s : pystr) : pyfloat :=
  match py_float (strip_chars (lit "()") s) with
  | Some f =>
      if startswith s (lit "(") && endswith s (lit ")") then float_neg f
      else f
  | None => zero
  end.

Definition float_or_zero (t : pystr) : pyfloat :=
  match py_float t with Some f => f | None => zero end.

(** A JSON string literal: the text between two double quotes. *)
Definition quoted (s : String.string) : pystr := DQ :: lit s ++ [DQ].
Arguments quoted s%_string.

(** [sub in s] *)
Fixpoint occurs (s sub : pystr) : bool :=
  startswith s sub
  || match s with
     | [] => false
     | _ :: r => occurs r sub
     end.

(** ** Markers and the texts [float] accepts *)

(** A thousands separator, a [#], a whitespace character or the naira
    sign. *)
Definition marker_char (c : char) : bool :=
  (c =? 44)%N || (c =? 35)%N || py_isspace c || (c =? NAIRA)%N.

(** A text without its markers, the letters [NGN] left aside. *)
Definition without_markers (v : pystr) : pystr :=
  filter (fun c => negb (marker_char c)) v.

(** What the transformation to ASCII makes of one character. *)
Definition ascii_image (c : char) : char :=
  if (c <? 127)%N then c
  else if py_isspace c then 32%N
  else match py_todecimal c with
       | Some d => (48 + d)%N
       | None => 63%N
       end.

(** A character at which the transformation does not cut the text. *)
Definition decodable (c : char) : bool :=
  (c <? 127)%N || py_isspace c
  || match py_todecimal c with Some _ => true | None => false end.

(** The ASCII characters of a text the parser of [float] accepts: digits,
    the underscore, the point, the exponent letter, the signs, and the
    letters of [inf], [infinity] and [nan]. *)
Definition float_chars : pystr := lit "0123456789_.eE+-iInNfFtTyYaA".

Definition float_char (c : char) : bool := existsb (char_eqb c) float_chars.

(** A reply cut inside its third object. *)
Definition truncated_reply : pystr :=
  lit "[{" ++ quoted "a" ++ lit ":1},{" ++ quoted "b" ++ lit ":2},{"
      ++ quoted "c" ++ lit ":".

(** A reply cut right after the closing brace of its second object. *)
Definition cut_after_object : pystr :=
  lit "[{" ++ quoted "a" ++ lit ":1},{" ++ quoted "b" ++ lit ":2}".

(** The six field names of a transaction, in the order of the literal. *)
Definition field_names : list pystr :=
  [lit "date"; lit "value_date"; lit "description";
   lit "debit"; lit "credit"; lit "balance"].

Definition text_fields : list pystr :=
  [lit "date"; lit "value_date"; lit "description"].

Definition amount_fields : list pystr :=
  [lit "debit"; lit "credit"; lit "balance"].

(** A normalized record: the six fields, three strings and three floats. *)
Definition transaction (d vd desc : pystr) (deb cr bal : pyfloat) : dict :=
  [ (lit "date", JStr d); (lit "value_date", JStr vd);
    (lit "description", JStr desc); (lit "debit", JFloat deb);
    (lit "credit", JFloat cr); (lit "balance", JFloat bal) ].

Definition is_transaction (t : dict) : Prop :=
  exists d vd desc deb cr bal, t = transaction d vd desc deb cr bal.

(** The six fields of a normalized record. *)
Record fields : Type := {
  f_date : pystr;
  f_value_date : pystr;
  f_description : pystr;
  f_debit : pyfloat;
  f_credit : pyfloat;
  f_balance : pyfloat
}.

Definition record_of (f : fields) : dict :=
  transaction (f_date f) (f_value_date f) (f_description f)
              (f_debit f) (f_credit f) (f_balance f).

(** The key of the specification, in the record's own fields: two records
    have the same key when their dates are the same text, the first 40
    characters of their descriptions are the same text, and their debits
    and their credits are equal floats. *)
Definition spec_same_key (a b : fields) : bool :=
  pystr_eqb (f_date a) (f_date b)
  && pystr_eqb (firstn 40 (f_description a)) (firstn 40 (f_description b))
  && float_eqb (f_debit a) (f_debit b)
  && float_eqb (f_credit a) (f_credit b).

(** Deduplication as the specification words it: in the order of the
    input, a record is kept exactly when no record [before] it has the
    same key. *)
Fixpoint spec_dedup (before rows : list fields) : list fields :=
  match rows with
  | [] => []
  | r :: rest =>
      if existsb (spec_same_key r) before
      then spec_dedup (before ++ [r]) rest
      else r :: spec_dedup (before ++ [r]) rest
  end.

(** A reply with one full record, one partial record and a stray number. *)
Definition sample_reply : pystr :=
  lit "[{" ++ quoted "date" ++ lit ":" ++ quoted "01/12/2025" ++ lit ","
      ++ quoted "debit" ++ lit ":" ++ quoted "7,037.31" ++ lit "}, {"
      ++ quoted "credit" ++ lit ": null}, 3]".

(** A page from which no strategy gets a character. *)
Definition blank_page : page :=
  {| positional_text := []; camelot := CamelotTables []; ocr := OcrText [] |}.

(** A page where nothing is found and both collaborators fail. *)
Definition failing_page : page :=
  {| positional_text := []; camelot := CamelotRaised;
     ocr := OcrRaised (lit "tesseract is not installed") |}.

(** A page where the words give nothing and Camelot finds one table of
    one row. *)
Definition table_page : page :=
  {| positional_text := [];
     camelot := CamelotTables
                  [[[lit " 01/12/2025 "; lit "POS PURCHASE SHOPRITE IKEJA";
                     lit "7,037.31"; lit ""; lit "330,000.00 "]]];
     ocr := OcrText [] |}.

(** A language model that finds nothing in any chunk. *)
Definition finds_nothing (chunk : pystr) : option pystr := Some (lit "[]").

(** A language model whose call fails on a chunk that starts with [fail]
    and that answers [sample_reply] on every other chunk. *)
Definition sample_model (chunk : pystr) : option pystr :=
  if startswith chunk (lit "fail") then None else Some sample_reply.

(** Three lines, cut into four chunks by a size of 10. *)
Definition three_lines : pystr :=
  lit "page one" ++ [NL] ++ lit "fail two" ++ [NL] ++ lit "page three".

(** [AIParser.parse] with the JSON reader of this file. *)
Definition run_parse (complete : pystr -> option pystr) (raw_text : pystr)
  : option (list dict) :=
  parse py_json_loads (fun _ => []) complete (S (length raw_text))
        raw_text 6000.

Definition word_at (x y : Z) (s : String.string) : word :=
  {| x0 := inject_Z x; y0 := inject_Z y; x1 := inject_Z (x + 10);
     y1 := inject_Z (y + 10); text := lit s |}.
Arguments word_at (x y)%_Z s%_string.

(** A row has an anchor: one of its tokens from whose [y0] every token of
    the row is within the tolerance. *)
Definition anchored (y_tol : Z) (row : list token) : Prop :=
  exists a, In a row /\
            forall t, In t row -> within y_tol (token_y0 t) (token_y0 a) = true.

(** The order in which the row builder visits the words: by
    [(round(y0 / y_tol), x0)]. *)
Definition visit_ltb (y_tol : Z) (a b : word) : bool :=
  key_ltb (word_key y_tol a) (word_key y_tol b).

(** In the order [lt], [b] does not come before [a]. *)
Definition not_after {A : Type} (lt : A -> A -> bool) (a b : A) : Prop :=
  lt b a = false.

(** A run of words anchored at its first word, the first put in the row:
    every word of the run is within the tolerance of the [y0] of the
    first. *)
Definition anchored_run (y_tol : Z) (run : list word) : Prop :=
  match run with
  | [] => False
  | first :: _ =>
      forall w, In w run -> within y_tol (y0 w) (y0 first) = true
  end.

(** A new run starts only at a word farther than the tolerance from the
    anchor of the run before it. *)
Fixpoint runs_break (y_tol : Z) (runs : list (list word)) : Prop :=
  match runs with
  | [] => True
  | run :: rest =>
      match run, rest with
      | a :: _, (b :: _) :: _ => within y_tol (y0 b) (y0 a) = false
      | _, _ => True
      end
      /\ runs_break y_tol rest
  end.

(** The row made of a run of words: its tokens, left to right. *)
Definition row_of_run (run : list word) : list token :=
  sorted_by by_x0 (map token_of run).

(** The text a strategy gets out of a page. *)
Definition yield_of (p : page) (s : strategy) : pystr :=
  match s with
  | Positional => positional_text p
  | StructuredTable => _try_camelot p
  | OCR => _ocr_page p
  end.

(** What the row loop knows about the row it is filling: every token is
    within the tolerance of [current_y], and [current_y] is the [y0] of
    one of them (of the word to come, as long as the row is empty). *)
Definition filling (y_tol : Z) (ws : list word) (cur : list token) (y : Q)
  : Prop :=
  (forall t, In t cur -> within y_tol (token_y0 t) y = true)
  /\ match cur with
     | [] => match ws with
             | w :: _ => y0 w = y
             | [] => True
             end
     | _ :: _ => exists a, In a cur /\ token_y0 a = y
     end.

(* ================================================================== *)
(** * extractor.py: header, columns and the positional text of a page  *)
(* ================================================================== *)

(** A [dict] with string keys and values of any one type: [d.get(k)] and
    [d[k] = v]. *)
Fixpoint pydict_get {V : Type} (k : pystr) (d : list (pystr * V)) : option V :=
  match d with
  | [] => None
  | (k', v) :: d' => if pystr_eqb k k' then Some v else pydict_get k d'
  end.

Fixpoint pydict_set {V : Type} (k : pystr) (v : V) (d : list (pystr * V))
  : list (pystr * V) :=
  match d with
  | [] => [(k, v)]
  | (k', v') :: d' =>
      if pystr_eqb k k' then (k', v) :: d' else (k', v') :: pydict_set k v d'
  end.

(** A column map: column name to horizontal centre. *)
Definition colmap : Type := list (pystr * Q).

(** [abs(col_map[c] - cx)], for a key [c] of the map. *)
Definition column_distance (cx : Q) (col_map : colmap) (c : pystr) : Q :=
  match pydict_get c col_map with
  | Some v => Qabs (v - cx)
  | None => 0%Q
  end.

(** [min(best :: l, key=key)]: the first of the smallest. *)
Fixpoint min_by {A : Type} (key : A -> Q) (best : A) (l : list A) : A :=
  match l with
  | [] => best
  | x :: l' =>
      if Qltb (key x) (key best) then min_by key x l' else min_by key best l'
  end.

(** [_nearest_col(cx, col_map)] (extractor.py, lines 46 to 49). *)
Definition _nearest_col (cx : Q) (col_map : colmap) : pystr :=
  match map fst col_map with
  | [] => lit "description"
  | c :: rest => min_by (column_distance cx col_map) c rest
  end.

Definition token_text (t : token) : pystr :=
  match t with (s, _, _, _) => s end.

(** [(x0 + x1) / 2] *)
Definition centre (a b : Q) : Q := ((a + b) / 2)%Q.

Definition token_centre (t : token) : Q :=
  match t with (_, a, b, _) => centre a b end.

Definition column_names : list pystr :=
  [lit "date"; lit "description"; lit "debit"; lit "credit"; lit "balance"].

(** The five lists of a row, [cells]. *)
Definition cells : Type := list (pystr * list pystr).

Definition empty_cells : cells := map (fun c => (c, [])) column_names.

(** [cells[col].append(text)]; [None] is [KeyError]. *)
Definition cells_append (col text : pystr) (cs : cells) : option cells :=
  match pydict_get col cs with
  | Some l => Some (pydict_set col (l ++ [text]) cs)
  | None => None
  end.

(** The loop over the tokens of a row. *)
Fixpoint fill_cells (col_map : colmap) (row : list token) (cs : cells)
  : option cells :=
  match row with
  | [] => Some cs
  | t :: rest =>
      let col := _nearest_col (token_centre t) col_map in
      match cells_append col (token_text t) cs with
      | Some cs' => fill_cells col_map rest cs'
      | None => None
      end
  end.

(** [[" ".join(cells[c]) for c in names]]; [None] is [KeyError]. *)
Fixpoint cell_texts (cs : cells) (names : list pystr) : option (list pystr) :=
  match names with
  | [] => Some []
  | c :: rest =>
      match pydict_get c cs, cell_texts cs rest with
      | Some l, Some ts => Some (join (lit " ") l :: ts)
      | _, _ => None
      end
  end.

(** The line of a row when a column map was found. *)
Definition structured_line (col_map : colmap) (row : list token)
  : option pystr :=
  match fill_cells col_map row empty_cells with
  | Some cs =>
      match cell_texts cs column_names with
      | Some ts => Some (join (lit " | ") ts)
      | None => None
      end
  | None => None
  end.

(** The line of a row: [if col_map: ... else: ...]. *)
Definition row_line (col_map : colmap) (row : list token) : option pystr :=
  match col_map with
  | [] => Some (join (lit " ") (map token_text row))
  | _ :: _ => structured_line col_map row
  end.

(** The loop that builds [lines]: a line is kept when
    [line.strip(" |")] is not empty. *)
Fixpoint page_lines (col_map : colmap) (rows : list (list token))
  : option (list pystr) :=
  match rows with
  | [] => Some []
  | row :: rest =>
      match row_line col_map row with
      | None => None
      | Some line =>
          match page_lines col_map rest with
          | None => None
          | Some lines =>
              Some (if nonempty (strip_chars (lit " |") line)
                    then line :: lines else lines)
          end
      end
  end.

Section Positional.

(** The five compiled patterns of the module, each as the test
    [pattern.search(text) is not None]. *)
Variables _DATE_KW _DESC_KW _DEBIT_KW _CREDIT_KW _BALANCE_KW : pystr -> bool.

(** [_is_header(words_in_row)] (extractor.py, lines 15 to 20). *)
Definition _is_header (words_in_row : list pystr) : bool :=
  let text := join (lit " ") words_in_row in
  _DATE_KW text && (_DEBIT_KW text || _CREDIT_KW text).

(** The [if]/[elif] chain of [_cluster_columns]: the column a header word
    names, if any. *)
Definition header_column (text : pystr) : option pystr :=
  if _DATE_KW text then Some (lit "date")
  else if _DESC_KW text then Some (lit "description")
  else if _DEBIT_KW text then Some (lit "debit")
  else if _CREDIT_KW text then Some (lit "credit")
  else if _BALANCE_KW text then Some (lit "balance")
  else None.

Fixpoint cluster_loop (header_words : list (pystr * Q * Q)) (cols : colmap)
  : colmap :=
  match header_words with
  | [] => cols
  | (text, a, b) :: rest =>
      cluster_loop rest
        (match header_column text with
         | Some c => pydict_set c (centre a b) cols
         | None => cols
         end)
  end.

(** [_cluster_columns(header_words)] (extractor.py, lines 23 to 43). *)
Definition _cluster_columns (header_words : list (pystr * Q * Q)) : colmap :=
  cluster_loop header_words [].

Definition header_word (t : token) : pystr * Q * Q :=
  match t with (s, a, b, _) => (s, a, b) end.

(** The search for the header row: the column map and the index of the
    first row that is a header, or the empty map and 0. *)
Fixpoint find_header (i : nat) (rows : list (list token)) : colmap * nat :=
  match rows with
  | [] => ([], O)
  | row :: rest =>
      if _is_header (map token_text row)
      then (_cluster_columns (map header_word row), i)
      else find_header (S i) rest
  end.

(** [_extract_page_pymupdf(page)] (extractor.py, lines 84 to 132) on the
    words of the page; [None] is an exception. *)
Definition _extract_page_pymupdf (word_list : list word) : option pystr :=
  match word_list with
  | [] => Some []
  | _ :: _ =>
      match _rows_from_words word_list 5 with
      | None => None
      | Some [] => Some []
      | Some rows =>
          let (col_map, header_idx) := find_header 0 rows in
          match page_lines col_map (skipn header_idx rows) with
          | Some lines => Some (join [NL] lines)
          | None => None
          end
      end
  end.

End Positional.

(* ================================================================== *)
(** * extract.py and api.py: the name of the bank                      *)
(* ================================================================== *)

(** The table of [detect_bank] (extract.py, lines 22 to 42). *)
Definition banks : list (pystr * pystr) :=
  [ (lit "zenith", lit "Zenith Bank"); (lit "ecobank", lit "Ecobank");
    (lit "opay", lit "OPay"); (lit "guaranty", lit "GTBank");
    (lit "gtbank", lit "GTBank"); (lit "access bank", lit "Access Bank");
    (lit "united bank", lit "UBA"); (lit "uba", lit "UBA");
    (lit "first bank", lit "First Bank"); (lit "fidelity", lit "Fidelity Bank");
    (lit "stanbic", lit "Stanbic IBTC"); (lit "kuda", lit "Kuda Bank");
    (lit "moniepoint", lit "Moniepoint"); (lit "palmpay", lit "PalmPay");
    (lit "wema", lit "Wema Bank"); (lit "fcmb", lit "FCMB");
    (lit "sterling", lit "Sterling Bank"); (lit "union bank", lit "Union Bank");
    (lit "polaris", lit "Polaris Bank") ].

(** The table of [_detect_bank] (api.py, lines 25 to 46): one entry more. *)
Definition banks_api : list (pystr * pystr) :=
  banks ++ [(lit "jaiz", lit "Jaiz Bank")].

(** [for key, name in table.items(): if key in text_lower: return name],
    then [return "Unknown"]. *)
Fixpoint first_bank (table : list (pystr * pystr)) (text_lower : pystr)
  : pystr :=
  match table with
  | [] => lit "Unknown"
  | (key, name) :: rest =>
      if occurs text_lower key then name else first_bank rest text_lower
  end.

Section Banks.

(** [str.lower] *)
Variable py_lower : pystr -> pystr.

(** [detect_bank(text)] (extract.py, lines 20 to 46). *)
Definition detect_bank (t : pystr) : pystr := first_bank banks (py_lower t).

(** [_detect_bank(text)] (api.py, lines 23 to 50). *)
Definition _detect_bank (t : pystr) : pystr :=
  first_bank banks_api (py_lower t).

End Banks.

(* ================================================================== *)
(** * ai_parser.py: the API key                                        *)
(* ================================================================== *)

Definition KEY_NAME : pystr := lit "OPENAI_API_KEY".

(** [line.split("=", 1)] when it has two parts: the text before the first
    [=] and the text after it. *)
Fixpoint split_once (c : char) (s : pystr) : option (pystr * pystr) :=
  match s with
  | [] => None
  | x :: r =>
      if (x =? c)%N then Some ([], r)
      else match split_once c r with
           | Some (a, b) => Some (x :: a, b)
           | None => None
           end
  end.

(** The loop over the lines of the [.env] file: the value of the first
    line that starts with the name and has an [=]. *)
Fixpoint scan_env (lines : list pystr) : option pystr :=
  match lines with
  | [] => None
  | line :: rest =>
      let line := strip line in
      if startswith line KEY_NAME then
        match split_once 61 line with
        | Some (_, v) =>
            Some (strip_chars [39%N] (strip_chars [DQ] (strip v)))
        | None => scan_env rest
        end
      else scan_env rest
  end.

(** [_load_key()] (ai_parser.py, lines 5 to 14): [env_file] is the lines
    of the [.env] file beside the module, when there is one, and
    [environ] the value of the environment variable, when it is set. *)
Definition _load_key (env_file : option (list pystr)) (environ : option pystr)
  : pystr :=
  let from_environ := match environ with Some v => v | None => [] end in
  match env_file with
  | Some lines =>
      match scan_env lines with
      | Some key => key
      | None => from_environ
      end
  | None => from_environ
  end.

(** The test of [AIParser.__init__] (ai_parser.py, line 112) that ends in
    [ValueError]: [not api_key or len(api_key) < 20]. *)
Definition key_rejected (api_key : pystr) : bool :=
  negb (nonempty api_key) || (len api_key <? 20)%Z.

(* ================================================================== *)
(** * Vocabulary of the further statements                             *)
(* ================================================================== *)

(** The key of a later record equals the key of no earlier one. *)
Fixpoint distinct_keys (l : list dict) : Prop :=
  match l with
  | [] => True
  | r :: rest =>
      (forall r' k k', In r' rest -> key_of r = Some k ->
                       key_of r' = Some k' -> key_eqb k' k = false)
      /\ distinct_keys rest
  end.

(** A text the object pattern of strategy 5 can match: braces around a
    non-empty text without braces. *)
Definition flat_object_text (o : pystr) : Prop :=
  exists inner, o = 123%N :: inner ++ [125%N]
                /\ inner <> []
                /\ forall c, In c inner -> c <> 123%N /\ c <> 125%N.

(** The five lists of a row as a function of the column name. *)
Definition cells_of (f : pystr -> list pystr) : cells :=
  map (fun c => (c, f c)) column_names.

(** The tokens of a row that fall in column [c]. *)
Definition column_tokens (col_map : colmap) (row : list token) (c : pystr)
  : list token :=
  filter (fun t => pystr_eqb (_nearest_col (token_centre t) col_map) c) row.

(** Sample header tests: the text is the keyword, letter case apart. *)
Definition keyword (w : String.string) (t : pystr) : bool :=
  pystr_eqb (map ascii_lower t) (lit w).
Arguments keyword w%_string t.

(** The line of a row when no column map was found. *)
Definition plain_line (row : list token) : pystr :=
  join (lit " ") (map token_text row).

(** The test that keeps a line: [line.strip(" |")] is not empty. *)
Definition kept_line (line : pystr) : bool :=
  nonempty (strip_chars (lit " |") line).

(** Sample header tests: the keyword occurs in the text, letter case
    apart. *)
Definition mentions (w : String.string) (t : pystr) : bool :=
  occurs (map ascii_lower t) (lit w).
Arguments mentions w%_string t.

(* ================================================================== *)
(** * Facts about Python strings                                       *)
(* ================================================================== *)

Lemma len_nonneg (s : pystr) : (0 <= len s)%Z.
Proof. unfold len; lia. Qed.

Lemma lstrip_by_split (f : char -> bool) (s : pystr) :
  exists l, s = l ++ lstrip_by f s /\ forallb f l = true.
Proof.
  induction s as [|c s IH]; simpl.
  - exists []; auto.
  - destruct (f c) eqn:Hc.
    + destruct IH as (l & Hl & Hall).
      exists (c :: l); simpl; rewrite Hc, Hall; split; [f_equal; exact Hl | reflexivity].
    + exists []; auto.
Qed.

Lemma strip_by_split (f : char -> bool) (s : pystr) :
  exists l r, s = l ++ strip_by f s ++ r
              /\ forallb f l = true /\ forallb f r = true.
Proof.
  unfold strip_by, rstrip_by.
  destruct (lstrip_by_split f s) as (l & Hl & Hlall).
  destruct (lstrip_by_split f (rev (lstrip_by f s))) as (r & Hr & Hrall).
  exists l, (rev r); repeat split; auto.
  - rewrite <- rev_app_distr, <- Hr, rev_involutive; exact Hl.
  - rewrite forallb_forall in *; intros x Hx; apply Hrall, in_rev; exact Hx.
Qed.

(** What [strip()] removes is whitespace at the two edges, nothing else. *)
Lemma strip_split (s : pystr) :
  exists l r, s = l ++ strip s ++ r
              /\ forallb py_isspace l = true /\ forallb py_isspace r = true.
Proof. apply strip_by_split. Qed.

Lemma length_lstrip_by (f : char -> bool) (s : pystr) :
  (length (lstrip_by f s) <= length s)%nat.
Proof.
  induction s as [|c s IH]; simpl; auto.
  destruct (f c); simpl; lia.
Qed.

Lemma length_strip (s : pystr) : (length (strip s) <= length s)%nat.
Proof.
  unfold strip, strip_by, rstrip_by.
  rewrite length_rev.
  etransitivity; [apply length_lstrip_by|].
  rewrite length_rev. apply length_lstrip_by.
Qed.

Lemma remove_ws_app (a b : pystr) :
  remove_ws (a ++ b) = remove_ws a ++ remove_ws b.
Proof. apply filter_app. Qed.

Lemma remove_ws_spaces (l : pystr) :
  forallb py_isspace l = true -> remove_ws l = [].
Proof.
  induction l as [|c l IH]; simpl; auto.
  intros H; apply andb_true_iff in H as [Hc Hl].
  rewrite Hc; simpl; auto.
Qed.

Lemma remove_ws_strip (s : pystr) : remove_ws (strip s) = remove_ws s.
Proof.
  destruct (strip_split s) as (l & r & Hs & Hl & Hr).
  rewrite Hs at 2.
  rewrite !remove_ws_app, (remove_ws_spaces l Hl), (remove_ws_spaces r Hr).
  now rewrite app_nil_r.
Qed.

Lemma remove_ws_concat_strip (ps : list pystr) :
  remove_ws (concat (filter nonempty (map strip ps))) = remove_ws (concat ps).
Proof.
  induction ps as [|p ps IH]; [reflexivity|].
  change (concat (p :: ps)) with (p ++ concat ps).
  rewrite remove_ws_app, <- IH, <- (remove_ws_strip p).
  change (map strip (p :: ps)) with (strip p :: map strip ps).
  destruct (strip p) as [|c q] eqn:Hp; [reflexivity|].
  change (filter nonempty ((c :: q) :: map strip ps))
    with ((c :: q) :: filter nonempty (map strip ps)).
  change (concat ((c :: q) :: filter nonempty (map strip ps)))
    with ((c :: q) ++ concat (filter nonempty (map strip ps))).
  apply remove_ws_app.
Qed.

Lemma nonempty_filter (l : list pystr) :
  Forall (fun c => c <> []) (filter nonempty l).
Proof.
  apply Forall_forall; intros c Hc.
  apply filter_In in Hc as [_ Hc].
  destruct c; [discriminate | congruence].
Qed.

Lemma rfind_from_range (sub s : pystr) (a : Z) (k : nat) :
  rfind_from sub s a k = (-1)%Z
  \/ (a <= rfind_from sub s a k < a + Z.of_nat k)%Z.
Proof.
  induction k as [|k IH]; simpl; auto.
  destruct (startswith _ sub).
  - right; lia.
  - destruct IH as [IH|IH]; [left; auto | right; lia].
Qed.

Lemma clamp_index_id (n i : Z) : (0 <= i <= n)%Z -> clamp_index n i = i.
Proof.
  intros H; unfold clamp_index.
  destruct (i <? 0)%Z eqn:E; [apply Z.ltb_lt in E; lia | lia].
Qed.

Lemma clamp_index_over (n i : Z) : (0 <= n <= i)%Z -> clamp_index n i = n.
Proof.
  intros H; unfold clamp_index.
  destruct (i <? 0)%Z eqn:E; [apply Z.ltb_lt in E; lia | lia].
Qed.

(** Inside the text, [rfind] of one character answers [-1] or an index of
    the window it was asked to search. *)
Lemma rfind_char_range (s : pystr) (c : char) (lo hi : Z) :
  (0 <= lo <= hi)%Z -> (hi <= len s)%Z ->
  rfind s [c] lo hi = (-1)%Z \/ (lo <= rfind s [c] lo hi < hi)%Z.
Proof.
  intros Hlo Hhi; unfold rfind.
  rewrite !clamp_index_id by lia.
  change (len [c]) with 1%Z.
  destruct (hi - lo <? 1)%Z eqn:E; auto.
  apply Z.ltb_ge in E.
  destruct (rfind_from_range [c] s lo (Z.to_nat (hi - lo - 1 + 1))) as [H|H];
    [left; auto | right; lia].
Qed.

(* ================================================================== *)
(** * utils.py: the chunker                                            *)
(* ================================================================== *)

Section Chunker.

Variable text : pystr.
Variable size : Z.
Hypothesis size_pos : (0 < size)%Z.

(** Every pass of the loop moves [start] forward, by at most [size]. *)
Lemma chunk_end_progress (start : Z) :
  (0 <= start < len text)%Z ->
  (start < chunk_end text size start <= start + size)%Z.
Proof.
  intros Hs; unfold chunk_end.
  destruct (start + size <? len text)%Z eqn:E; [|lia].
  apply Z.ltb_lt in E.
  assert (H : rfind text [NL] start (start + size) = (-1)%Z
              \/ (start <= rfind text [NL] start (start + size)
                   < start + size)%Z)
    by (apply rfind_char_range; lia).
  destruct (rfind text [NL] start (start + size) >? start)%Z eqn:G;
    [apply Z.gtb_lt in G|]; lia.
Qed.

Lemma length_slice (a b : Z) :
  (0 <= a < len text)%Z -> (a < b)%Z ->
  len (slice text a b) = (Z.min b (len text) - a)%Z.
Proof.
  intros Ha Hb; unfold slice, len in *.
  rewrite (clamp_index_id (n:=Z.of_nat (length text)) (i:= a)) by lia.
  rewrite length_firstn, length_skipn.
  unfold clamp_index.
  destruct (b <? 0)%Z eqn:E; [apply Z.ltb_lt in E|]; lia.
Qed.

Lemma slice_skipn (a b : Z) :
  (0 <= a < len text)%Z -> (a < b)%Z ->
  slice text a b ++ skipn (Z.to_nat b) text = skipn (Z.to_nat a) text.
Proof.
  intros Ha Hb; unfold slice.
  rewrite (clamp_index_id (n:=len text) (i:= a)) by lia.
  rewrite <- (firstn_skipn (Z.to_nat (clamp_index (len text) b - a))
                           (skipn (Z.to_nat a) text)) at 2.
  f_equal. rewrite skipn_skipn.
  destruct (Z_le_gt_dec b (len text)) as [Hle|Hgt].
  - rewrite clamp_index_id by lia. f_equal; lia.
  - rewrite clamp_index_over by (unfold len in *; lia).
    rewrite !skipn_all2; auto; unfold len in *; lia.
Qed.

(** The windows tile the rest of the text, whatever the fuel above the
    number of characters left. *)
Lemma chunk_pieces_concat (fuel : nat) : forall start,
  (0 <= start)%Z -> (Z.to_nat (len text - start) < fuel)%nat ->
  concat (chunk_pieces fuel text size start) = skipn (Z.to_nat start) text.
Proof.
  induction fuel as [|fuel IH]; intros start Hs Hf; [lia|].
  simpl. destruct (start <? len text)%Z eqn:E.
  - apply Z.ltb_lt in E.
    pose proof (chunk_end_progress (start:=start) (conj Hs E)) as Hp.
    simpl. rewrite IH by lia.
    apply slice_skipn; lia.
  - apply Z.ltb_ge in E. simpl.
    rewrite skipn_all2; auto. unfold len in *; lia.
Qed.

Lemma chunk_pieces_bounded (fuel : nat) : forall start,
  (0 <= start)%Z ->
  Forall (fun p => (len p <= size)%Z) (chunk_pieces fuel text size start).
Proof.
  induction fuel as [|fuel IH]; intros start Hs; simpl; auto.
  destruct (start <? len text)%Z eqn:E; auto.
  apply Z.ltb_lt in E.
  pose proof (chunk_end_progress (start:=start) (conj Hs E)) as Hp.
  constructor; [|apply IH; lia].
  rewrite length_slice; lia.
Qed.

(** With enough fuel the loop returns, and what it returns is the
    stripped windows appended to the accumulator. *)
Lemma chunk_loop_pieces (fuel : nat) : forall start chunks,
  (0 <= start)%Z -> (Z.to_nat (len text - start) < fuel)%nat ->
  chunk_loop fuel text size start chunks
  = Some (chunks ++ map strip (chunk_pieces fuel text size start)).
Proof.
  induction fuel as [|fuel IH]; intros start chunks Hs Hf; [lia|].
  simpl. destruct (start <? len text)%Z eqn:E.
  - apply Z.ltb_lt in E.
    pose proof (chunk_end_progress (start:=start) (conj Hs E)) as Hp.
    rewrite IH by lia. simpl. now rewrite <- app_assoc.
  - now rewrite app_nil_r.
Qed.

(** More fuel than needed changes nothing. *)
Lemma chunk_pieces_fuel (fuel : nat) : forall fuel' start,
  (0 <= start)%Z -> (Z.to_nat (len text - start) < fuel)%nat ->
  (Z.to_nat (len text - start) < fuel')%nat ->
  chunk_pieces fuel text size start = chunk_pieces fuel' text size start.
Proof.
  induction fuel as [|fuel IH]; intros fuel' start Hs Hf Hf'; [lia|].
  destruct fuel' as [|fuel']; [lia|].
  simpl. destruct (start <? len text)%Z eqn:E; auto.
  apply Z.ltb_lt in E.
  pose proof (chunk_end_progress (start:=start) (conj Hs E)) as Hp.
  f_equal. apply IH; lia.
Qed.

End Chunker.

Lemma Forall_len_strip (size : Z) (ps : list pystr) :
  Forall (fun p => (len p <= size)%Z) ps ->
  Forall (fun c => (len c <= size)%Z) (filter nonempty (map strip ps)).
Proof.
  intros H. apply Forall_forall. intros c Hc.
  apply filter_In in Hc as [Hc _].
  apply in_map_iff in Hc as (p & <- & Hp).
  rewrite Forall_forall in H. specialize (H p Hp).
  pose proof (length_strip p). unfold len in *; lia.
Qed.

Lemma chunk_text_pieces (text : pystr) (chunk_size : Z) (max_chars : option Z)
      (fuel : nat) :
  (0 < effective_size chunk_size max_chars)%Z ->
  (length text < fuel)%nat ->
  chunk_text fuel text chunk_size max_chars
  = Some (filter nonempty
            (map strip (chunk_pieces (S (length text)) text
                          (effective_size chunk_size max_chars) 0))).
Proof.
  intros Hsize Hf. unfold chunk_text.
  rewrite chunk_loop_pieces by (unfold len; lia). simpl app.
  do 3 f_equal. apply chunk_pieces_fuel; unfold len; lia.
Qed.

(** C6. For every text and every effective chunk size above zero the
    chunker returns (for any fuel above the length of the text) a list of
    chunks; the chunks are the non-empty results of stripping consecutive
    windows whose concatenation is the text, so that the chunks and the
    text agree once whitespace is deleted; no chunk is empty; no chunk is
    longer than the size; and the empty text gives no chunk. *)
Theorem chunk_text_reconstructs :
  forall (text : pystr) (chunk_size : Z) (max_chars : option Z),
    (0 < effective_size chunk_size max_chars)%Z ->
    exists pieces chunks,
      (forall fuel, (length text < fuel)%nat ->
                    chunk_text fuel text chunk_size max_chars = Some chunks)
      /\ concat pieces = text
      /\ chunks = filter nonempty (map strip pieces)
      /\ Forall (fun c => c <> []) chunks
      /\ remove_ws (concat chunks) = remove_ws text
      /\ Forall (fun c => (len c <= effective_size chunk_size max_chars)%Z)
                chunks
      /\ (text = [] -> chunks = []).
Proof.
  intros text chunk_size max_chars Hsize.
  set (size := effective_size chunk_size max_chars) in *.
  set (pieces := chunk_pieces (S (length text)) text size 0).
  assert (Hcat : concat pieces = text).
  { unfold pieces. rewrite chunk_pieces_concat; auto; unfold len; lia. }
  exists pieces, (filter nonempty (map strip pieces)).
  repeat split.
  - intros fuel Hf. now apply chunk_text_pieces.
  - exact Hcat.
  - apply nonempty_filter.
  - now rewrite remove_ws_concat_strip, Hcat.
  - apply Forall_len_strip, chunk_pieces_bounded; auto; lia.
  - intros ->. reflexivity.
Qed.

Lemma chunk_text_reconstructs_witness :
  (0 < effective_size 4 None)%Z
  /\ exists pieces chunks,
      (forall fuel, (length (lit "ab cd") < fuel)%nat ->
                    chunk_text fuel (lit "ab cd") 4 None = Some chunks)
      /\ concat pieces = lit "ab cd"
      /\ chunks = filter nonempty (map strip pieces)
      /\ Forall (fun c => c <> []) chunks
      /\ remove_ws (concat chunks) = remove_ws (lit "ab cd")
      /\ Forall (fun c => (len c <= effective_size 4 None)%Z) chunks
      /\ (lit "ab cd" = [] -> chunks = []).
Proof.
  split; [reflexivity|].
  apply (chunk_text_reconstructs (lit "ab cd") 4 None). reflexivity.
Defined.

(** C10. For every text and every effective chunk size above zero, every
    chunk the chunker returns has at most that many characters: a line
    longer than the size is cut inside the line. *)
Theorem chunk_text_bounded :
  forall (text : pystr) (chunk_size : Z) (max_chars : option Z) (fuel : nat),
    (0 < effective_size chunk_size max_chars)%Z ->
    (length text < fuel)%nat ->
    exists chunks,
      chunk_text fuel text chunk_size max_chars = Some chunks
      /\ Forall (fun c => (len c <= effective_size chunk_size max_chars)%Z)
                chunks.
Proof.
  intros text chunk_size max_chars fuel Hsize Hf.
  eexists; split; [now apply chunk_text_pieces|].
  apply Forall_len_strip, chunk_pieces_bounded; auto; lia.
Qed.

Lemma chunk_text_bounded_witness :
  (0 < effective_size 6000 (Some 3%Z))%Z
  /\ (length (lit "abcdefgh") < 9)%nat
  /\ exists chunks,
      chunk_text 9 (lit "abcdefgh") 6000 (Some 3%Z) = Some chunks
      /\ Forall (fun c => (len c <= effective_size 6000 (Some 3%Z))%Z) chunks.
Proof.
  split; [reflexivity|]. split; [simpl; lia|].
  apply (chunk_text_bounded (lit "abcdefgh") 6000 (Some 3%Z) (fuel:=9)).
  - reflexivity.
  - simpl; lia.
Defined.

(* ================================================================== *)
(** * ai_parser.py: numeric normalization                              *)
(* ================================================================== *)

Lemma pystr_eqb_eq (a b : pystr) : pystr_eqb a b = true <-> a = b.
Proof.
  revert b; induction a as [|x a IH]; intros [|y b]; simpl;
    try (split; [discriminate | congruence]); [tauto|].
  unfold char_eqb. rewrite andb_true_iff, N.eqb_eq, IH.
  split; [intros [-> ->]; reflexivity | intros H; injection H; auto].
Qed.

Lemma str_in_In (x : pystr) (l : list pystr) : str_in x l = true <-> In x l.
Proof.
  unfold str_in. rewrite existsb_exists. split.
  - intros (y & Hy & E). apply pystr_eqb_eq in E. now subst.
  - intros H. exists x. split; auto. now apply pystr_eqb_eq.
Qed.

Lemma lstrip_by_id (f : char -> bool) (s : pystr) :
  (forall c, In c s -> f c = false) -> lstrip_by f s = s.
Proof.
  destruct s as [|c s]; simpl; auto.
  intros H. now rewrite (H c (or_introl eq_refl)).
Qed.

Lemma lstrip_by_all (f : char -> bool) (l x : pystr) :
  forallb f l = true -> lstrip_by f (l ++ x) = lstrip_by f x.
Proof.
  induction l as [|c l IH]; simpl; auto.
  intros H. apply andb_true_iff in H as [-> Hl]. auto.
Qed.

(** Stripping a text that has none of the stripped characters inside, and
    only such characters around it, gives the text back. *)
Lemma strip_by_core (f : char -> bool) (l t r : pystr) :
  forallb f l = true -> forallb f r = true ->
  (forall c, In c t -> f c = false) ->
  strip_by f (l ++ t ++ r) = t.
Proof.
  intros Hl Hr Ht. unfold strip_by, rstrip_by.
  rewrite lstrip_by_all by exact Hl.
  assert (Hrev : forallb f (rev r) = true).
  { rewrite forallb_forall in *. intros c Hc. apply Hr, in_rev, Hc. }
  destruct t as [|c t].
  - simpl app. rewrite <- (app_nil_r r) at 1.
    rewrite lstrip_by_all by exact Hr. reflexivity.
  - assert (Hhead : lstrip_by f ((c :: t) ++ r) = (c :: t) ++ r)
      by (simpl; now rewrite (Ht c (or_introl eq_refl))).
    rewrite Hhead, rev_app_distr, lstrip_by_all by exact Hrev.
    rewrite lstrip_by_id; [apply rev_involutive|].
    intros x Hx. apply Ht, in_rev, Hx.
Qed.

Lemma strip_by_id (f : char -> bool) (t : pystr) :
  (forall c, In c t -> f c = false) -> strip_by f t = t.
Proof.
  intros H. rewrite <- (strip_by_core f [] t [] eq_refl eq_refl H) at 2.
  now rewrite app_nil_r.
Qed.

Lemma remove_all_absent (h : char) (old : pystr) (fuel : nat) :
  forall s, ~ In h s -> remove_all fuel (h :: old) s = s.
Proof.
  induction fuel as [|fuel IH]; intros s Hs; simpl; auto.
  destruct s as [|c s]; auto.
  assert (E : char_eqb h c = false).
  { apply N.eqb_neq. intros ->. apply Hs. now left. }
  simpl. rewrite E. simpl. f_equal. apply IH.
  intros Hin. apply Hs. now right.
Qed.

Lemma remove_all_char (c : char) (fuel : nat) : forall s,
  (length s <= fuel)%nat ->
  remove_all fuel [c] s = filter (fun x => negb (char_eqb c x)) s.
Proof.
  induction fuel as [|fuel IH]; intros [|x s] Hl; simpl in *; auto; try lia.
  destruct (char_eqb c x); simpl.
  - apply IH. lia.
  - f_equal. apply IH. lia.
Qed.

Lemma filter_id {A : Type} (f : A -> bool) (l : list A) :
  (forall x, In x l -> f x = true) -> filter f l = l.
Proof.
  induction l as [|x l IH]; simpl; auto.
  intros H. rewrite (H x (or_introl eq_refl)). f_equal. auto.
Qed.


Lemma plain_enum (c : char) : plain c = true -> In c plain_chars.
Proof.
  unfold plain, is_digit. intros H.
  assert (R : (c = 46 \/ 48 <= c <= 57)%N).
  { apply orb_true_iff in H as [H|H].
    - apply andb_true_iff in H as [H1 H2].
      apply N.leb_le in H1, H2. right; lia.
    - apply N.eqb_eq in H. now left. }
  assert (E : (c = 46 \/ c = 48 \/ c = 49 \/ c = 50 \/ c = 51 \/ c = 52
               \/ c = 53 \/ c = 54 \/ c = 55 \/ c = 56 \/ c = 57)%N) by lia.
  unfold plain_chars. simpl. intuition.
Qed.

(** What a plain character is not. *)
Lemma plain_not_special (c : char) :
  plain c = true ->
  py_isspace c = false /\ c <> 78%N /\ c <> NAIRA /\ c <> 40%N /\ c <> 41%N
  /\ negb ((c =? 35)%N || (c =? 44)%N || py_isspace c) = true
  /\ existsb (char_eqb c) (lit "()") = false
  /\ forall x, In x sentinels -> ~ In c x.
Proof.
  intros H. apply plain_enum in H. unfold plain_chars in H. simpl in H.
  assert (S : forall k, In k plain_chars ->
                        forall x, In x sentinels -> ~ In k x).
  { intros k Hk x Hx Hin.
    unfold sentinels, lit in Hx. simpl in Hx.
    unfold plain_chars in Hk. simpl in Hk.
    repeat (destruct Hx as [<-|Hx]; [simpl in Hin; intuition (subst; discriminate)|]).
    exact Hx. }
  repeat (destruct H as [<-|H];
          [repeat split; try reflexivity; try discriminate;
           apply S; unfold plain_chars; simpl; tauto|]).
  contradiction.
Qed.

(** A value that shows a digit or a point is not one of the sentinels. *)
Lemma plain_not_sentinel (v : pystr) (c : char) :
  In c v -> plain c = true -> str_in (strip v) sentinels = false.
Proof.
  intros Hin Hc.
  destruct (plain_not_special c Hc) as (Hsp & _ & _ & _ & _ & _ & _ & Hs).
  destruct (str_in (strip v) sentinels) eqn:E; auto.
  apply str_in_In in E. exfalso. apply (Hs _ E).
  assert (Hws : In c (remove_ws v)).
  { apply filter_In. split; auto. now rewrite Hsp. }
  rewrite <- remove_ws_strip in Hws. now apply filter_In in Hws.
Qed.


Lemma clean_num_signed (v : pystr) :
  str_in (strip v) sentinels = false ->
  _clean_num (Some v) = signed_value (strip_markers v).
Proof. intros H. unfold _clean_num, signed_value. now rewrite H. Qed.


Lemma numeral_app (a b : pystr) : numeral (a ++ b) -> numeral a /\ numeral b.
Proof.
  intros H. split; intros c Hc; apply H, in_or_app; auto.
Qed.

Lemma strip_chars_numeral (t : pystr) :
  numeral t -> strip_chars (lit "()") t = t.
Proof.
  intros H. apply strip_by_id. intros c Hc.
  now destruct (plain_not_special c (H c Hc)) as (_ & _ & _ & _ & _ & _ & E & _).
Qed.

Lemma sub_separators_numeral (t : pystr) : numeral t -> sub_separators t = t.
Proof.
  intros H. apply filter_id. intros c Hc.
  now destruct (plain_not_special c (H c Hc)) as (_ & _ & _ & _ & _ & E & _).
Qed.

Lemma numeral_no_char (t : pystr) (k : char) :
  numeral t -> plain k = false -> ~ In k t.
Proof. intros H Hk Hin. rewrite (H k Hin) in Hk. discriminate. Qed.

Lemma strip_markers_numeral (t : pystr) : numeral t -> strip_markers t = t.
Proof.
  intros H. unfold strip_markers, replace_empty.
  change (lit "NGN") with (78%N :: lit "GN").
  rewrite (@remove_all_absent 78%N) by (now apply numeral_no_char).
  rewrite remove_all_absent by (now apply numeral_no_char).
  now apply sub_separators_numeral.
Qed.

Lemma startswith_numeral (t : pystr) :
  numeral t -> startswith t (lit "(") = false.
Proof.
  destruct t as [|c t]; auto. intros H.
  destruct (plain_not_special c (H c (or_introl eq_refl)))
    as (_ & _ & _ & E & _).
  change (startswith (c :: t) (lit "(")) with (char_eqb 40%N c && true).
  unfold char_eqb.
  destruct (N.eqb_spec 40 c) as [<-|]; [congruence | reflexivity].
Qed.

Lemma signed_value_numeral (t : pystr) :
  numeral t -> signed_value t = float_or_zero t.
Proof.
  intros H. unfold signed_value, float_or_zero.
  rewrite strip_chars_numeral, startswith_numeral by exact H. reflexivity.
Qed.

(** On a plain numeral [_clean_num] is [float], with [0.0] for failure. *)
Lemma clean_num_numeral (t : pystr) :
  numeral t -> _clean_num (Some t) = float_or_zero t.
Proof.
  intros H. destruct t as [|c t]; [reflexivity|].
  rewrite clean_num_signed.
  - rewrite strip_markers_numeral by exact H. now apply signed_value_numeral.
  - apply plain_not_sentinel with (c := c); [now left | apply H; now left].
Qed.

Lemma clean_num_parenthesised (t : pystr) :
  numeral t ->
  _clean_num (Some (lit "(" ++ t ++ lit ")"))
  = float_neg (_clean_num (Some t)).
Proof.
  intros H. destruct t as [|c t]; [reflexivity|].
  rewrite (clean_num_numeral H).
  rewrite clean_num_signed.
  2:{ apply plain_not_sentinel with (c := c);
      [simpl; auto | apply H; now left]. }
  set (d := lit "(" ++ (c :: t) ++ lit ")").
  assert (Hd : forall x, In x d -> x = 40%N \/ x = 41%N \/ plain x = true).
  { unfold d. intros x Hx. apply in_app_or in Hx as [Hx|Hx].
    - simpl in Hx. intuition.
    - apply in_app_or in Hx as [Hx|Hx]; [auto|].
      simpl in Hx. intuition. }
  assert (Hm : strip_markers d = d).
  { unfold strip_markers, replace_empty.
    change (lit "NGN") with (78%N :: lit "GN").
    rewrite (@remove_all_absent 78%N).
    2:{ intros Hin. destruct (Hd _ Hin) as [E|[E|E]]; discriminate. }
    rewrite remove_all_absent.
    2:{ intros Hin. destruct (Hd _ Hin) as [E|[E|E]]; discriminate. }
    apply filter_id. intros x Hx.
    destruct (Hd _ Hx) as [->|[->|E]]; try reflexivity.
    now destruct (plain_not_special x E) as (_ & _ & _ & _ & _ & G & _). }
  rewrite Hm. unfold signed_value, float_or_zero.
  assert (Hs : strip_chars (lit "()") d = c :: t).
  { unfold d, strip_chars. apply strip_by_core; try reflexivity.
    intros x Hx.
    now destruct (plain_not_special x (H x Hx))
      as (_ & _ & _ & _ & _ & _ & E & _). }
  rewrite Hs.
  assert (Hb : startswith d (lit "(") && endswith d (lit ")") = true).
  { unfold d, endswith. rewrite !rev_app_distr. reflexivity. }
  rewrite Hb. destruct (py_float (c :: t)); reflexivity.
Qed.

Lemma clean_num_decorated (d t : pystr) :
  numeral t -> strip_markers d = t ->
  (exists c, In c d /\ plain c = true) ->
  _clean_num (Some d) = _clean_num (Some t).
Proof.
  intros H Hm (c & Hin & Hc).
  rewrite clean_num_signed by (now apply plain_not_sentinel with (c := c)).
  rewrite Hm, (clean_num_numeral H). now apply signed_value_numeral.
Qed.

Lemma numeral_has_plain (t : pystr) :
  numeral t -> t <> [] -> exists c, In c t /\ plain c = true.
Proof.
  destruct t as [|c t]; [congruence|].
  intros H _. exists c. split; [now left | apply H; now left].
Qed.

Lemma clean_num_separator (a b : pystr) (sep : char) :
  numeral (a ++ b) -> In sep [44%N; 32%N; 35%N] ->
  _clean_num (Some (a ++ [sep] ++ b)) = _clean_num (Some (a ++ b)).
Proof.
  intros H Hsep.
  destruct (numeral_app _ _ H) as [Ha Hb].
  destruct (list_eq_dec N.eq_dec (a ++ b) []) as [E|E].
  { apply app_eq_nil in E as [-> ->].
    simpl in Hsep. destruct Hsep as [<-|[<-|[<-|[]]]]; reflexivity. }
  apply clean_num_decorated; auto.
  - unfold strip_markers, replace_empty.
    assert (Hd : forall x, In x (a ++ [sep] ++ b) ->
                           x = sep \/ plain x = true).
    { intros x Hx. apply in_app_or in Hx as [Hx|Hx]; [auto|].
      destruct Hx as [<-|Hx]; auto. }
    assert (Hp : plain sep = false).
    { simpl in Hsep. destruct Hsep as [<-|[<-|[<-|[]]]]; reflexivity. }
    change (lit "NGN") with (78%N :: lit "GN").
    rewrite (@remove_all_absent 78%N).
    2:{ intros Hin. destruct (Hd _ Hin) as [<-|G]; [|discriminate].
        simpl in Hsep. destruct Hsep as [G|[G|[G|[]]]]; discriminate. }
    rewrite remove_all_absent.
    2:{ intros Hin. destruct (Hd _ Hin) as [<-|G]; [|discriminate].
        simpl in Hsep. destruct Hsep as [G|[G|[G|[]]]]; discriminate. }
    pose proof (sub_separators_numeral Ha) as Ea.
    pose proof (sub_separators_numeral Hb) as Eb.
    unfold sub_separators in *. rewrite !filter_app.
    transitivity (a ++ [] ++ b); [|reflexivity].
    f_equal; [exact Ea|]. f_equal; [|exact Eb].
    simpl in Hsep. destruct Hsep as [<-|[<-|[<-|[]]]]; reflexivity.
  - destruct (numeral_has_plain H E) as (c & Hin & Hc).
    exists c. split; auto.
    apply in_app_or in Hin as [Hin|Hin]; apply in_or_app; auto.
    right. now right.
Qed.

Lemma clean_num_naira (t : pystr) :
  numeral t -> _clean_num (Some (NAIRA :: t)) = _clean_num (Some t).
Proof.
  intros H. destruct t as [|c t]; [reflexivity|].
  apply clean_num_decorated; auto.
  - unfold strip_markers, replace_empty.
    change (lit "NGN") with (78%N :: lit "GN").
    rewrite (@remove_all_absent 78%N).
    2:{ intros [G|G]; [discriminate|].
        revert G. now apply numeral_no_char. }
    rewrite remove_all_char by (simpl; lia).
    change (filter (fun x => negb (char_eqb NAIRA x)) (NAIRA :: c :: t))
      with (filter (fun x => negb (char_eqb NAIRA x)) (c :: t)).
    rewrite filter_id; [now apply sub_separators_numeral|].
    intros x Hx. unfold char_eqb.
    destruct (N.eqb_spec NAIRA x) as [<-|]; auto.
    exfalso. revert Hx. now apply numeral_no_char.
  - exists c. split; [right; now left | apply H; now left].
Qed.

Lemma clean_num_ngn (t : pystr) :
  numeral t -> _clean_num (Some (lit "NGN" ++ t)) = _clean_num (Some t).
Proof.
  intros H. destruct t as [|c t]; [reflexivity|].
  apply clean_num_decorated; auto.
  - unfold strip_markers, replace_empty.
    change (remove_all (length (lit "NGN" ++ c :: t)) (lit "NGN")
                       (lit "NGN" ++ c :: t))
      with (remove_all (S (S (length (c :: t)))) (78%N :: lit "GN") (c :: t)).
    rewrite (@remove_all_absent 78%N) by (now apply numeral_no_char).
    rewrite remove_all_absent by (now apply numeral_no_char).
    now apply sub_separators_numeral.
  - exists c. split; [do 3 right; now left | apply H; now left].
Qed.

Lemma clean_num_unparseable (v : pystr) :
  py_float (strip_chars (lit "()") (strip_markers v)) = None ->
  _clean_num (Some v) = zero.
Proof.
  intros H. unfold _clean_num.
  destruct (str_in (strip v) sentinels); [reflexivity|].
  now rewrite H.
Qed.

Lemma strip_markers_chars (v : pystr) (c : char) :
  In c (strip_markers v) ->
  c <> 44%N /\ c <> 35%N /\ c <> NAIRA /\ py_isspace c = false.
Proof.
  unfold strip_markers, sub_separators, replace_empty. intros H.
  apply filter_In in H as [Hin Hc].
  rewrite remove_all_char in Hin by lia.
  apply filter_In in Hin as [_ Hn].
  apply negb_true_iff in Hc, Hn.
  apply orb_false_iff in Hc as [Hc Hsp].
  apply orb_false_iff in Hc as [H35 H44].
  apply N.eqb_neq in H35, H44. unfold char_eqb in Hn. apply N.eqb_neq in Hn.
  repeat split; auto.
Qed.


(* ================================================================== *)
(** * The texts [float] accepts                                        *)
(* ================================================================== *)

Lemma digit_enum (c : char) : is_digit c = true -> In c (lit "0123456789").
Proof.
  unfold is_digit. intros H. apply andb_true_iff in H as [H1 H2].
  apply N.leb_le in H1, H2.
  assert (E : (c = 48 \/ c = 49 \/ c = 50 \/ c = 51 \/ c = 52
               \/ c = 53 \/ c = 54 \/ c = 55 \/ c = 56 \/ c = 57)%N) by lia.
  simpl. intuition.
Qed.

Lemma float_char_In (c : char) : float_char c = true <-> In c float_chars.
Proof.
  unfold float_char. rewrite existsb_exists. split.
  - intros (x & Hx & E). apply N.eqb_eq in E. now subst.
  - intros H. exists c. split; [exact H | apply N.eqb_refl].
Qed.

Lemma float_char_digit (c : char) : is_digit c = true -> float_char c = true.
Proof.
  intros H. apply digit_enum in H. simpl in H.
  repeat (destruct H as [<-|H]; [reflexivity|]). contradiction.
Qed.

(** The digits a digit part reads are the head of the text. *)
Lemma digits_tail_split (n : nat) : forall (s : pystr) (ds : list Z) (r : pystr),
  (length s <= n)%nat -> digits_tail s = (ds, r) ->
  exists p, s = p ++ r /\ forall c, In c p -> float_char c = true.
Proof.
  induction n as [|n IH]; intros s ds r Hlen H.
  { destruct s; [|simpl in Hlen; lia]. simpl in H. injection H as _ <-.
    exists []. split; [reflexivity | intros c []]. }
  destruct s as [|c s'].
  { simpl in H. injection H as _ <-.
    exists []. split; [reflexivity | intros c []]. }
  cbn [digits_tail] in H. simpl in Hlen.
  destruct (is_digit c) eqn:Ec.
  - destruct (digits_tail s') as [ds' r'] eqn:Et. injection H as _ <-.
    destruct (IH s' ds' r') as (p & -> & Hp); [lia | exact Et |].
    exists (c :: p). split; [reflexivity|].
    intros x [<-|Hx]; [now apply float_char_digit | now apply Hp].
  - destruct (c =? 95)%N eqn:E95.
    2:{ injection H as _ <-. exists []. split; [reflexivity | intros x []]. }
    apply N.eqb_eq in E95. subst c.
    destruct s' as [|d s''].
    { injection H as _ <-. exists []. split; [reflexivity | intros x []]. }
    destruct (is_digit d) eqn:Ed.
    2:{ injection H as _ <-. exists []. split; [reflexivity | intros x []]. }
    destruct (digits_tail s'') as [ds' r'] eqn:Et. injection H as _ <-.
    simpl in Hlen.
    destruct (IH s'' ds' r') as (p & -> & Hp); [lia | exact Et |].
    exists (95%N :: d :: p). split; [reflexivity|].
    intros x [<-|[<-|Hx]];
      [reflexivity | now apply float_char_digit | now apply Hp].
Qed.

Lemma digitpart_split (s : pystr) (ds : list Z) (r : pystr) :
  digitpart s = (ds, r) ->
  exists p, s = p ++ r /\ forall c, In c p -> float_char c = true.
Proof.
  unfold digitpart. destruct s as [|c s'].
  { intros H. injection H as _ <-.
    exists []. split; [reflexivity | intros c []]. }
  destruct (is_digit c) eqn:Ec.
  - destruct (digits_tail s') as [ds' r'] eqn:Et. intros H.
    injection H as _ <-.
    destruct (@digits_tail_split (length s') s' ds' r' (le_n _) Et)
      as (p & -> & Hp).
    exists (c :: p). split; [reflexivity|].
    intros x [<-|Hx]; [now apply float_char_digit | now apply Hp].
  - intros H. injection H as _ <-.
    exists []. split; [reflexivity | intros x []].
Qed.

Lemma read_sign_split (s body : pystr) (neg : bool) :
  read_sign s = (neg, body) ->
  exists p, s = p ++ body /\ forall c, In c p -> float_char c = true.
Proof.
  unfold read_sign. destruct s as [|c s'].
  { intros H. injection H as _ <-.
    exists []. split; [reflexivity | intros c []]. }
  destruct (c =? 45)%N eqn:E1; [|destruct (c =? 43)%N eqn:E2];
    intros H; injection H as _ <-.
  - apply N.eqb_eq in E1. subst c. exists [45%N].
    split; [reflexivity | intros x [<-|[]]; reflexivity].
  - apply N.eqb_eq in E2. subst c. exists [43%N].
    split; [reflexivity | intros x [<-|[]]; reflexivity].
  - exists []. split; [reflexivity | intros x []].
Qed.

Lemma read_number_split (s : pystr) (ip fp : list Z) (rest : pystr) :
  read_number s = Some (ip, fp, rest) ->
  exists p, s = p ++ rest /\ forall c, In c p -> float_char c = true.
Proof.
  unfold read_number.
  destruct (digitpart s) as [ip0 r0] eqn:E0.
  destruct (digitpart_split s E0) as (p0 & -> & Hp0).
  destruct r0 as [|c r'].
  { destruct ip0; [discriminate|]. intros H. injection H as _ _ <-.
    exists p0. split; [reflexivity | exact Hp0]. }
  destruct (c =? 46)%N eqn:Ec.
  - apply N.eqb_eq in Ec. subst c.
    destruct (digitpart r') as [fp0 r''] eqn:E1.
    destruct (digitpart_split r' E1) as (p1 & -> & Hp1).
    intros H.
    assert (Hrest : rest = r'')
      by (destruct ip0, fp0; try discriminate; now injection H).
    subst rest. exists (p0 ++ 46%N :: p1).
    split; [now rewrite <- app_assoc|].
    intros x Hx. apply in_app_or in Hx as [Hx|[<-|Hx]];
      [now apply Hp0 | reflexivity | now apply Hp1].
  - destruct ip0; [discriminate|]. intros H. injection H as _ _ <-.
    exists p0. split; [reflexivity | exact Hp0].
Qed.

Lemma read_exponent_chars (s : pystr) (e : Z) :
  read_exponent s = Some e -> forall c, In c s -> float_char c = true.
Proof.
  unfold read_exponent. destruct s as [|c s']; [intros _ x []|].
  destruct ((c =? 101) || (c =? 69))%N eqn:Ec; [|discriminate].
  destruct (read_sign s') as [neg s''] eqn:Es.
  destruct (read_sign_split s' Es) as (p0 & -> & Hp0).
  destruct (digitpart s'') as [ds r] eqn:Ed.
  destruct (digitpart_split s'' Ed) as (p1 & -> & Hp1).
  destruct ds; [discriminate|]. destruct r; [|discriminate].
  intros _ x [<-|Hx].
  - apply orb_true_iff in Ec as [E|E]; apply N.eqb_eq in E; subst c;
      reflexivity.
  - apply in_app_or in Hx as [Hx|Hx]; [now apply Hp0|].
    rewrite app_nil_r in Hx. now apply Hp1.
Qed.

Lemma lower_letter_float (c x : char) :
  ascii_lower c = x -> In x (lit "infinitya") -> float_char c = true.
Proof.
  unfold ascii_lower. intros E Hin. simpl in Hin.
  destruct ((65 <=? c) && (c <=? 90))%N.
  - repeat (destruct Hin as [<-|Hin];
            [match goal with
             | G : (c + 32)%N = ?k |- _ =>
                 replace c with (k - 32)%N by lia; reflexivity
             end|]).
    contradiction.
  - subst x.
    repeat (destruct Hin as [<-|Hin]; [reflexivity|]). contradiction.
Qed.

Lemma ieq_chars (body : pystr) (w : String.string) :
  ieq body (lit w) = true ->
  In w ["inf"; "infinity"; "nan"]%string ->
  forall c, In c body -> float_char c = true.
Proof.
  unfold ieq. intros H Hw c Hc. apply pystr_eqb_eq in H.
  apply lower_letter_float with (x := ascii_lower c); [reflexivity|].
  assert (Hin : In (ascii_lower c) (lit w)).
  { rewrite <- H. now apply in_map. }
  simpl in Hw.
  destruct Hw as [<-|[<-|[<-|[]]]]; simpl in Hin; simpl; tauto.
Qed.

(** What the parser accepts is made of the characters of [float_chars]. *)
Lemma float_from_ascii_chars (u : pystr) (f : pyfloat) :
  float_from_ascii u = Some f -> forall c, In c u -> float_char c = true.
Proof.
  unfold float_from_ascii.
  destruct (read_sign u) as [neg body] eqn:Es.
  destruct (read_sign_split u Es) as (p0 & -> & Hp0).
  intros H c Hc. apply in_app_or in Hc as [Hc|Hc]; [now apply Hp0|].
  destruct (ieq body (lit "inf")) eqn:E1.
  { apply (@ieq_chars body "inf" E1); simpl; tauto. }
  destruct (ieq body (lit "infinity")) eqn:E2.
  { apply (@ieq_chars body "infinity" E2); simpl; tauto. }
  destruct (ieq body (lit "nan")) eqn:E3.
  { apply (@ieq_chars body "nan" E3); simpl; tauto. }
  cbn [orb] in H.
  destruct (read_number body) as [[[ip fp] rest]|] eqn:En; [|discriminate].
  destruct (read_number_split body En) as (p1 & -> & Hp1).
  destruct (read_exponent rest) as [e|] eqn:Ee; [|discriminate].
  apply in_app_or in Hc as [Hc|Hc]; [now apply Hp1|].
  now apply (read_exponent_chars rest Ee).
Qed.

(** ** The transformation to ASCII *)

Lemma to_ascii_number_cases (s : pystr) :
  (to_ascii_number s = map ascii_image s
   /\ forall c, In c s -> decodable c = true)
  \/ In 63%N (to_ascii_number s).
Proof.
  induction s as [|c s IH]; [left; split; [reflexivity | intros c []]|].
  cbn [to_ascii_number map]. unfold ascii_image at 1.
  assert (Hd : forall b, b = true ->
             (forall x, In x s -> decodable x = true) ->
             decodable c = b -> forall x, In x (c :: s) -> decodable x = true).
  { intros b -> Hs Hc x [<-|Hx]; auto. }
  destruct (c <? 127)%N eqn:E1.
  { destruct IH as [[-> Hs]|Hin]; [left | right; now right].
    split; [reflexivity|]. apply (Hd true eq_refl Hs).
    unfold decodable. now rewrite E1. }
  destruct (py_isspace c) eqn:E2.
  { destruct IH as [[-> Hs]|Hin]; [left | right; now right].
    split; [reflexivity|]. apply (Hd true eq_refl Hs).
    unfold decodable. now rewrite E1, E2. }
  destruct (py_todecimal c) as [d|] eqn:E3.
  { destruct IH as [[-> Hs]|Hin]; [left | right; now right].
    split; [reflexivity|]. apply (Hd true eq_refl Hs).
    unfold decodable. now rewrite E1, E2, E3. }
  right. now left.
Qed.

Lemma strip_by_keeps (f : char -> bool) (x : pystr) (c : char) :
  In c x -> f c = false -> In c (strip_by f x).
Proof.
  intros Hin Hc.
  destruct (strip_by_split f x) as (l & r & E & Hl & Hr).
  rewrite E in Hin. rewrite forallb_forall in Hl, Hr.
  apply in_app_or in Hin as [Hin|Hin]; [rewrite (Hl c Hin) in Hc; discriminate|].
  apply in_app_or in Hin as [Hin|Hin]; [exact Hin|].
  rewrite (Hr c Hin) in Hc. discriminate.
Qed.

Lemma strip_by_In (f : char -> bool) (x : pystr) (c : char) :
  In c (strip_by f x) -> In c x.
Proof.
  intros Hin.
  destruct (strip_by_split f x) as (l & r & E & _ & _).
  rewrite E. apply in_or_app. right. apply in_or_app. now left.
Qed.

Lemma float_char_solid (c : char) :
  float_char c = true ->
  c_isspace c = false /\ py_isspace c = false /\ marker_char c = false
  /\ c <> 40%N /\ c <> 41%N /\ c <> 71%N /\ (c <? 127)%N = true.
Proof.
  intros H. apply float_char_In in H. unfold float_chars in H. simpl in H.
  repeat (destruct H as [<-|H];
          [repeat split; try reflexivity; discriminate|]).
  contradiction.
Qed.

Lemma c_isspace_py (c : char) : c_isspace c = true -> py_isspace c = true.
Proof.
  unfold c_isspace, py_isspace. intros H.
  apply orb_true_iff in H as [H|H].
  - now rewrite H.
  - apply N.eqb_eq in H. subst c. reflexivity.
Qed.

Lemma c_isspace_high (x : N) : (48 <= x)%N -> c_isspace x = false.
Proof.
  intros H. unfold c_isspace.
  destruct (N.leb_spec x 13); [lia|]. rewrite andb_false_r. simpl.
  apply N.eqb_neq. lia.
Qed.

(** A character of an accepted text is either a blank for [float], and
    then whitespace, or it stands for a character of [float_chars], and
    then it is no marker, no parenthesis and no [G]. *)
Lemma image_cases (c : char) :
  decodable c = true ->
  c_isspace (ascii_image c) = true \/ float_char (ascii_image c) = true ->
  (c_isspace (ascii_image c) = true /\ py_isspace c = true
   /\ marker_char c = true)
  \/ (c_isspace (ascii_image c) = false /\ py_isspace c = false
      /\ marker_char c = false /\ float_char (ascii_image c) = true
      /\ c <> 40%N /\ c <> 41%N /\ c <> 71%N).
Proof.
  unfold ascii_image, decodable.
  destruct (c <? 127)%N eqn:E1.
  - intros _ [H|H].
    + left. pose proof (c_isspace_py c H) as Hpy.
      repeat split; auto. unfold marker_char. rewrite Hpy.
      now rewrite !orb_true_r.
    + right. destruct (float_char_solid c H) as (H1 & H2 & H3 & H4 & H5 & H6 & _).
      repeat split; auto.
  - apply N.ltb_ge in E1. destruct (py_isspace c) eqn:E2.
    + intros _ _. left. repeat split; auto.
      unfold marker_char. rewrite E2. now rewrite !orb_true_r.
    + destruct (py_todecimal c) as [d|] eqn:E3.
      * intros _ [H|H]; [rewrite c_isspace_high in H by lia; discriminate|].
        right. split; [apply c_isspace_high; lia|].
        split; [reflexivity|]. split.
        { unfold marker_char. rewrite E2.
          destruct (N.eqb_spec c 44); [lia|].
          destruct (N.eqb_spec c 35); [lia|].
          destruct (N.eqb_spec c NAIRA) as [->|]; [|reflexivity].
          vm_compute in E3. discriminate. }
        split; [exact H|]. repeat split; lia.
      * intros H. discriminate.
Qed.

Lemma map_filter_commute {A B : Type} (g : A -> B) (p : A -> bool)
      (q : B -> bool) (l : list A) :
  (forall x, In x l -> p x = q (g x)) ->
  map g (filter p l) = filter q (map g l).
Proof.
  induction l as [|x l IH]; intros H; [reflexivity|]. simpl.
  rewrite <- (H x (or_introl eq_refl)).
  destruct (p x); simpl; rewrite IH; auto; intros y Hy; apply H; now right.
Qed.

Lemma filter_false {A : Type} (f : A -> bool) (l : list A) :
  forallb (fun x => negb (f x)) l = true -> filter f l = [].
Proof.
  induction l as [|x l IH]; simpl; auto.
  intros H. apply andb_true_iff in H as [Hx Hl].
  apply negb_true_iff in Hx. rewrite Hx. auto.
Qed.

(** What [float] reads of an accepted text: its characters, blanks
    apart, each as its ASCII image. *)
Lemma accepted_text (s : pystr) (f : pyfloat) :
  py_float s = Some f ->
  (forall c, In c s -> decodable c = true)
  /\ (forall c, In c s ->
        c_isspace (ascii_image c) = true
        \/ float_char (ascii_image c) = true)
  /\ strip_by c_isspace (to_ascii_number s)
     = filter (fun c => negb (c_isspace c)) (map ascii_image s).
Proof.
  unfold py_float. intros H.
  pose proof (float_from_ascii_chars _ H) as Hu.
  destruct (to_ascii_number_cases s) as [[E Hd]|Hcut].
  2:{ exfalso. apply (strip_by_keeps c_isspace) in Hcut; [|reflexivity].
      specialize (Hu _ Hcut). discriminate. }
  split; [exact Hd|]. rewrite E in *. split.
  - intros c Hc.
    destruct (c_isspace (ascii_image c)) eqn:Ec; [now left | right].
    apply Hu, strip_by_keeps; [now apply in_map | exact Ec].
  - destruct (strip_by_split c_isspace (map ascii_image s))
      as (l & r & Es & Hl & Hr).
    rewrite Es at 2. rewrite !filter_app.
    rewrite (@filter_false _ (fun c => negb (c_isspace c)) l).
    2:{ rewrite forallb_forall in *. intros x Hx.
        now rewrite (Hl x Hx). }
    rewrite (@filter_false _ (fun c => negb (c_isspace c)) r).
    2:{ rewrite forallb_forall in *. intros x Hx.
        now rewrite (Hr x Hx). }
    rewrite app_nil_r. simpl. symmetry. apply filter_id.
    intros x Hx. specialize (Hu x Hx).
    now destruct (float_char_solid x Hu) as (-> & _).
Qed.

Lemma to_ascii_number_map (s : pystr) :
  (forall c, In c s -> decodable c = true) ->
  to_ascii_number s = map ascii_image s.
Proof.
  induction s as [|c s IH]; intros H; [reflexivity|].
  cbn [to_ascii_number map]. unfold ascii_image at 1.
  pose proof (H c (or_introl eq_refl)) as Hc. unfold decodable in Hc.
  rewrite IH by (intros x Hx; apply H; now right).
  destruct (c <? 127)%N; [reflexivity|].
  destruct (py_isspace c); [reflexivity|].
  destruct (py_todecimal c); [reflexivity | discriminate].
Qed.

(** Taking the markers out of an accepted text changes nothing for
    [float]: there are none but the whitespace around it. *)
Lemma py_float_without_markers (s : pystr) (f : pyfloat) :
  py_float s = Some f -> py_float (without_markers s) = Some f.
Proof.
  intros H. destruct (accepted_text s H) as (Hd & Himg & Eu).
  unfold py_float in *. rewrite Eu in H.
  assert (Hsub : forall c, In c (without_markers s) -> In c s).
  { intros c Hc. unfold without_markers in Hc.
    now apply filter_In in Hc. }
  rewrite to_ascii_number_map by (intros c Hc; apply Hd, Hsub, Hc).
  assert (E : map ascii_image (without_markers s)
              = filter (fun c => negb (c_isspace c)) (map ascii_image s)).
  { unfold without_markers. apply map_filter_commute.
    intros c Hc.
    destruct (image_cases c (Hd c Hc) (Himg c Hc))
      as [(-> & _ & ->)|(-> & _ & -> & _)]; reflexivity. }
  rewrite E. rewrite strip_by_id; [exact H|].
  intros c Hc. apply filter_In in Hc as [_ Hc].
  now apply negb_true_iff in Hc.
Qed.

(** An accepted text without whitespace is made of characters that stand
    for those of [float_chars]. *)
Lemma accepted_solid (s : pystr) (f : pyfloat) :
  py_float s = Some f ->
  (forall c, In c s -> py_isspace c = false) ->
  forall c, In c s -> c <> 40%N /\ c <> 41%N /\ c <> 71%N.
Proof.
  intros H Hws c Hc. destruct (accepted_text s H) as (Hd & Himg & _).
  destruct (image_cases c (Hd c Hc) (Himg c Hc))
    as [(_ & E & _)|(_ & _ & _ & _ & H1 & H2 & H3)]; [|auto].
  rewrite (Hws c Hc) in E. discriminate.
Qed.

Lemma accepted_no_G (s : pystr) (f : pyfloat) :
  py_float s = Some f -> ~ In 71%N s.
Proof.
  intros H Hin. destruct (accepted_text s H) as (Hd & Himg & _).
  destruct (image_cases 71%N (Hd _ Hin) (Himg _ Hin))
    as [(E & _)|(_ & _ & _ & _ & _ & _ & E)];
    [discriminate | congruence].
Qed.

Lemma py_float_nil : py_float [] = None.
Proof. reflexivity. Qed.

(** ** The markers *)

Lemma remove_all_no_occurrence (old : pystr) (fuel : nat) : forall s,
  occurs s old = false -> remove_all fuel old s = s.
Proof.
  induction fuel as [|fuel IH]; intros s H; [reflexivity|].
  destruct s as [|c s]; [reflexivity|].
  cbn [remove_all]. cbn [occurs] in H.
  apply orb_false_iff in H as [H1 H2]. rewrite H1. f_equal. now apply IH.
Qed.

Lemma no_G_no_NGN (s : pystr) : ~ In 71%N s -> occurs s (lit "NGN") = false.
Proof.
  induction s as [|c s IH]; intros H; [reflexivity|].
  cbn [occurs]. rewrite IH by (intros Hin; apply H; now right).
  rewrite orb_false_r.
  destruct s as [|g s]; [simpl; now rewrite andb_false_r|].
  change (startswith (c :: g :: s) (lit "NGN"))
    with (char_eqb 78 c && (char_eqb 71 g && startswith s (lit "N"))).
  unfold char_eqb at 2.
  destruct (N.eqb_spec 71 g) as [<-|]; [|now rewrite andb_false_r].
  exfalso. apply H. right. now left.
Qed.

Lemma filters_without_markers (v : pystr) :
  sub_separators (filter (fun x => negb (char_eqb NAIRA x)) v)
  = without_markers v.
Proof.
  unfold sub_separators, without_markers, marker_char.
  induction v as [|c v IH]; [reflexivity|]. cbn [filter].
  unfold char_eqb at 1. rewrite (N.eqb_sym NAIRA c).
  destruct (c =? NAIRA)%N; cbn [negb].
  - rewrite !orb_true_r. cbn [negb]. exact IH.
  - cbn [filter]. rewrite orb_false_r.
    destruct (c =? 35)%N, (c =? 44)%N, (py_isspace c); cbn [orb negb];
      rewrite IH; reflexivity.
Qed.

Lemma strip_markers_without (v : pystr) :
  occurs v (lit "NGN") = false -> strip_markers v = without_markers v.
Proof.
  intros H. unfold strip_markers, replace_empty.
  rewrite (@remove_all_no_occurrence (lit "NGN") (length v) v H).
  rewrite remove_all_char by lia.
  apply filters_without_markers.
Qed.

Lemma remove_all_skip (h : char) (old a : pystr) : forall (fuel : nat) (s : pystr),
  ~ In h a ->
  remove_all (length a + fuel) (h :: old) (a ++ s)
  = a ++ remove_all fuel (h :: old) s.
Proof.
  induction a as [|c a IH]; intros fuel s H; [reflexivity|].
  cbn [length Nat.add app remove_all].
  assert (E : startswith (c :: a ++ s) (h :: old) = false).
  { cbn [startswith]. unfold char_eqb.
    destruct (N.eqb_spec h c) as [->|]; [|reflexivity].
    exfalso. apply H. now left. }
  rewrite E. f_equal. apply IH. intros Hin. apply H. now right.
Qed.

Lemma remove_all_fuel (old : pystr) : forall (f1 f2 : nat) (s : pystr),
  old <> [] -> (length s <= f1)%nat -> (length s <= f2)%nat ->
  remove_all f1 old s = remove_all f2 old s.
Proof.
  induction f1 as [|f1 IH]; intros f2 s Ho H1 H2.
  { destruct s; [|simpl in H1; lia]. now destruct f2. }
  destruct f2 as [|f2].
  { destruct s; [reflexivity | simpl in H2; lia]. }
  destruct s as [|c s]; [reflexivity|].
  cbn [remove_all]. simpl in H1, H2.
  destruct (startswith (c :: s) old).
  - assert (L : (length (skipn (length old) (c :: s)) <= length s)%nat).
    { destruct old as [|o old]; [congruence|].
      cbn [length skipn]. rewrite length_skipn. lia. }
    apply IH; auto; lia.
  - f_equal. apply IH; auto; lia.
Qed.

Lemma replace_ngn (a b : pystr) :
  ~ In 78%N a ->
  replace_empty (a ++ lit "NGN" ++ b) (lit "NGN")
  = replace_empty (a ++ b) (lit "NGN").
Proof.
  intros H. unfold replace_empty. rewrite !length_app.
  transitivity (a ++ remove_all (length (lit "NGN" ++ b)) (lit "NGN")
                                (lit "NGN" ++ b)).
  { exact (@remove_all_skip 78%N (lit "GN") a _ _ H). }
  transitivity (a ++ remove_all (length b) (lit "NGN") b).
  2:{ symmetry. exact (@remove_all_skip 78%N (lit "GN") a _ _ H). }
  f_equal.
  change (remove_all (length (lit "NGN" ++ b)) (lit "NGN") (lit "NGN" ++ b))
    with (remove_all (2 + length b) (lit "NGN") b).
  apply remove_all_fuel; [discriminate | lia | lia].
Qed.

(** The letters [NGN] are taken out wherever they stand after a text
    without [N]. *)
Lemma strip_markers_ngn (a b : pystr) :
  ~ In 78%N a ->
  strip_markers (a ++ lit "NGN" ++ b) = strip_markers (a ++ b).
Proof.
  intros H. unfold strip_markers.
  apply (f_equal sub_separators).
  apply (f_equal (fun x => replace_empty x [NAIRA])).
  now apply replace_ngn.
Qed.

Lemma remove_all_In (old : pystr) (fuel : nat) : forall (s : pystr) (c : char),
  In c (remove_all fuel old s) -> In c s.
Proof.
  induction fuel as [|fuel IH]; intros s c H; [exact H|].
  destruct s as [|x s]; [exact H|]. cbn [remove_all] in H.
  destruct (startswith (x :: s) old).
  - apply IH in H.
    rewrite <- (firstn_skipn (length old) (x :: s)).
    apply in_or_app. now right.
  - destruct H as [<-|H]; [now left | right; now apply IH].
Qed.

Lemma strip_markers_In (v : pystr) (c : char) :
  In c (strip_markers v) -> In c v.
Proof.
  unfold strip_markers, sub_separators, replace_empty. intros H.
  apply filter_In in H as [H _].
  apply remove_all_In in H. now apply remove_all_In in H.
Qed.

(** A value that shows a character no sentinel has is no sentinel. *)
Lemma char_not_sentinel (v : pystr) (c : char) :
  In c v -> py_isspace c = false ->
  (forall x, In x sentinels -> ~ In c x) ->
  str_in (strip v) sentinels = false.
Proof.
  intros Hin Hsp Hs.
  destruct (str_in (strip v) sentinels) eqn:E; auto.
  apply str_in_In in E. exfalso. apply (Hs _ E).
  now apply strip_by_keeps.
Qed.

(** ** [_clean_num] on what [float] accepts *)

Lemma solid_unparenthesised (s : pystr) :
  (forall c, In c s -> c <> 40%N /\ c <> 41%N /\ c <> 71%N) ->
  strip_chars (lit "()") s = s /\ startswith s (lit "(") = false.
Proof.
  intros H. split.
  - apply strip_by_id. intros c Hc.
    destruct (H c Hc) as (H1 & H2 & _). simpl. unfold char_eqb.
    destruct (N.eqb_spec c 40); [congruence|].
    destruct (N.eqb_spec c 41); [congruence | reflexivity].
  - destruct s as [|c s]; [reflexivity|].
    destruct (H c (or_introl eq_refl)) as (H1 & _).
    change (startswith (c :: s) (lit "(")) with (char_eqb 40%N c && true).
    unfold char_eqb.
    destruct (N.eqb_spec 40 c); [congruence | reflexivity].
Qed.

(** The markers stripped, a text [float] accepts is returned as that
    float. *)
Lemma clean_num_markers (v : pystr) (f : pyfloat) :
  ~ In (strip v) sentinels ->
  py_float (strip_markers v) = Some f ->
  _clean_num (Some v) = f.
Proof.
  intros Hs H.
  rewrite clean_num_signed.
  2:{ destruct (str_in (strip v) sentinels) eqn:E; auto.
      apply str_in_In in E. contradiction. }
  assert (Hsolid : forall c, In c (strip_markers v) ->
                             c <> 40%N /\ c <> 41%N /\ c <> 71%N).
  { apply (accepted_solid _ H). intros c Hc.
    now destruct (strip_markers_chars v c Hc) as (_ & _ & _ & E). }
  destruct (solid_unparenthesised _ Hsolid) as [E1 E2].
  unfold signed_value. now rewrite E1, H, E2.
Qed.

(** A text [float] accepts, the sentinel [nan] apart, is returned as that
    float. *)
Lemma clean_num_accepted (t : pystr) (f : pyfloat) :
  py_float t = Some f -> ~ In (strip t) sentinels ->
  _clean_num (Some t) = f.
Proof.
  intros H Hs. apply clean_num_markers; [exact Hs|].
  rewrite strip_markers_without
    by (apply no_G_no_NGN; exact (accepted_no_G t H)).
  now apply py_float_without_markers.
Qed.

(** A text that is, the markers stripped, an accepted text between
    parentheses gives the negation of its float. *)
Lemma clean_num_negated (v t : pystr) (f : pyfloat) :
  strip_markers v = lit "(" ++ t ++ lit ")" ->
  py_float t = Some f ->
  _clean_num (Some v) = float_neg f.
Proof.
  intros E H.
  assert (Hin : forall c, In c (lit "(" ++ t ++ lit ")") ->
                          In c (strip_markers v)) by (now rewrite E).
  rewrite clean_num_signed.
  2:{ apply char_not_sentinel with (c := 40%N).
      - apply strip_markers_In, Hin. apply in_or_app. left. now left.
      - reflexivity.
      - intros x Hx Hc. unfold sentinels in Hx. simpl in Hx.
        repeat (destruct Hx as [<-|Hx];
                [simpl in Hc; intuition discriminate|]).
        exact Hx. }
  assert (Hsolid : forall c, In c t -> c <> 40%N /\ c <> 41%N /\ c <> 71%N).
  { apply (accepted_solid _ H). intros c Hc.
    assert (Hc' : In c (strip_markers v)).
    { apply Hin. apply in_or_app. right. apply in_or_app. now left. }
    now destruct (strip_markers_chars v c Hc') as (_ & _ & _ & G). }
  rewrite E. unfold signed_value.
  assert (Hstrip : strip_chars (lit "()") (lit "(" ++ t ++ lit ")") = t).
  { unfold strip_chars. apply strip_by_core; try reflexivity.
    intros c Hc. destruct (Hsolid c Hc) as (H1 & H2 & _).
    simpl. unfold char_eqb.
    destruct (N.eqb_spec c 40); [congruence|].
    destruct (N.eqb_spec c 41); [congruence | reflexivity]. }
  assert (Hb : startswith (lit "(" ++ t ++ lit ")") (lit "(")
               && endswith (lit "(" ++ t ++ lit ")") (lit ")") = true).
  { unfold endswith. rewrite !rev_app_distr. reflexivity. }
  now rewrite Hstrip, H, Hb.
Qed.

(** The letters [NGN] after a text without [N] change nothing. *)
Lemma clean_num_ngn_anywhere (a b : pystr) :
  ~ In 78%N a -> ~ In (strip (a ++ b)) sentinels ->
  _clean_num (Some (a ++ lit "NGN" ++ b)) = _clean_num (Some (a ++ b)).
Proof.
  intros Ha Hs.
  rewrite !clean_num_signed.
  - now rewrite strip_markers_ngn.
  - destruct (str_in (strip (a ++ b)) sentinels) eqn:E; auto.
    apply str_in_In in E. contradiction.
  - apply char_not_sentinel with (c := 71%N).
    + apply in_or_app. right. simpl. tauto.
    + reflexivity.
    + intros x Hx Hc. unfold sentinels in Hx. simpl in Hx.
      repeat (destruct Hx as [<-|Hx];
              [simpl in Hc; intuition discriminate|]).
      exact Hx.
Qed.

(** The same two, with the text parsed written as the value without its
    markers. *)
Lemma clean_num_without_markers (v : pystr) (f : pyfloat) :
  occurs v (lit "NGN") = false -> ~ In (strip v) sentinels ->
  py_float (without_markers v) = Some f ->
  _clean_num (Some v) = f.
Proof.
  intros Hn Hs H. apply clean_num_markers; [exact Hs|].
  now rewrite strip_markers_without.
Qed.

Lemma clean_num_without_markers_negated (v t : pystr) (f : pyfloat) :
  occurs v (lit "NGN") = false ->
  without_markers v = lit "(" ++ t ++ lit ")" ->
  py_float t = Some f ->
  _clean_num (Some v) = float_neg f.
Proof.
  intros Hn E H. apply clean_num_negated with (t := t); [|exact H].
  now rewrite strip_markers_without.
Qed.

(** C2 (as the code has it).  [_clean_num] is total, so it never raises.
    It answers [0.0] for [None] and for every value whose stripped text is
    exactly one of the six sentinels.  The text it parses holds no [,], no
    [#], no naira sign and no whitespace: it is the value without these
    characters, wherever and however often they stand, when the letters
    [NGN] do not occur in it, and the letters [NGN] are taken out where
    they follow a text without [N].  A text [float] accepts, the
    sentinel [nan] apart, is returned as that float, digits of other
    scripts included; so is a value that [float] accepts once the markers
    are out; a value that is, the markers out, an accepted text between
    parentheses gives the negation of its float; whatever [float] rejects
    becomes [0.0]; [inf] and a number too large for a float give
    infinity.  On a plain numeral [t] (digits and the point) a
    thousands separator, an inner blank, a [#], a leading [NGN] or naira
    sign change nothing and [(t)] is the negation of [t]; and the four
    examples of the specification come out as stated, each as the
    binary64 value nearest to the decimal. *)
Theorem clean_num_normalizes :
  _clean_num None = zero
  /\ (forall v, In (strip v) sentinels -> _clean_num (Some v) = zero)
  /\ (forall v c, In c (strip_markers v) ->
                  c <> 44%N /\ c <> 35%N /\ c <> NAIRA /\ py_isspace c = false)
  /\ (forall v, occurs v (lit "NGN") = false ->
                strip_markers v = without_markers v)
  /\ (forall a b, ~ In 78%N a ->
         strip_markers (a ++ lit "NGN" ++ b) = strip_markers (a ++ b))
  /\ (forall t f, py_float t = Some f -> ~ In (strip t) sentinels ->
                  _clean_num (Some t) = f)
  /\ (forall v f, ~ In (strip v) sentinels ->
                  py_float (strip_markers v) = Some f ->
                  _clean_num (Some v) = f)
  /\ (forall v t f, strip_markers v = lit "(" ++ t ++ lit ")" ->
                    py_float t = Some f ->
                    _clean_num (Some v) = float_neg f)
  /\ (forall v, py_float (strip_chars (lit "()") (strip_markers v)) = None ->
                _clean_num (Some v) = zero)
  /\ (forall v f, occurs v (lit "NGN") = false ->
                  ~ In (strip v) sentinels ->
                  py_float (without_markers v) = Some f ->
                  _clean_num (Some v) = f)
  /\ (forall v t f, occurs v (lit "NGN") = false ->
                    without_markers v = lit "(" ++ t ++ lit ")" ->
                    py_float t = Some f ->
                    _clean_num (Some v) = float_neg f)
  /\ (forall a b sep, numeral (a ++ b) -> In sep [44%N; 32%N; 35%N] ->
         _clean_num (Some (a ++ [sep] ++ b)) = _clean_num (Some (a ++ b)))
  /\ (forall t, numeral t ->
         _clean_num (Some (NAIRA :: t)) = _clean_num (Some t)
         /\ _clean_num (Some (lit "NGN" ++ t)) = _clean_num (Some t)
         /\ _clean_num (Some (lit "(" ++ t ++ lit ")"))
            = float_neg (_clean_num (Some t)))
  /\ _clean_num (Some (lit "7,037.31")) = binary64 (703731 # 100)
  /\ _clean_num (Some (lit "(500.00)")) = Fin (- 500 # 1)
  /\ _clean_num (Some (lit "N/A")) = zero
  /\ _clean_num (Some (lit "")) = zero
  /\ _clean_num (Some (NAIRA :: lit "330,000.00")) = Fin (330000 # 1)
  /\ _clean_num (Some [1633; 1634; 1635]%N) = Fin (123 # 1)
  /\ _clean_num (Some (lit "inf")) = Inf false
  /\ _clean_num (Some (lit "1e400")) = Inf false.
Proof.
  split; [reflexivity|].
  split; [intros v Hv; unfold _clean_num;
          now rewrite (proj2 (str_in_In _ _) Hv)|].
  split; [exact strip_markers_chars|].
  split; [exact strip_markers_without|].
  split; [exact strip_markers_ngn|].
  split; [exact clean_num_accepted|].
  split; [exact clean_num_markers|].
  split; [exact clean_num_negated|].
  split; [exact clean_num_unparseable|].
  split; [exact clean_num_without_markers|].
  split; [exact clean_num_without_markers_negated|].
  split; [exact clean_num_separator|].
  split; [intros t Ht; repeat split;
          [now apply clean_num_naira | now apply clean_num_ngn
           | now apply clean_num_parenthesised]|].
  repeat split; vm_compute; reflexivity.
Qed.

Lemma clean_num_normalizes_witness :
  strip_markers (lit "(" ++ NAIRA :: lit "1,500.25 )")
  = lit "(" ++ lit "1500.25" ++ lit ")"
  /\ py_float (lit "1500.25") = Some (binary64 (150025 # 100))
  /\ _clean_num (Some (lit "(" ++ NAIRA :: lit "1,500.25 )"))
     = float_neg (binary64 (150025 # 100)).
Proof.
  assert (E : strip_markers (lit "(" ++ NAIRA :: lit "1,500.25 )")
              = lit "(" ++ lit "1500.25" ++ lit ")")
    by (vm_compute; reflexivity).
  assert (F : py_float (lit "1500.25") = Some (binary64 (150025 # 100)))
    by (vm_compute; reflexivity).
  split; [exact E|]. split; [exact F|].
  destruct clean_num_normalizes as (_ & _ & _ & _ & _ & _ & _ & Hneg & _).
  exact (Hneg _ _ _ E F).
Defined.

(** C2, as the specification words it, fails: the sentinels are compared
    exactly, and a spelling of [nan] in another case reaches [float],
    which accepts it. *)
Lemma clean_num_sentinel_case_counterexample :
  ~ (forall v, In (map ascii_lower (strip v)) (map (map ascii_lower) sentinels) ->
               float_eqb (_clean_num (Some v)) zero = true).
Proof.
  intros H. specialize (H (lit "NaN")).
  assert (Hin : In (map ascii_lower (strip (lit "NaN")))
                   (map (map ascii_lower) sentinels))
    by (vm_compute; tauto).
  specialize (H Hin). vm_compute in H. discriminate.
Qed.

(* ================================================================== *)
(** * ai_parser.py: the salvage cascade                                *)
(* ================================================================== *)


Lemma lstrip_by_idem (f : char -> bool) (s : pystr) :
  lstrip_by f (lstrip_by f s) = lstrip_by f s.
Proof.
  induction s as [|c s IH]; simpl; auto.
  destruct (f c) eqn:E; auto. simpl. now rewrite E.
Qed.

Lemma rstrip_keeps_head (f : char -> bool) (y : pystr) :
  lstrip_by f y = y -> lstrip_by f (rstrip_by f y) = rstrip_by f y.
Proof.
  intros Hy. unfold rstrip_by.
  destruct (lstrip_by_split f (rev y)) as (l & Hl & Hall).
  destruct (rev (lstrip_by f (rev y))) as [|c w] eqn:Ez; [reflexivity|].
  assert (Ey : y = (c :: w) ++ rev l).
  { rewrite <- Ez, <- rev_app_distr, <- Hl. symmetry. apply rev_involutive. }
  simpl. destruct (f c) eqn:Ec; [|reflexivity].
  exfalso. rewrite Ey in Hy. simpl in Hy. rewrite Ec in Hy.
  pose proof (length_lstrip_by f (w ++ rev l)) as Hlen.
  rewrite Hy in Hlen. simpl in Hlen. lia.
Qed.

Lemma strip_by_idem (f : char -> bool) (s : pystr) :
  strip_by f (strip_by f s) = strip_by f s.
Proof.
  unfold strip_by.
  rewrite (rstrip_keeps_head f (y := lstrip_by f s)) by apply lstrip_by_idem.
  unfold rstrip_by.
  now rewrite rev_involutive, lstrip_by_idem.
Qed.

Lemma strip_idem (s : pystr) : strip (strip s) = strip s.
Proof. apply strip_by_idem. Qed.

(** ** The last occurrence of a substring *)


Lemma occurs_skipn (sub : pystr) : forall (s : pystr) (i : nat),
  occurs s sub = false -> startswith (skipn i s) sub = false.
Proof.
  intros s i; revert s.
  induction i as [|i IH]; intros s H.
  - destruct s; simpl in H; apply orb_false_iff in H as [H _]; exact H.
  - destruct s as [|c s]; simpl.
    + simpl in H. apply orb_false_iff in H as [H _]. exact H.
    + apply IH. simpl in H. apply orb_false_iff in H as [_ H]. exact H.
Qed.

Lemma startswith_app (sub tail : pystr) : startswith (sub ++ tail) sub = true.
Proof.
  induction sub as [|c sub IH]; simpl; auto.
  unfold char_eqb. now rewrite N.eqb_refl.
Qed.

Lemma rfind_from_last (sub s : pystr) (p : nat) : forall k : nat,
  (p < k)%nat ->
  startswith (skipn p s) sub = true ->
  (forall i, (p < i < k)%nat -> startswith (skipn i s) sub = false) ->
  rfind_from sub s 0 k = Z.of_nat p.
Proof.
  induction k as [|k IH]; intros Hk Hp Hlater; [lia|].
  simpl. rewrite Nat2Z.id.
  destruct (Nat.eq_dec k p) as [->|Hne].
  - now rewrite Hp.
  - rewrite Hlater by lia. apply IH; auto; try lia.
    intros i Hi. apply Hlater. lia.
Qed.

(** [rfind] answers the place of the occurrence after which there is none. *)
Lemma rfind_all_last (pre sub tail : pystr) (c : char) (sub' : pystr) :
  sub = c :: sub' ->
  occurs (sub' ++ tail) sub = false ->
  rfind_all (pre ++ sub ++ tail) sub = len pre.
Proof.
  intros Hsub Hocc. unfold rfind_all, rfind.
  set (s := pre ++ sub ++ tail).
  assert (Hlen : length s = (length pre + length sub + length tail)%nat)
    by (unfold s; rewrite !length_app; lia).
  assert (Hpos : (0 < length sub)%nat) by (subst sub; simpl; lia).
  rewrite clamp_index_id by (unfold len; lia).
  rewrite clamp_index_id by (unfold len; lia).
  destruct (len s - 0 <? len sub)%Z eqn:E;
    [apply Z.ltb_lt in E; unfold len in *; lia|].
  apply rfind_from_last.
  - unfold len. lia.
  - unfold s. rewrite skipn_app, skipn_all, Nat.sub_diag. simpl.
    apply startswith_app.
  - intros i Hi.
    replace i with (S (i - S (length pre)) + length pre)%nat by lia.
    rewrite <- skipn_skipn. unfold s.
    rewrite skipn_app, skipn_all, Nat.sub_diag. simpl skipn at 2.
    rewrite app_nil_l. subst sub.
    change (skipn (S (i - S (length pre))) ((c :: sub') ++ tail))
      with (skipn (i - S (length pre)) (sub' ++ tail)).
    now apply occurs_skipn.
Qed.

Lemma slice_to_app (a b : pystr) : slice_to (a ++ b) (len a) = a.
Proof.
  unfold slice_to, slice.
  rewrite clamp_index_id by (unfold len; rewrite length_app; lia).
  rewrite clamp_index_id by (unfold len; rewrite length_app; lia).
  simpl. rewrite Z.sub_0_r. unfold len. rewrite Nat2Z.id.
  rewrite firstn_app, firstn_all, Nat.sub_diag. simpl. apply app_nil_r.
Qed.

Section SalvageFacts.

Variable json_loads : pystr -> option json.

(** Every strategy but the [transactions] one hands back a list. *)
Lemma extract_json_list_or_transactions (raw : pystr) :
  is_list (_extract_json json_loads raw) = true
  \/ exists text d,
      (text = raw \/ text = fence_stripped raw)
      /\ json_loads text = Some (JDict d)
      /\ dict_get (lit "transactions") d
         = Some (_extract_json json_loads raw).
Proof.
  unfold _extract_json.
  assert (D : forall text v,
             strategy_direct json_loads text = Some v ->
             is_list v = true
             \/ exists d, json_loads text = Some (JDict d)
                          /\ dict_get (lit "transactions") d = Some v).
  { unfold strategy_direct. intros text v H.
    destruct (json_loads text) as [obj|]; [|discriminate].
    destruct obj; simpl in H; try discriminate.
    - injection H as <-. now left.
    - right. eauto. }
  assert (L : forall o v, option_bind o accept_list = Some v ->
                          is_list v = true).
  { intros [obj|] v H; [|discriminate].
    destruct obj; simpl in H; try discriminate.
    now injection H as <-. }
  destruct (strategy_direct json_loads raw) as [v|] eqn:E1.
  { destruct (D _ _ E1) as [H|(d & H1 & H2)]; [now left|].
    right. exists raw, d. auto. }
  destruct (strategy_direct json_loads (fence_stripped raw)) as [v|] eqn:E2.
  { destruct (D _ _ E2) as [H|(d & H1 & H2)]; [now left|].
    right. exists (fence_stripped raw), d. auto. }
  left.
  destruct (strategy_block json_loads (fence_stripped raw)) as [v|] eqn:E3.
  { unfold strategy_block in E3.
    destruct (search_bracket_block _); [|discriminate]. eapply L, E3. }
  destruct (strategy_truncated json_loads (fence_stripped raw))
    as [v|] eqn:E4; [|reflexivity].
  unfold strategy_truncated in E4.
  destruct (_ && _); [|discriminate]. eapply L, E4.
Qed.

Lemma truncation_repair_boundary (body tail : pystr) :
  occurs (lit "," ++ tail) (lit "},") = false ->
  truncation_repair (lit "[" ++ body ++ lit "}," ++ tail)
  = lit "[" ++ body ++ lit "}" ++ lit "
]".
Proof.
  intros Hocc. unfold truncation_repair.
  replace (lit "[" ++ body ++ lit "}," ++ tail)
    with ((lit "[" ++ body) ++ lit "}," ++ tail)
    by (now rewrite <- app_assoc).
  rewrite (@rfind_all_last (lit "[" ++ body) (lit "},") tail
                           125%N (lit ",") eq_refl Hocc).
  assert (Hne : (len (lit "[" ++ body) =? -1)%Z = false)
    by (apply Z.eqb_neq; unfold len; lia).
  rewrite Hne. simpl negb. cbv iota.
  replace ((lit "[" ++ body) ++ lit "}," ++ tail)
    with (((lit "[" ++ body) ++ lit "}") ++ lit "," ++ tail)
    by (now rewrite <- !app_assoc).
  replace (len (lit "[" ++ body) + 1)%Z
    with (len ((lit "[" ++ body) ++ lit "}"))
    by (unfold len; rewrite !length_app; simpl; lia).
  rewrite slice_to_app. now rewrite <- !app_assoc.
Qed.

End SalvageFacts.

(** C1, at the input where the code leaves it: a mapping whose
    [transactions] entry is not a list is answered with that entry, here
    the integer 5, although every other path of [_extract_json] checks
    for a list before it returns. *)
Theorem extract_json_returns_non_list :
  _extract_json py_json_loads (lit "{" ++ quoted "transactions" ++ lit ": 5}")
  = JInt 5
  /\ is_list (JInt 5) = false.
Proof. split; vm_compute; reflexivity. Qed.

Lemma startswith_app_l (x y p : pystr) :
  startswith x p = true -> startswith (x ++ y) p = true.
Proof.
  revert x. induction p as [|c p IH]; intros [|a x]; simpl; auto;
    try discriminate.
  intros H. apply andb_true_iff in H as [-> H]. simpl. auto.
Qed.

Lemma endswith_app (a b p : pystr) :
  endswith b p = true -> endswith (a ++ b) p = true.
Proof.
  unfold endswith. rewrite rev_app_distr. apply startswith_app_l.
Qed.

Lemma endswith_char (s : pystr) (c : char) :
  endswith s [c] = true -> exists body, s = body ++ [c].
Proof.
  unfold endswith. simpl rev. intros H.
  destruct (rev s) as [|x r] eqn:E; [discriminate|].
  simpl in H. apply andb_true_iff in H as [H _].
  apply N.eqb_eq in H. subst x.
  exists (rev r). rewrite <- (rev_involutive s), E. reflexivity.
Qed.

(** A joined list of texts ends as its last text ends. *)
Lemma join_endswith (sep p : pystr) (texts : list pystr) :
  texts <> [] -> Forall (fun t => endswith t p = true) texts ->
  endswith (join sep texts) p = true.
Proof.
  induction texts as [|t texts IH]; [congruence|].
  intros _ Hall. inversion Hall as [|? ? Ht Hrest]; subst.
  destruct texts as [|u texts]; [exact Ht|].
  change (join sep (t :: u :: texts))
    with (t ++ sep ++ join sep (u :: texts)).
  apply endswith_app, endswith_app, IH; [discriminate | exact Hrest].
Qed.

Section Truncation.

Variable json_loads : pystr -> option json.

(** Strategy 4 on a text whose last [},] is known. *)
Lemma strategy_truncated_boundary (raw body tail : pystr) (objs : list json) :
  fence_stripped raw = lit "[" ++ body ++ lit "}," ++ tail ->
  endswith (fence_stripped raw) (lit "]") = false ->
  occurs (lit "," ++ tail) (lit "},") = false ->
  json_loads (lit "[" ++ body ++ lit "}" ++ lit "
]") = Some (JList objs) ->
  strategy_truncated json_loads (fence_stripped raw) = Some (JList objs).
Proof.
  intros Htext Hend Hocc Hparse.
  unfold strategy_truncated.
  unfold fence_stripped at 1 2 3. rewrite strip_idem.
  fold (fence_stripped raw). rewrite Hend, Htext.
  change (startswith (lit "[" ++ body ++ lit "}," ++ tail) (lit "["))
    with true.
  simpl andb. cbv iota.
  rewrite truncation_repair_boundary by exact Hocc.
  now rewrite Hparse.
Qed.

End Truncation.

(** C5 (as the code has it).  Let the fence-stripped reply be an opening
    bracket, then complete objects (texts that end with a closing brace)
    separated by commas, then a comma and a tail that holds no [},] and
    does not close the array.  Strategy 4 parses the array of exactly
    those objects; when that is a list, the list is the strategy's answer,
    and the answer of the whole cascade once the three strategies before it
    have found nothing. *)
Theorem truncation_repair_recovers :
  forall (json_loads : pystr -> option json) (raw : pystr)
         (objects : list pystr) (tail : pystr) (objs : list json),
    objects <> [] ->
    Forall (fun o => endswith o (lit "}") = true) objects ->
    fence_stripped raw
    = lit "[" ++ join (lit ",") objects ++ lit "," ++ tail ->
    endswith (fence_stripped raw) (lit "]") = false ->
    occurs (lit "," ++ tail) (lit "},") = false ->
    json_loads (lit "[" ++ join (lit ",") objects ++ lit "
]") = Some (JList objs) ->
    strategy_truncated json_loads (fence_stripped raw) = Some (JList objs)
    /\ (strategy_direct json_loads raw = None ->
        strategy_direct json_loads (fence_stripped raw) = None ->
        strategy_block json_loads (fence_stripped raw) = None ->
        _extract_json json_loads raw = JList objs).
Proof.
  intros json_loads raw objects tail objs Hne Hall Htext Hend Hocc Hparse.
  destruct (@endswith_char (join (lit ",") objects) 125%N
              (@join_endswith (lit ",") (lit "}") objects Hne Hall))
    as (body & Hbody).
  assert (H4 : strategy_truncated json_loads (fence_stripped raw)
               = Some (JList objs)).
  { apply strategy_truncated_boundary with (body := body) (tail := tail);
      auto.
    - rewrite Htext, Hbody. now rewrite <- app_assoc.
    - rewrite <- Hparse, Hbody. now rewrite <- app_assoc. }
  split; [exact H4|].
  intros H1 H2 H3. unfold _extract_json. now rewrite H1, H2, H3, H4.
Qed.

Lemma truncation_repair_recovers_witness :
  _extract_json py_json_loads truncated_reply
  = JList [JDict [(lit "a", JInt 1)]; JDict [(lit "b", JInt 2)]].
Proof.
  refine (proj2 (@truncation_repair_recovers py_json_loads
            truncated_reply
            [lit "{" ++ quoted "a" ++ lit ":1}";
             lit "{" ++ quoted "b" ++ lit ":2}"]
            (lit "{" ++ quoted "c" ++ lit ":")
            [JDict [(lit "a", JInt 1)]; JDict [(lit "b", JInt 2)]]
            _ _ _ _ _ _) _ _ _);
    try (vm_compute; reflexivity).
  - discriminate.
  - repeat constructor.
Defined.

(** C5, as the specification words it, fails: the second object is
    complete in the text, the text opens an array and does not close it,
    and strategy 4 answers with the first object alone. *)
Lemma truncation_repair_counterexample :
  startswith cut_after_object (lit "[") = true
  /\ endswith cut_after_object (lit "]") = false
  /\ occurs cut_after_object (lit "{" ++ quoted "b" ++ lit ":2}") = true
  /\ py_json_loads (lit "{" ++ quoted "b" ++ lit ":2}")
     = Some (JDict [(lit "b", JInt 2)])
  /\ strategy_truncated py_json_loads (fence_stripped cut_after_object)
     = Some (JList [JDict [(lit "a", JInt 1)]])
  /\ _extract_json py_json_loads cut_after_object
     = JList [JDict [(lit "a", JInt 1)]]
  /\ ~ In (JDict [(lit "b", JInt 2)]) [JDict [(lit "a", JInt 1)]].
Proof.
  repeat split; try (vm_compute; reflexivity).
  intros [H|[]]. discriminate.
Qed.

(* ================================================================== *)
(** * ai_parser.py: record normalization                               *)
(* ================================================================== *)

Section Normalization.

Variable json_loads : pystr -> option json.
Variable py_repr : json -> pystr.
Variable complete : pystr -> option pystr.

Lemma transaction_of_shape (r : dict) :
  is_transaction (transaction_of py_repr r)
  /\ keys (transaction_of py_repr r) = field_names.
Proof.
  split; [|reflexivity].
  unfold is_transaction, transaction_of, text_field, amount_field.
  do 6 eexists. reflexivity.
Qed.

Lemma transaction_of_text_default (r : dict) (k : pystr) :
  In k text_fields -> dict_get k r = None ->
  dict_get k (transaction_of py_repr r) = Some (JStr []).
Proof.
  intros Hk Hr. unfold text_fields in Hk. simpl in Hk.
  destruct Hk as [<-|[<-|[<-|[]]]];
    unfold transaction_of, text_field, get_default; rewrite Hr;
    reflexivity.
Qed.

Lemma transaction_of_amount_default (r : dict) (k : pystr) :
  In k amount_fields -> dict_get k r = None ->
  dict_get k (transaction_of py_repr r) = Some (JFloat zero).
Proof.
  intros Hk Hr. unfold amount_fields in Hk. simpl in Hk.
  destruct Hk as [<-|[<-|[<-|[]]]];
    unfold transaction_of, amount_field, get_default; rewrite Hr;
    reflexivity.
Qed.

Lemma clean_rows_In (items : list json) (t : dict) :
  In t (clean_rows py_repr items) <->
  exists r, In (JDict r) items /\ t = transaction_of py_repr r.
Proof.
  unfold clean_rows. rewrite in_flat_map. split.
  - intros (v & Hv & Ht). destruct v; simpl in Ht; try contradiction.
    destruct Ht as [<-|[]]. eauto.
  - intros (r & Hr & ->). exists (JDict r). split; [exact Hr | now left].
Qed.

End Normalization.

(** C7. Every record [_parse_chunk] emits is built from one mapping of the
    reply; it has exactly the six keys, three of them strings and three
    floats; a text field the mapping lacks is the empty string and an
    amount field it lacks is 0.0.  And every mapping among the rows the
    salvage cascade recovered gives such a record. *)
Theorem parse_chunk_six_fields :
  forall (json_loads : pystr -> option json) (py_repr : json -> pystr)
         (complete : pystr -> option pystr) (chunk : pystr),
    (forall t, In t (_parse_chunk json_loads py_repr complete chunk) ->
       exists r,
         t = transaction_of py_repr r
         /\ keys t = field_names
         /\ is_transaction t
         /\ (forall k, In k text_fields -> dict_get k r = None ->
                       dict_get k t = Some (JStr []))
         /\ (forall k, In k amount_fields -> dict_get k r = None ->
                       dict_get k t = Some (JFloat zero)))
    /\ (forall content items r,
          complete chunk = Some content ->
          iterate (_extract_json json_loads (strip content)) = Some items ->
          In (JDict r) items ->
          In (transaction_of py_repr r)
             (_parse_chunk json_loads py_repr complete chunk)).
Proof.
  intros json_loads py_repr complete chunk. split.
  - intros t Ht. unfold _parse_chunk in Ht.
    destruct (complete chunk) as [content|]; [|contradiction].
    destruct (iterate _) as [items|]; [|contradiction].
    apply clean_rows_In in Ht as (r & _ & ->).
    exists r. split; [reflexivity|].
    destruct (transaction_of_shape py_repr r) as [Hshape Hkeys].
    repeat split; auto.
    + intros k. apply transaction_of_text_default.
    + intros k. apply transaction_of_amount_default.
  - intros content items r Hc Hi Hr. unfold _parse_chunk.
    rewrite Hc, Hi. apply clean_rows_In. eauto.
Qed.

Lemma parse_chunk_six_fields_witness :
  In (transaction [] [] [] zero zero zero)
     (_parse_chunk py_json_loads (fun _ => []) (fun _ => Some sample_reply) [])
  /\ exists r,
      transaction [] [] [] zero zero zero = transaction_of (fun _ => []) r
      /\ keys (transaction [] [] [] zero zero zero) = field_names
      /\ is_transaction (transaction [] [] [] zero zero zero)
      /\ (forall k, In k text_fields -> dict_get k r = None ->
            dict_get k (transaction [] [] [] zero zero zero) = Some (JStr []))
      /\ (forall k, In k amount_fields -> dict_get k r = None ->
            dict_get k (transaction [] [] [] zero zero zero)
            = Some (JFloat zero)).
Proof.
  assert (Hin : In (transaction [] [] [] zero zero zero)
                   (_parse_chunk py_json_loads (fun _ => [])
                                 (fun _ => Some sample_reply) []))
    by (vm_compute; tauto).
  split; [exact Hin|].
  exact (proj1 (parse_chunk_six_fields py_json_loads (fun _ => [])
                  (fun _ => Some sample_reply) []) _ Hin).
Defined.

(* ================================================================== *)
(** * ai_parser.py: deduplication                                      *)
(* ================================================================== *)

Lemma pystr_eqb_trans (a b c : pystr) :
  pystr_eqb a b = true -> pystr_eqb b c = true -> pystr_eqb a c = true.
Proof. rewrite !pystr_eqb_eq. congruence. Qed.

Lemma float_eqb_trans (a b c : pyfloat) :
  float_eqb a b = true -> float_eqb b c = true -> float_eqb a c = true.
Proof.
  destruct a, b, c; simpl; try discriminate; auto.
  - rewrite !Qeq_bool_iff. apply Qeq_trans.
  - rewrite !eqb_true_iff. congruence.
Qed.

Lemma key_eqb_trans (a b c : dedup_key) :
  key_eqb a b = true -> key_eqb b c = true -> key_eqb a c = true.
Proof.
  destruct a as [[[d1 s1] x1] c1], b as [[[d2 s2] x2] c2],
           c as [[[d3 s3] x3] c3].
  unfold key_eqb. rewrite !andb_true_iff.
  intros [[[H1 H2] H3] H4] [[[G1 G2] G3] G4].
  repeat split; eauto using pystr_eqb_trans, float_eqb_trans.
Qed.

Lemma key_of_transaction (d vd desc : pystr) (deb cr bal : pyfloat) :
  key_of (transaction d vd desc deb cr bal)
  = Some (d, slice_to desc 40, deb, cr).
Proof. reflexivity. Qed.

Lemma dedup_loop_cons (r : dict) (rest : list dict) (seen : list dedup_key)
      (unique : list dict) (k : dedup_key) :
  key_of r = Some k ->
  dedup_loop (r :: rest) seen unique
  = if negb (key_in k seen)
    then dedup_loop rest (seen ++ [k]) (unique ++ [r])
    else dedup_loop rest seen unique.
Proof. intros H. simpl. now rewrite H. Qed.

Lemma first_seen_spec_cons (r : dict) (rest before : list dict)
      (k : dedup_key) :
  key_of r = Some k ->
  first_seen_spec before (r :: rest)
  = if matches_before before k
    then first_seen_spec (before ++ [r]) rest
    else r :: first_seen_spec (before ++ [r]) rest.
Proof. intros H. simpl. now rewrite H. Qed.

Lemma matches_before_snoc (before : list dict) (r : dict) (k k0 : dedup_key) :
  key_of r = Some k ->
  matches_before (before ++ [r]) k0 = matches_before before k0 || key_eqb k0 k.
Proof.
  intros H. unfold matches_before. rewrite existsb_app. simpl.
  now rewrite H, orb_false_r.
Qed.

Lemma key_in_snoc (seen : list dedup_key) (k k0 : dedup_key) :
  key_in k0 (seen ++ [k]) = key_in k0 seen || key_eqb k0 k.
Proof. unfold key_in. rewrite existsb_app. simpl. now rewrite orb_false_r. Qed.

Lemma dedup_loop_first_seen (rows : list dict) :
  forall before seen unique,
    Forall is_transaction rows ->
    (forall k, key_in k seen = matches_before before k) ->
    dedup_loop rows seen unique
    = Some (unique ++ first_seen_spec before rows).
Proof.
  induction rows as [|r0 rows IH]; intros before seen unique Hrows Hseen.
  - simpl. now rewrite app_nil_r.
  - inversion Hrows as [|? ? Hr Hrest]; subst.
    destruct Hr as (d & vd & desc & deb & cr & bal & ->).
    set (r := transaction d vd desc deb cr bal).
    set (k := (d, slice_to desc 40, deb, cr)).
    assert (Hk : key_of r = Some k) by reflexivity.
    rewrite (@dedup_loop_cons r rows seen unique k Hk).
    rewrite (@first_seen_spec_cons r rows before k Hk).
    rewrite <- Hseen.
    destruct (key_in k seen) eqn:Ek; simpl negb; cbv iota.
    + apply IH; auto. intros k0.
      rewrite (@matches_before_snoc before r k k0 Hk), <- Hseen.
      destruct (key_eqb k0 k) eqn:E0; [|now rewrite orb_false_r].
      rewrite orb_true_r. unfold key_in in *.
      apply existsb_exists in Ek as (s & Hs & Eks).
      apply existsb_exists. exists s. split; auto.
      eapply key_eqb_trans; eauto.
    + rewrite IH with (before := before ++ [r]); auto.
      * now rewrite <- app_assoc.
      * intros k0.
        now rewrite key_in_snoc, (@matches_before_snoc before r k k0 Hk), Hseen.
Qed.

(** What [parse] hands to the deduplication loop are normalized records,
    so the loop never meets a missing key. *)
Lemma parse_chunk_transactions (json_loads : pystr -> option json)
      (py_repr : json -> pystr) (complete : pystr -> option pystr)
      (chunk : pystr) :
  Forall is_transaction (_parse_chunk json_loads py_repr complete chunk).
Proof.
  apply Forall_forall. intros t Ht. unfold _parse_chunk in Ht.
  destruct (complete chunk) as [content|]; [|contradiction].
  destruct (iterate _) as [items|]; [|contradiction].
  apply clean_rows_In in Ht as (r & _ & ->).
  apply transaction_of_shape.
Qed.

Lemma parse_first_seen (json_loads : pystr -> option json)
      (py_repr : json -> pystr) (complete : pystr -> option pystr)
      (text : pystr) (chunk_size : Z) (fuel : nat) :
  (0 < effective_size 6000 (Some chunk_size))%Z ->
  (length text < fuel)%nat ->
  exists chunks,
    chunk_text fuel text 6000 (Some chunk_size) = Some chunks
    /\ parse json_loads py_repr complete fuel text chunk_size
       = Some (first_seen_spec []
                 (flat_map (_parse_chunk json_loads py_repr complete) chunks)).
Proof.
  intros Hsize Hfuel. unfold parse.
  rewrite chunk_text_pieces by assumption.
  eexists. split; [reflexivity|].
  unfold deduplicate. rewrite dedup_loop_first_seen with (before := []); auto.
  apply Forall_flat_map, Forall_forall. intros chunk _.
  apply parse_chunk_transactions.
Qed.

(** ** The key in the fields of the records *)

Lemma slice_to_firstn (s : pystr) : slice_to s 40 = firstn 40 s.
Proof.
  unfold slice_to, slice, clamp_index, len. cbn [Z.ltb Z.compare].
  rewrite (Z.min_l 0 (Z.of_nat (length s))) by lia.
  rewrite Z.sub_0_r. cbn [Z.to_nat skipn].
  destruct (Z.le_ge_cases 40 (Z.of_nat (length s))) as [H|H].
  - rewrite Z.min_l by exact H. reflexivity.
  - rewrite Z.min_r by exact H. rewrite Nat2Z.id.
    rewrite firstn_all. symmetry. apply firstn_all2. lia.
Qed.

Lemma key_of_record (f : fields) :
  key_of (record_of f)
  = Some (f_date f, firstn 40 (f_description f), f_debit f, f_credit f).
Proof.
  unfold record_of. rewrite key_of_transaction. now rewrite slice_to_firstn.
Qed.

Lemma record_is_transaction (fs : list fields) :
  Forall is_transaction (map record_of fs).
Proof.
  apply Forall_forall. intros t Ht. apply in_map_iff in Ht as (f & <- & _).
  unfold is_transaction, record_of. do 6 eexists. reflexivity.
Qed.

Lemma matches_before_fields (before : list fields) (r : fields) :
  matches_before (map record_of before)
                 (f_date r, firstn 40 (f_description r), f_debit r,
                  f_credit r)
  = existsb (spec_same_key r) before.
Proof.
  unfold matches_before.
  induction before as [|p before IH]; [reflexivity|].
  cbn [map existsb]. rewrite IH, key_of_record. reflexivity.
Qed.

Lemma first_seen_fields (fs : list fields) : forall before,
  first_seen_spec (map record_of before) (map record_of fs)
  = map record_of (spec_dedup before fs).
Proof.
  induction fs as [|r fs IH]; intros before; [reflexivity|].
  cbn [map spec_dedup].
  rewrite (@first_seen_spec_cons (record_of r) (map record_of fs)
             (map record_of before) _ (key_of_record r)).
  rewrite matches_before_fields.
  change (map record_of before ++ [record_of r])
    with (map record_of before ++ map record_of [r]).
  rewrite <- map_app, IH.
  now destruct (existsb (spec_same_key r) before).
Qed.

(** The loop of [parse] and the wording of the specification agree. *)
Lemma deduplicate_fields (fs : list fields) :
  deduplicate (map record_of fs) = Some (map record_of (spec_dedup [] fs)).
Proof.
  unfold deduplicate.
  rewrite dedup_loop_first_seen with (before := []);
    [|apply record_is_transaction | reflexivity].
  cbn [app]. f_equal. exact (first_seen_fields fs []).
Qed.

Lemma spec_same_key_differs (a b : fields) :
  f_date b <> f_date a
  \/ firstn 40 (f_description b) <> firstn 40 (f_description a)
  \/ float_eqb (f_debit b) (f_debit a) = false
  \/ float_eqb (f_credit b) (f_credit a) = false ->
  spec_same_key b a = false.
Proof.
  unfold spec_same_key. intros [H|[H|[H|H]]].
  - destruct (pystr_eqb (f_date b) (f_date a)) eqn:E; [|reflexivity].
    apply pystr_eqb_eq in E. contradiction.
  - destruct (pystr_eqb (firstn 40 (f_description b))
                        (firstn 40 (f_description a))) eqn:E;
      [|now rewrite andb_false_r].
    apply pystr_eqb_eq in E. contradiction.
  - rewrite H. now rewrite andb_false_r.
  - rewrite H. now rewrite andb_false_r.
Qed.

(** C3. Deduplication is what the specification says, with the key read
    off the fields of the records: for every list of normalized records
    the loop returns, in the order of the input, the records for which no
    record before them has the same date, the same first 40 characters
    of the description, an equal debit and an equal credit.  So a record
    that agrees with the first on these four is dropped, whatever its
    value date, the rest of its description and its balance, and a
    record that differs from the first in one of the four is kept. *)
Theorem deduplicate_first_seen :
  forall fs : list fields,
    deduplicate (map record_of fs) = Some (map record_of (spec_dedup [] fs))
    /\ (forall a b,
          fs = [a; b] ->
          f_date b = f_date a ->
          firstn 40 (f_description b) = firstn 40 (f_description a) ->
          float_eqb (f_debit b) (f_debit a) = true ->
          float_eqb (f_credit b) (f_credit a) = true ->
          deduplicate (map record_of fs) = Some [record_of a])
    /\ (forall a b,
          fs = [a; b] ->
          f_date b <> f_date a
          \/ firstn 40 (f_description b) <> firstn 40 (f_description a)
          \/ float_eqb (f_debit b) (f_debit a) = false
          \/ float_eqb (f_credit b) (f_credit a) = false ->
          deduplicate (map record_of fs) = Some [record_of a; record_of b]).
Proof.
  intros fs. split; [apply deduplicate_fields|]. split.
  - intros a b -> Hd Hs Hdeb Hcr. rewrite deduplicate_fields.
    cbn [spec_dedup existsb app]. unfold spec_same_key.
    rewrite Hd, Hs, Hdeb, Hcr.
    rewrite !(proj2 (pystr_eqb_eq _ _) eq_refl). reflexivity.
  - intros a b -> Hdiff. rewrite deduplicate_fields.
    cbn [spec_dedup existsb app].
    now rewrite (spec_same_key_differs a b Hdiff).
Qed.

Lemma deduplicate_first_seen_witness :
  deduplicate
    (map record_of
       [ {| f_date := lit "01/12"; f_value_date := []; f_description := lit "POS";
            f_debit := Fin (5 # 1); f_credit := zero;
            f_balance := Fin (10 # 1) |};
         {| f_date := lit "01/12"; f_value_date := lit "02/12";
            f_description := lit "POS"; f_debit := Fin (5 # 1);
            f_credit := zero; f_balance := Fin (11 # 1) |} ])
  = Some [ record_of
             {| f_date := lit "01/12"; f_value_date := [];
                f_description := lit "POS"; f_debit := Fin (5 # 1);
                f_credit := zero; f_balance := Fin (10 # 1) |} ].
Proof.
  refine (proj1 (proj2 (deduplicate_first_seen _)) _ _ eq_refl _ _ _ _);
    reflexivity.
Defined.

(* ================================================================== *)
(** * extractor.py: rows from positioned words                         *)
(* ================================================================== *)

Section Sorting.

Context {A : Type} (lt : A -> A -> bool).

Lemma insert_by_perm (x : A) (l : list A) :
  Permutation (insert_by lt x l) (x :: l).
Proof.
  induction l as [|y l IH]; simpl; auto.
  destruct (lt y x); auto.
  rewrite IH. apply perm_swap.
Qed.

Lemma sorted_by_perm (l : list A) : Permutation (sorted_by lt l) l.
Proof.
  induction l as [|x l IH]; simpl; auto.
  rewrite insert_by_perm. now constructor.
Qed.

End Sorting.

Section SortedBy.

Context {A : Type} (lt : A -> A -> bool).

Hypothesis lt_asym : forall a b, lt a b = true -> lt b a = false.

Lemma insert_by_hd (x y : A) (l : list A) :
  not_after lt y x -> HdRel (not_after lt) y l -> HdRel (not_after lt) y (insert_by lt x l).
Proof.
  intros Hyx Hl. destruct l as [|z l]; simpl.
  - now constructor.
  - destruct (lt z x); constructor; auto; try (now inversion Hl).
Qed.

Lemma insert_by_sorted (x : A) (l : list A) :
  Sorted (not_after lt) l -> Sorted (not_after lt) (insert_by lt x l).
Proof.
  induction l as [|y l IH]; intros Hs; simpl.
  - repeat constructor.
  - inversion Hs as [|? ? Hl Hhd]; subst.
    destruct (lt y x) eqn:E.
    + constructor; [now apply IH|].
      apply insert_by_hd; auto. unfold not_after. now apply lt_asym.
    + constructor; [exact Hs | constructor; exact E].
Qed.

Lemma sorted_by_sorted (l : list A) : Sorted (not_after lt) (sorted_by lt l).
Proof.
  induction l as [|x l IH]; simpl; [constructor|].
  now apply insert_by_sorted.
Qed.

End SortedBy.

Lemma Qltb_asym (a b : Q) : Qltb a b = true -> Qltb b a = false.
Proof.
  unfold Qltb. rewrite negb_true_iff, negb_false_iff.
  intros H. apply Qle_bool_iff.
  destruct (Qlt_le_dec b a) as [Hlt|Hle]; [|exact Hle].
  exfalso. apply Qlt_le_weak, Qle_bool_iff in Hlt. congruence.
Qed.

Lemma within_refl (y_tol : Z) (y : Q) :
  (0 <= y_tol)%Z -> within y_tol y y = true.
Proof.
  intros H. unfold within. apply Qle_bool_iff.
  assert (E : (Qabs (y - y) == 0)%Q).
  { rewrite <- Qabs_wd with (x := 0%Q); [reflexivity | ring]. }
  rewrite E. change 0%Q with (inject_Z 0). now rewrite <- Zle_Qle.
Qed.

Lemma anchored_perm (y_tol : Z) (r r' : list token) :
  Permutation r r' -> anchored y_tol r -> anchored y_tol r'.
Proof.
  intros P (a & Ha & Hall). exists a. split.
  - eapply Permutation_in; eauto.
  - intros t Ht. apply Hall. eapply Permutation_in; [symmetry|]; eauto.
Qed.

Section Rows.

Variable y_tol : Z.

Lemma close_row_concat (rows : list (list token)) (cur : list token) :
  Permutation (concat (close_row rows cur)) (concat rows ++ cur).
Proof.
  destruct cur as [|t cur]; unfold close_row.
  - now rewrite app_nil_r.
  - rewrite concat_app. simpl concat. rewrite app_nil_r.
    apply Permutation_app_head. exact (sorted_by_perm by_x0 (t :: cur)).
Qed.

(** The loop neither loses nor repeats a token. *)
Lemma rows_loop_perm (ws : list word) : forall rows cur y,
  Permutation (concat (rows_loop y_tol ws rows cur y))
              (concat rows ++ cur ++ map token_of ws).
Proof.
  induction ws as [|w ws IH]; intros rows cur y; simpl.
  - rewrite app_nil_r. apply close_row_concat.
  - destruct (within y_tol (y0 w) y).
    + rewrite IH. now rewrite <- app_assoc.
    + rewrite IH, close_row_concat. now rewrite <- app_assoc.
Qed.

Lemma close_row_nonempty (rows : list (list token)) (cur : list token) :
  Forall (fun r => r <> []) rows ->
  Forall (fun r => r <> []) (close_row rows cur).
Proof.
  intros H. destruct cur as [|t cur]; unfold close_row; auto.
  apply Forall_app. split; auto. constructor; auto.
  intros E.
  pose proof (Permutation_length (sorted_by_perm by_x0 (t :: cur))) as L.
  rewrite E in L. discriminate.
Qed.

Lemma rows_loop_nonempty (ws : list word) : forall rows cur y,
  Forall (fun r => r <> []) rows ->
  Forall (fun r => r <> []) (rows_loop y_tol ws rows cur y).
Proof.
  induction ws as [|w ws IH]; intros rows cur y H; simpl.
  - now apply close_row_nonempty.
  - destruct (within y_tol (y0 w) y); apply IH; auto.
    now apply close_row_nonempty.
Qed.

Hypothesis y_tol_nonneg : (0 <= y_tol)%Z.

Lemma close_row_anchored (ws : list word) (rows : list (list token))
      (cur : list token) (y : Q) :
  Forall (anchored y_tol) rows -> filling y_tol ws cur y ->
  Forall (anchored y_tol) (close_row rows cur).
Proof.
  intros Hrows [Hall Hanchor].
  destruct cur as [|t cur]; unfold close_row; auto.
  apply Forall_app. split; auto. constructor; auto.
  apply anchored_perm with (r := t :: cur);
    [symmetry; apply sorted_by_perm|].
  destruct Hanchor as (a & Ha & Ey). exists a. split; auto.
  intros u Hu. rewrite Ey. now apply Hall.
Qed.

Lemma rows_loop_anchored (ws : list word) : forall rows cur y,
  Forall (anchored y_tol) rows -> filling y_tol ws cur y ->
  Forall (anchored y_tol) (rows_loop y_tol ws rows cur y).
Proof.
  induction ws as [|w ws IH]; intros rows cur y Hrows Hfill; simpl.
  - eapply close_row_anchored; eauto.
  - destruct (within y_tol (y0 w) y) eqn:E.
    + apply IH; auto. destruct Hfill as [Hall Hanchor]. split.
      * intros t Ht. apply in_app_or in Ht as [Ht|[<-|[]]]; auto.
      * destruct cur as [|c cur]; simpl app.
        -- exists (token_of w). split; [now left | exact Hanchor].
        -- destruct Hanchor as (a & Ha & Ey).
           exists a. split; auto.
           destruct Ha as [<-|Ha]; [now left|].
           right. apply in_or_app. now left.
    + apply IH.
      * eapply close_row_anchored; eauto.
      * split.
        -- intros t [<-|[]]. now apply within_refl.
        -- exists (token_of w). split; [now left | reflexivity].
Qed.

End Rows.

Lemma key_ltb_asym (a b : Z * Q) : key_ltb a b = true -> key_ltb b a = false.
Proof.
  unfold key_ltb. destruct a as [ka xa], b as [kb xb]. cbn [fst snd].
  intros H. apply orb_true_iff in H as [H|H].
  - apply Z.ltb_lt in H.
    destruct (Z.ltb_spec kb ka); [lia|].
    destruct (Z.eqb_spec kb ka); [lia | reflexivity].
  - apply andb_true_iff in H as [E H]. apply Z.eqb_eq in E. subst kb.
    rewrite Z.ltb_irrefl, Z.eqb_refl. cbn [orb andb].
    now apply Qltb_asym.
Qed.

Section Runs.

Variable y_tol : Z.
Hypothesis y_tol_nonneg : (0 <= y_tol)%Z.

(** The loop cuts the words it visits into runs, each anchored at its
    first word, and closes a run only at a word out of the tolerance of
    its anchor. *)
Lemma rows_loop_runs (ws : list word) :
  forall (rows : list (list token)) (first : word) (others : list word),
    (forall w, In w (first :: others) ->
               within y_tol (y0 w) (y0 first) = true) ->
    exists tail rest,
      rows_loop y_tol ws rows (map token_of (first :: others)) (y0 first)
      = rows ++ map row_of_run ((first :: tail) :: rest)
      /\ concat ((first :: tail) :: rest) = (first :: others) ++ ws
      /\ Forall (anchored_run y_tol) ((first :: tail) :: rest)
      /\ runs_break y_tol ((first :: tail) :: rest).
Proof.
  induction ws as [|w ws IH]; intros rows first others Hall.
  - exists others, []. cbn [rows_loop close_row map concat].
    rewrite !app_nil_r. repeat split; auto.
  - cbn [rows_loop]. destruct (within y_tol (y0 w) (y0 first)) eqn:E.
    + destruct (IH rows first (others ++ [w])) as (tail & rest & H1 & H2 & H3 & H4).
      { intros u [<-|Hu]; [apply Hall; now left|].
        apply in_app_or in Hu as [Hu|[<-|[]]]; [|exact E].
        apply Hall. now right. }
      exists tail, rest. split.
      { rewrite <- H1. f_equal. cbn [map]. now rewrite map_app. }
      split; [|split; assumption].
      rewrite H2. cbn [app]. now rewrite <- app_assoc.
    + destruct (IH (close_row rows (map token_of (first :: others))) w [])
        as (tail & rest & H1 & H2 & H3 & H4).
      { intros u [<-|[]]. now apply within_refl. }
      exists others, ((w :: tail) :: rest). split.
      { cbn [map] in H1. cbn [map]. rewrite H1.
        cbn [close_row map]. rewrite <- app_assoc. reflexivity. }
      split.
      { change (concat ((first :: others) :: (w :: tail) :: rest))
          with ((first :: others) ++ concat ((w :: tail) :: rest)).
        rewrite H2. reflexivity. }
      split; [constructor; assumption|].
      cbn [runs_break]. split; [exact E | exact H4].
Qed.

End Runs.

(** C8 (as the code has it).  For every list of words and every positive
    tolerance the row builder returns rows; their concatenation is a
    permutation of the tokens of the words, so each token is in one row
    and one only; no row is empty; and every row has an anchor, a token
    of the row from whose [y0] all its tokens are within the tolerance.
    More precisely the rows are cut out of the words as they are visited,
    by [(round(y0 / y_tol), x0)]: the visited sequence is split into
    consecutive runs, one for each row in order; the anchor of a run is
    its first word, the first put in the row, and every word of the run
    is within the tolerance of it; and a run ends only where the next
    word is farther than the tolerance from its anchor. *)
Theorem rows_partition_anchored :
  forall (word_list : list word) (y_tol : Z),
    (0 < y_tol)%Z ->
    exists rows,
      _rows_from_words word_list y_tol = Some rows
      /\ Permutation (concat rows) (map token_of word_list)
      /\ Forall (fun r => r <> []) rows
      /\ Forall (anchored y_tol) rows
      /\ exists runs,
           rows = map row_of_run runs
           /\ Permutation (concat runs) word_list
           /\ Sorted (not_after (visit_ltb y_tol)) (concat runs)
           /\ Forall (anchored_run y_tol) runs
           /\ runs_break y_tol runs.
Proof.
  intros word_list y_tol Htol. unfold _rows_from_words.
  destruct word_list as [|w0 ws].
  { exists []. repeat split; auto.
    exists []. repeat split; auto; constructor. }
  destruct (Z.eqb_spec y_tol 0) as [E|_]; [lia|].
  fold (visit_ltb y_tol).
  pose proof (sorted_by_perm (visit_ltb y_tol) (w0 :: ws)) as P.
  assert (S : Sorted (not_after (visit_ltb y_tol))
                     (sorted_by (visit_ltb y_tol) (w0 :: ws))).
  { apply sorted_by_sorted. intros a b. apply key_ltb_asym. }
  destruct (sorted_by (visit_ltb y_tol) (w0 :: ws)) as [|first rest] eqn:Es.
  { apply Permutation_length in P. discriminate. }
  eexists. split; [reflexivity|]. split; [|split; [|split]].
  - rewrite rows_loop_perm.
    exact (Permutation_map token_of P).
  - now apply rows_loop_nonempty.
  - apply rows_loop_anchored; auto; try lia.
    split; [intros t []|reflexivity].
  - assert (Hfirst : forall w, In w [first] ->
                       within y_tol (y0 w) (y0 first) = true).
    { intros w [<-|[]]. apply within_refl. lia. }
    destruct (@rows_loop_runs y_tol (Z.lt_le_incl _ _ Htol) rest [] first []
                              Hfirst)
      as (tail & more & H1 & H2 & H3 & H4).
    exists ((first :: tail) :: more).
    split.
    { cbn [rows_loop]. rewrite (Hfirst first (or_introl eq_refl)).
      exact H1. }
    rewrite H2. cbn [app].
    split; [exact P|]. split; [exact S|]. split; [exact H3 | exact H4].
Qed.

Lemma rows_partition_anchored_witness :
  (0 < 5)%Z
  /\ exists rows,
      _rows_from_words [word_at 0 0 "a"; word_at 0 5 "b"; word_at 0 10 "c"] 5
      = Some rows
      /\ Permutation (concat rows)
           (map token_of [word_at 0 0 "a"; word_at 0 5 "b"; word_at 0 10 "c"])
      /\ Forall (fun r => r <> []) rows
      /\ Forall (anchored 5) rows
      /\ exists runs,
           rows = map row_of_run runs
           /\ Permutation (concat runs)
                [word_at 0 0 "a"; word_at 0 5 "b"; word_at 0 10 "c"]
           /\ Sorted (not_after (visit_ltb 5)) (concat runs)
           /\ Forall (anchored_run 5) runs
           /\ runs_break 5 runs.
Proof.
  split; [reflexivity|].
  apply (rows_partition_anchored
           [word_at 0 0 "a"; word_at 0 5 "b"; word_at 0 10 "c"]).
  reflexivity.
Defined.

(** C8, as the specification words it, fails: of three words at heights 0,
    5 and 10, with tolerance 5, the second and the third are within the
    tolerance of each other and land in different rows, because the row
    is anchored at the first. *)
Lemma rows_within_tolerance_counterexample :
  ~ (forall (word_list : list word) (y_tol : Z) (rows : list (list token))
            (a b : word),
        _rows_from_words word_list y_tol = Some rows ->
        In a word_list -> In b word_list ->
        within y_tol (y0 a) (y0 b) = true ->
        exists row, In row rows /\ In (token_of a) row /\ In (token_of b) row).
Proof.
  intros H.
  destruct (H [word_at 0 0 "a"; word_at 0 5 "b"; word_at 0 10 "c"] 5%Z
              _ (word_at 0 5 "b") (word_at 0 10 "c") eq_refl)
    as (row & Hrow & Ha & Hb).
  - simpl; tauto.
  - simpl; tauto.
  - reflexivity.
  - simpl in Hrow. destruct Hrow as [<-|[<-|[]]].
    + simpl in Hb. destruct Hb as [Hb|[Hb|[]]]; discriminate.
    + simpl in Ha. destruct Ha as [Ha|[]]; discriminate.
Qed.

(* ================================================================== *)
(** * extractor.py: the fallback chain of a page                       *)
(* ================================================================== *)

Lemma try_camelot_tables (p : page) (tables : list (list (list pystr))) :
  camelot p = CamelotTables tables ->
  _try_camelot p
  = join [NL]
         (flat_map (fun table =>
                      map (fun row => join (lit " | ") (map strip row))
                          table)
                   tables).
Proof.
  unfold _try_camelot. intros ->. now destruct tables.
Qed.

(** C4 (as the code has it).  On every page the strategies run in the order
    positional, table, OCR, the next one exactly when the text so far is
    short of 50 characters after stripping; the text kept is that of the
    last strategy run, which is the first whose text reaches 50 characters
    or else OCR.  What Camelot yields is the rows of all the tables it
    found, one line a row, the stripped cells joined by bars; a failure
    of Camelot is an empty text.  A failure of OCR is not: it is the
    marker text carrying the message, and that text is the text of the
    page when OCR was reached. *)
Theorem fallback_chain_commits :
  forall p : page,
    (In StructuredTable (page_trace p)
     <-> too_short (positional_text p) = true)
    /\ (In OCR (page_trace p)
        <-> too_short (positional_text p) = true
            /\ too_short (_try_camelot p) = true)
    /\ (exists earlier s,
          page_trace p = earlier ++ [s]
          /\ earlier ++ [s] = firstn (S (length earlier))
                                     [Positional; StructuredTable; OCR]
          /\ Forall (fun s' => too_short (yield_of p s') = true) earlier
          /\ page_text p = yield_of p s
          /\ (too_short (page_text p) = false \/ s = OCR))
    /\ (camelot p = CamelotRaised -> _try_camelot p = [])
    /\ (forall tables, camelot p = CamelotTables tables ->
          _try_camelot p
          = join [NL]
                 (flat_map (fun table =>
                              map (fun row =>
                                     join (lit " | ") (map strip row))
                                  table)
                           tables))
    /\ (forall e, ocr p = OcrRaised e ->
                  _ocr_page p = lit "[OCR ERROR: " ++ e ++ lit "]"
                  /\ (In OCR (page_trace p) ->
                      page_text p = lit "[OCR ERROR: " ++ e ++ lit "]")).
Proof.
  intros p. unfold page_trace, page_text, extract_page.
  destruct (too_short (positional_text p)) eqn:E1;
    [destruct (too_short (_try_camelot p)) eqn:E2|]; simpl fst; simpl snd.
  - split; [simpl; tauto|]. split; [simpl; tauto|]. split.
    { exists [Positional; StructuredTable], OCR.
      split; [reflexivity|]. split; [reflexivity|].
      split; [repeat constructor; assumption|].
      split; [reflexivity | now right]. }
    split; [unfold _try_camelot; now intros ->|].
    split; [exact (try_camelot_tables p)|].
    intros e He. unfold _ocr_page. rewrite He. auto.
  - split; [simpl; tauto|]. split.
    { simpl. split; [intros [H|[H|[]]]; discriminate | intros [_ H]; discriminate]. }
    split.
    { exists [Positional], StructuredTable.
      split; [reflexivity|]. split; [reflexivity|].
      split; [repeat constructor; assumption|].
      split; [reflexivity | now left]. }
    split; [unfold _try_camelot; now intros ->|].
    split; [exact (try_camelot_tables p)|].
    intros e He. unfold _ocr_page. rewrite He. split; auto.
    intros [H|[H|[]]]; discriminate.
  - split.
    { simpl. split; [intros [H|[]]; discriminate | discriminate]. }
    split.
    { simpl. split; [intros [H|[]]; discriminate | intros [H _]; discriminate]. }
    split.
    { exists [], Positional.
      split; [reflexivity|]. split; [reflexivity|].
      split; [constructor|].
      split; [reflexivity | now left]. }
    split; [unfold _try_camelot; now intros ->|].
    split; [exact (try_camelot_tables p)|].
    intros e He. unfold _ocr_page. rewrite He. split; auto.
    intros [H|[]]; discriminate.
Qed.

Lemma fallback_chain_commits_witness :
  _try_camelot table_page
  = lit "01/12/2025 | POS PURCHASE SHOPRITE IKEJA | 7,037.31 |  | 330,000.00"
  /\ ~ In OCR (page_trace table_page)
  /\ (camelot failing_page = CamelotRaised /\ _try_camelot failing_page = []).
Proof.
  destruct (fallback_chain_commits table_page)
    as (_ & Hocr & _ & _ & Htables & _).
  destruct (fallback_chain_commits failing_page) as (_ & _ & _ & Hraised & _).
  split; [exact (Htables _ eq_refl)|]. split.
  - intros Hin. apply Hocr in Hin as [_ Hshort].
    vm_compute in Hshort. discriminate Hshort.
  - split; [reflexivity | apply Hraised; reflexivity].
Defined.

(** C4, as the specification words it, fails: an OCR failure is kept as a
    text of its own, not as an empty yield. *)
Lemma ocr_failure_counterexample :
  ~ (forall (p : page) (e : pystr),
        ocr p = OcrRaised e -> yield_of p OCR = []).
Proof.
  intros H. specialize (H failing_page _ eq_refl). discriminate.
Qed.

(* ================================================================== *)
(** * extract.py: the outcome of a run                                 *)
(* ================================================================== *)

(** C9, at the input where the code leaves it: a PDF of four pages out of
    which no strategy gets a character.  The page markers alone make the
    document text 65 characters long, the test for missing content lets
    it through, and with a model that finds nothing the run ends in "no
    transactions found"; whatever the parser does, the run does not end
    in "no content".  With three such pages the test catches it. *)
Theorem blank_document_outcome :
  Forall (fun p => page_text p = []) (repeat blank_page 4)
  /\ len (strip (_extract_pdf (repeat blank_page 4))) = 65%Z
  /\ main (run_parse finds_nothing) (PdfFile (repeat blank_page 4))
     = NoTransactions
  /\ main (run_parse finds_nothing) (PdfFile (repeat blank_page 3))
     = NoContent
  /\ (forall parse_text,
        main parse_text (PdfFile (repeat blank_page 4)) <> NoContent).
Proof.
  split; [repeat constructor|].
  split; [vm_compute; reflexivity|].
  split; [vm_compute; reflexivity|].
  split; [vm_compute; reflexivity|].
  intros parse_text. unfold main.
  change (extract (PdfFile (repeat blank_page 4)))
    with (Some (_extract_pdf (repeat blank_page 4))).
  cbv iota beta.
  assert (E : negb (nonempty (_extract_pdf (repeat blank_page 4)))
              || (len (strip (_extract_pdf (repeat blank_page 4))) <? 50)%Z
              = false) by (vm_compute; reflexivity).
  rewrite E.
  destruct (parse_text _) as [[|t ts]|]; discriminate.
Qed.

(* ================================================================== *)
(** * utils.py: more about the chunker                                 *)
(* ================================================================== *)

Lemma lstrip_by_fixed_head (f : char -> bool) (x : char) (r : pystr) :
  lstrip_by f (x :: r) = x :: r -> f x = false.
Proof.
  simpl. destruct (f x) eqn:E; auto. intros H.
  pose proof (length_lstrip_by f r) as L. rewrite H in L. simpl in L. lia.
Qed.

(** What [strip()] returns neither starts nor ends with whitespace. *)
Lemma strip_by_edges (f : char -> bool) (s : pystr) :
  (forall x r, strip_by f s = x :: r -> f x = false)
  /\ (forall x r, rev (strip_by f s) = x :: r -> f x = false).
Proof.
  assert (H1 : lstrip_by f (strip_by f s) = strip_by f s).
  { unfold strip_by. apply rstrip_keeps_head, lstrip_by_idem. }
  assert (H2 : lstrip_by f (rev (strip_by f s)) = rev (strip_by f s)).
  { unfold strip_by, rstrip_by. rewrite rev_involutive. apply lstrip_by_idem. }
  split; intros x r E.
  - rewrite E in H1. eapply lstrip_by_fixed_head; eauto.
  - rewrite E in H2. eapply lstrip_by_fixed_head; eauto.
Qed.

Lemma chunk_loop_stripped (fuel : nat) : forall text size start acc chunks,
  chunk_loop fuel text size start acc = Some chunks ->
  Forall (fun c => exists p, c = strip p) acc ->
  Forall (fun c => exists p, c = strip p) chunks.
Proof.
  induction fuel as [|fuel IH]; intros text size start acc chunks H Hacc;
    [discriminate|].
  simpl in H. destruct (start <? len text)%Z.
  - eapply IH; [exact H|].
    apply Forall_app. split; auto. constructor; eauto.
  - now injection H as <-.
Qed.

(** X1. Whatever the size and the fuel, a chunk the chunker returns is not
    empty and neither starts nor ends with a whitespace character. *)
Theorem chunk_text_chunks_trimmed :
  forall (fuel : nat) (text : pystr) (chunk_size : Z) (max_chars : option Z)
         (chunks : list pystr),
    chunk_text fuel text chunk_size max_chars = Some chunks ->
    Forall (fun c => c <> []
                     /\ (forall x r, c = x :: r -> py_isspace x = false)
                     /\ (forall x r, rev c = x :: r -> py_isspace x = false))
           chunks.
Proof.
  intros fuel text chunk_size max_chars chunks H. unfold chunk_text in H.
  destruct (chunk_loop fuel text _ 0 []) as [raw|] eqn:E; [|discriminate].
  injection H as <-.
  pose proof (@chunk_loop_stripped _ _ _ _ _ _ E (Forall_nil _)) as Hs.
  apply Forall_forall. intros c Hc.
  apply filter_In in Hc as [Hin Hne].
  rewrite Forall_forall in Hs. destruct (Hs c Hin) as (p & ->).
  split; [destruct (strip p); [discriminate | congruence]|].
  apply (strip_by_edges py_isspace p).
Qed.

Lemma chunk_text_chunks_trimmed_witness :
  Forall (fun c => c <> []
                   /\ (forall x r, c = x :: r -> py_isspace x = false)
                   /\ (forall x r, rev c = x :: r -> py_isspace x = false))
         [lit "ab"; lit "cd"].
Proof.
  apply (@chunk_text_chunks_trimmed 9 (lit " ab  cd ") 4 None).
  vm_compute. reflexivity.
Defined.

Lemma slice_all (s : pystr) (hi : Z) :
  (len s <= hi)%Z -> slice s 0 hi = s.
Proof.
  intros H. unfold slice.
  rewrite (@clamp_index_id (len s) 0) by (unfold len; lia).
  rewrite (@clamp_index_over (len s) hi) by (unfold len in *; lia).
  simpl. rewrite Z.sub_0_r. unfold len. rewrite Nat2Z.id. apply firstn_all.
Qed.

(** X2. A text that fits in one window is one chunk, the stripped text, or
    no chunk when nothing is left of it after stripping. *)
Theorem chunk_text_single_window :
  forall (fuel : nat) (text : pystr) (chunk_size : Z) (max_chars : option Z),
    (len text <= effective_size chunk_size max_chars)%Z ->
    (2 <= fuel)%nat ->
    chunk_text fuel text chunk_size max_chars
    = Some (if nonempty (strip text) then [strip text] else []).
Proof.
  intros fuel text chunk_size max_chars Hfit Hfuel. unfold chunk_text.
  set (size := effective_size chunk_size max_chars) in *.
  destruct fuel as [|[|fuel]]; try lia.
  destruct text as [|c text].
  { reflexivity. }
  assert (Hpos : (0 < len (c :: text))%Z) by (unfold len; simpl; lia).
  assert (Hend : chunk_end (c :: text) size 0 = size).
  { unfold chunk_end. simpl Z.add.
    destruct (size <? len (c :: text))%Z eqn:E; auto.
    apply Z.ltb_lt in E. lia. }
  cbn [chunk_loop].
  destruct (0 <? len (c :: text))%Z eqn:E0; [|apply Z.ltb_ge in E0; lia].
  rewrite Hend.
  destruct (size <? len (c :: text))%Z eqn:E1; [apply Z.ltb_lt in E1; lia|].
  rewrite slice_all by exact Hfit. reflexivity.
Qed.

Lemma chunk_text_single_window_witness :
  chunk_text 2 (lit " one line ") 6000 None = Some [lit "one line"].
Proof.
  apply (@chunk_text_single_window 2 (lit " one line ") 6000 None).
  - vm_compute. discriminate.
  - lia.
Defined.

Lemma chunk_loop_zero_size (fuel : nat) : forall text acc,
  (0 < len text)%Z -> chunk_loop fuel text 0 0 acc = None.
Proof.
  induction fuel as [|fuel IH]; intros text acc Hpos; [reflexivity|].
  cbn [chunk_loop].
  destruct (0 <? len text)%Z eqn:E; [|apply Z.ltb_ge in E; lia].
  assert (Hend : chunk_end text 0 0 = 0%Z).
  { unfold chunk_end. simpl Z.add. rewrite E.
    unfold rfind. rewrite !clamp_index_id by lia. reflexivity. }
  rewrite Hend. now apply IH.
Qed.

(** X3. With an effective size of zero ([chunk_size] 0 and [max_chars]
    absent or 0) the loop never moves on a text that is not empty: no
    amount of fuel gives a result. *)
Theorem chunk_text_zero_size_no_result :
  forall (fuel : nat) (text : pystr) (chunk_size : Z) (max_chars : option Z),
    effective_size chunk_size max_chars = 0%Z ->
    text <> [] ->
    chunk_text fuel text chunk_size max_chars = None.
Proof.
  intros fuel text chunk_size max_chars Hsize Hne. unfold chunk_text.
  rewrite Hsize, chunk_loop_zero_size; auto.
  destruct text; [congruence | unfold len; simpl; lia].
Qed.

Lemma chunk_text_zero_size_no_result_witness :
  chunk_text 1000 (lit "abc") 0 (Some 0%Z) = None.
Proof.
  apply (@chunk_text_zero_size_no_result 1000 (lit "abc") 0 (Some 0%Z)).
  - reflexivity.
  - discriminate.
Defined.

Lemma startswith_char (s : pystr) (c : char) (i : nat) :
  startswith (skipn i s) [c] = true <-> nth_error s i = Some c.
Proof.
  revert s. induction i as [|i IH]; intros [|x s]; simpl;
    try (split; discriminate).
  - unfold char_eqb. rewrite andb_true_r, N.eqb_eq.
    split; [intros ->; reflexivity | intros H; now injection H].
  - apply IH.
Qed.

(** [rfind_from] answers the highest place of the scan where [sub] starts. *)
Lemma rfind_from_spec (sub s : pystr) (a : Z) (k : nat) :
  (0 <= a)%Z ->
  (rfind_from sub s a k = (-1)%Z
   /\ forall i, (a <= i < a + Z.of_nat k)%Z ->
                startswith (skipn (Z.to_nat i) s) sub = false)
  \/ ((a <= rfind_from sub s a k < a + Z.of_nat k)%Z
      /\ startswith (skipn (Z.to_nat (rfind_from sub s a k)) s) sub = true
      /\ forall i, (rfind_from sub s a k < i < a + Z.of_nat k)%Z ->
                   startswith (skipn (Z.to_nat i) s) sub = false).
Proof.
  intros Ha. induction k as [|k IH]; simpl rfind_from.
  - left. split; auto. intros i Hi. lia.
  - destruct (startswith (skipn (Z.to_nat (a + Z.of_nat k)) s) sub) eqn:E.
    + right. split; [lia|]. split; [exact E|]. intros i Hi. lia.
    + destruct IH as [[H1 H2]|(H1 & H2 & H3)].
      * left. split; auto. intros i Hi.
        destruct (Z.eq_dec i (a + Z.of_nat k)) as [->|Hne]; auto.
        apply H2. lia.
      * right. split; [lia|]. split; auto. intros i Hi.
        destruct (Z.eq_dec i (a + Z.of_nat k)) as [->|Hne]; auto.
        apply H3. lia.
Qed.

(** X4. Where the window ends inside the text, the cut is either right
    before a newline after the window's first character, or a hard cut at
    the full size, and then there is no newline in the window after its
    first character. *)
Theorem chunk_end_line_boundary :
  forall (text : pystr) (size start : Z),
    (0 <= start)%Z -> (0 < size)%Z -> (start + size < len text)%Z ->
    ((start < chunk_end text size start < start + size)%Z
     /\ nth_error text (Z.to_nat (chunk_end text size start)) = Some NL)
    \/ (chunk_end text size start = (start + size)%Z
        /\ forall j, (start < j < start + size)%Z ->
                     nth_error text (Z.to_nat j) <> Some NL).
Proof.
  intros text size start Hs Hsize Hin. unfold chunk_end.
  destruct (start + size <? len text)%Z eqn:E; [|apply Z.ltb_ge in E; lia].
  unfold rfind. rewrite !clamp_index_id by lia.
  change (len [NL]) with 1%Z.
  destruct (start + size - start <? 1)%Z eqn:E1;
    [apply Z.ltb_lt in E1; lia|].
  set (k := Z.to_nat (start + size - start - 1 + 1)).
  assert (Hk : Z.of_nat k = size) by (unfold k; lia).
  destruct (@rfind_from_spec [NL] text start k Hs) as [[H1 H2]|(H1 & H2 & H3)].
  - rewrite H1. right.
    destruct (-1 >? start)%Z eqn:G; [apply Z.gtb_lt in G; lia|].
    split; [reflexivity|]. intros j Hj Hnth.
    apply startswith_char in Hnth. rewrite H2 in Hnth by lia. discriminate.
  - destruct (rfind_from [NL] text start k >? start)%Z eqn:G.
    + apply Z.gtb_lt in G. left. split; [lia|].
      now apply startswith_char.
    + right. split; [reflexivity|]. intros j Hj Hnth.
      assert (G' : (rfind_from [NL] text start k <= start)%Z).
      { destruct (Z.gtb_spec (rfind_from [NL] text start k) start);
          [discriminate | lia]. }
      apply startswith_char in Hnth. rewrite H3 in Hnth by lia. discriminate.
Qed.

Lemma chunk_end_line_boundary_witness :
  ((0 < chunk_end (lit "ab
cdefgh") 5 0 < 0 + 5)%Z
   /\ nth_error (lit "ab
cdefgh") (Z.to_nat (chunk_end (lit "ab
cdefgh") 5 0)) = Some NL)
  \/ (chunk_end (lit "ab
cdefgh") 5 0 = (0 + 5)%Z
      /\ forall j, (0 < j < 0 + 5)%Z ->
                   nth_error (lit "ab
cdefgh") (Z.to_nat j) <> Some NL).
Proof.
  apply (@chunk_end_line_boundary (lit "ab
cdefgh") 5 0); [lia | lia | vm_compute; reflexivity].
Defined.

(* ================================================================== *)
(** * ai_parser.py: more about deduplication                           *)
(* ================================================================== *)

Lemma first_seen_spec_In (rows : list dict) : forall before u,
  In u (first_seen_spec before rows) -> In u rows.
Proof.
  induction rows as [|r rows IH]; intros before u H; [contradiction|].
  simpl in H. destruct (key_of r) as [k|].
  - destruct (matches_before before k).
    + right. eapply IH; eauto.
    + destruct H as [<-|H]; [now left | right; eapply IH; eauto].
  - right. eapply IH; eauto.
Qed.

Lemma first_seen_spec_distinct (rows : list dict) : forall before,
  Forall is_transaction rows ->
  (forall u k, In u (first_seen_spec before rows) -> key_of u = Some k ->
               matches_before before k = false)
  /\ distinct_keys (first_seen_spec before rows).
Proof.
  induction rows as [|r0 rows IH]; intros before Hall.
  { split; [intros u k [] | exact I]. }
  inversion Hall as [|? ? H0 Hrest]; subst.
  destruct H0 as (d & vd & desc & deb & cr & bal & ->).
  set (r0 := transaction d vd desc deb cr bal) in *.
  set (k0 := (d, slice_to desc 40, deb, cr)).
  assert (Hk0 : key_of r0 = Some k0) by reflexivity.
  rewrite (@first_seen_spec_cons r0 rows before k0 Hk0).
  destruct (IH (before ++ [r0]) Hrest) as [Hnone Hdist].
  assert (Hlater : forall u k, In u (first_seen_spec (before ++ [r0]) rows) ->
                     key_of u = Some k ->
                     matches_before before k = false
                     /\ key_eqb k k0 = false).
  { intros u k Hu Hk. specialize (Hnone u k Hu Hk).
    rewrite (@matches_before_snoc before r0 k0 k Hk0) in Hnone.
    now apply orb_false_iff in Hnone. }
  destruct (matches_before before k0) eqn:Em.
  - split; [|exact Hdist]. intros u k Hu Hk. now apply (Hlater u k).
  - split.
    + intros u k [<-|Hu] Hk.
      * rewrite Hk0 in Hk. now injection Hk as <-.
      * now apply (Hlater u k).
    + split; [|exact Hdist].
      intros r' k k' Hr' Hk Hk'. rewrite Hk0 in Hk. injection Hk as <-.
      now apply (Hlater r' k').
Qed.

Lemma first_seen_spec_fixed (rows : list dict) : forall before,
  Forall is_transaction rows ->
  (forall u k, In u rows -> key_of u = Some k ->
               matches_before before k = false) ->
  distinct_keys rows ->
  first_seen_spec before rows = rows.
Proof.
  induction rows as [|r0 rows IH]; intros before Hall Hnone Hdist;
    [reflexivity|].
  inversion Hall as [|? ? H0 Hrest]; subst.
  destruct H0 as (d & vd & desc & deb & cr & bal & ->).
  set (r0 := transaction d vd desc deb cr bal) in *.
  set (k0 := (d, slice_to desc 40, deb, cr)).
  assert (Hk0 : key_of r0 = Some k0) by reflexivity.
  rewrite (@first_seen_spec_cons r0 rows before k0 Hk0).
  rewrite (Hnone r0 k0 (or_introl eq_refl) Hk0).
  destruct Hdist as [Hhead Htail].
  f_equal. apply IH; auto.
  intros u k Hu Hk.
  rewrite (@matches_before_snoc before r0 k0 k Hk0).
  rewrite (Hnone u k (or_intror Hu) Hk). simpl.
  now apply (Hhead u k0 k).
Qed.

Lemma first_seen_spec_transactions (rows : list dict) (before : list dict) :
  Forall is_transaction rows ->
  Forall is_transaction (first_seen_spec before rows).
Proof.
  intros H. apply Forall_forall. intros u Hu.
  rewrite Forall_forall in H. apply H. eapply first_seen_spec_In; eauto.
Qed.

Lemma deduplicate_spec (rows : list dict) :
  Forall is_transaction rows ->
  deduplicate rows = Some (first_seen_spec [] rows).
Proof.
  intros H. unfold deduplicate.
  rewrite dedup_loop_first_seen with (before := []); auto.
Qed.

(** X5. After deduplication no two records have equal keys: the key of a
    kept record equals the key of no record kept before it. *)
Theorem deduplicate_distinct_keys :
  forall rows : list dict,
    Forall is_transaction rows ->
    exists unique,
      deduplicate rows = Some unique /\ distinct_keys unique.
Proof.
  intros rows H. exists (first_seen_spec [] rows).
  split; [now apply deduplicate_spec|].
  now apply first_seen_spec_distinct.
Qed.

Lemma deduplicate_distinct_keys_witness :
  exists unique,
    deduplicate [transaction (lit "01/12") [] (lit "POS") zero zero zero;
                 transaction (lit "01/12") [] (lit "POS") zero zero
                             (Fin (1 # 1))]
    = Some unique
    /\ distinct_keys unique.
Proof.
  apply deduplicate_distinct_keys.
  repeat constructor; unfold is_transaction; do 6 eexists; reflexivity.
Defined.

Lemma spec_same_key_trans (a b c : fields) :
  spec_same_key a b = true -> spec_same_key b c = true ->
  spec_same_key a c = true.
Proof.
  unfold spec_same_key. rewrite !andb_true_iff.
  intros [[[H1 H2] H3] H4] [[[G1 G2] G3] G4].
  repeat split; eauto using pystr_eqb_trans, float_eqb_trans.
Qed.

Lemma spec_dedup_In (fs : list fields) : forall before u,
  In u (spec_dedup before fs) -> In u fs.
Proof.
  induction fs as [|x fs IH]; intros before u H; [exact H|].
  cbn [spec_dedup] in H.
  destruct (existsb (spec_same_key x) before).
  - right. eapply IH; eauto.
  - destruct H as [<-|H]; [now left | right; eapply IH; eauto].
Qed.

Lemma spec_dedup_covers (fs : list fields) : forall before r,
  In r fs -> spec_same_key r r = true ->
  existsb (spec_same_key r) before = true
  \/ exists u, In u (spec_dedup before fs) /\ spec_same_key r u = true.
Proof.
  induction fs as [|x fs IH]; intros before r Hin Hself; [contradiction|].
  cbn [spec_dedup].
  destruct (existsb (spec_same_key x) before) eqn:Ex.
  - destruct Hin as [->|Hin]; [now left|].
    destruct (IH (before ++ [x]) r Hin Hself) as [Hm|(u & Hu & E)].
    + rewrite existsb_app in Hm. cbn [existsb] in Hm.
      rewrite orb_false_r in Hm.
      apply orb_true_iff in Hm as [Hm|Hm]; [now left|].
      left. apply existsb_exists in Ex as (p & Hp & Exp).
      apply existsb_exists. exists p. split; [exact Hp|].
      eapply spec_same_key_trans; eauto.
    + right. eauto.
  - destruct Hin as [->|Hin].
    { right. exists r. split; [now left | exact Hself]. }
    destruct (IH (before ++ [x]) r Hin Hself) as [Hm|(u & Hu & E)].
    + rewrite existsb_app in Hm. cbn [existsb] in Hm.
      rewrite orb_false_r in Hm.
      apply orb_true_iff in Hm as [Hm|Hm]; [now left|].
      right. exists x. split; [now left | exact Hm].
    + right. exists u. split; [now right | exact E].
Qed.

(** X6. Deduplication invents nothing and loses no transaction, the key
    being read off the fields of the records: every record it returns is
    a record of the input, and every record of the input that equals
    itself on date, first 40 characters of the description, debit and
    credit (no NaN amount in it) has in the result a record with the same
    four. *)
Theorem deduplicate_covers :
  forall fs : list fields,
    exists kept,
      deduplicate (map record_of fs) = Some (map record_of kept)
      /\ (forall u, In u kept -> In u fs)
      /\ (forall r, In r fs -> spec_same_key r r = true ->
                    exists u, In u kept /\ spec_same_key r u = true).
Proof.
  intros fs. exists (spec_dedup [] fs).
  split; [apply deduplicate_fields|]. split.
  - intros u. apply spec_dedup_In.
  - intros r Hin Hself.
    destruct (@spec_dedup_covers fs [] r Hin Hself) as [Hm|H];
      [discriminate | exact H].
Qed.

Lemma deduplicate_covers_witness :
  exists u,
    In u (spec_dedup []
            [ {| f_date := lit "01/12"; f_value_date := [];
                 f_description := lit "POS"; f_debit := Fin (5 # 1);
                 f_credit := zero; f_balance := Fin (10 # 1) |};
              {| f_date := lit "01/12"; f_value_date := [];
                 f_description := lit "POS"; f_debit := Fin (5 # 1);
                 f_credit := zero; f_balance := Fin (5 # 1) |};
              {| f_date := lit "02/12"; f_value_date := [];
                 f_description := lit "ATM"; f_debit := zero;
                 f_credit := Fin (7 # 1); f_balance := Fin (12 # 1) |} ])
    /\ spec_same_key
         {| f_date := lit "01/12"; f_value_date := [];
            f_description := lit "POS"; f_debit := Fin (5 # 1);
            f_credit := zero; f_balance := Fin (5 # 1) |} u = true.
Proof.
  destruct (deduplicate_covers
              [ {| f_date := lit "01/12"; f_value_date := [];
                   f_description := lit "POS"; f_debit := Fin (5 # 1);
                   f_credit := zero; f_balance := Fin (10 # 1) |};
                {| f_date := lit "01/12"; f_value_date := [];
                   f_description := lit "POS"; f_debit := Fin (5 # 1);
                   f_credit := zero; f_balance := Fin (5 # 1) |};
                {| f_date := lit "02/12"; f_value_date := [];
                   f_description := lit "ATM"; f_debit := zero;
                   f_credit := Fin (7 # 1); f_balance := Fin (12 # 1) |} ])
    as (kept & _ & Hsub & Hcov).
  destruct (Hcov {| f_date := lit "01/12"; f_value_date := [];
                    f_description := lit "POS"; f_debit := Fin (5 # 1);
                    f_credit := zero; f_balance := Fin (5 # 1) |})
    as (u & Hu & E); [simpl; tauto | reflexivity |].
  exists {| f_date := lit "01/12"; f_value_date := [];
            f_description := lit "POS"; f_debit := Fin (5 # 1);
            f_credit := zero; f_balance := Fin (10 # 1) |}.
  split; [now left | reflexivity].
Defined.

(** X7. Deduplication is idempotent: run on its own result it returns the
    result unchanged. *)
Theorem deduplicate_idempotent :
  forall rows unique : list dict,
    Forall is_transaction rows ->
    deduplicate rows = Some unique ->
    deduplicate unique = Some unique.
Proof.
  intros rows unique H E.
  rewrite deduplicate_spec in E by exact H. injection E as <-.
  destruct (@first_seen_spec_distinct rows [] H) as [_ Hdist].
  rewrite deduplicate_spec by (now apply first_seen_spec_transactions).
  f_equal. apply first_seen_spec_fixed; auto.
  now apply first_seen_spec_transactions.
Qed.

Lemma deduplicate_idempotent_witness :
  deduplicate [transaction (lit "01/12") [] (lit "POS") zero zero zero]
  = Some [transaction (lit "01/12") [] (lit "POS") zero zero zero].
Proof.
  apply (@deduplicate_idempotent
           [transaction (lit "01/12") [] (lit "POS") zero zero zero;
            transaction (lit "01/12") [] (lit "POS") zero zero
                        (Fin (1 # 1))]).
  - repeat constructor; unfold is_transaction; do 6 eexists; reflexivity.
  - reflexivity.
Defined.

Lemma transactions_fields (rows : list dict) :
  Forall is_transaction rows -> exists fs, rows = map record_of fs.
Proof.
  induction 1 as [|r rows Hr _ (fs & ->)]; [exists []; reflexivity|].
  destruct Hr as (d & vd & desc & deb & cr & bal & ->).
  exists ({| f_date := d; f_value_date := vd; f_description := desc;
             f_debit := deb; f_credit := cr; f_balance := bal |} :: fs).
  reflexivity.
Qed.

(** X8. For a positive chunk size [parse] returns: the text is chunked,
    every chunk is parsed on its own, a chunk whose call fails gives no
    record, all the records are normalized records, and the result is
    what the specification's deduplication keeps of the records of all
    the chunks in chunk order: those for which no record before them has
    the same date, first 40 characters of the description, debit and
    credit. *)
Theorem parse_returns_first_seen :
  forall (json_loads : pystr -> option json) (py_repr : json -> pystr)
         (complete : pystr -> option pystr)
         (text : pystr) (chunk_size : Z) (fuel : nat),
    (0 < effective_size 6000 (Some chunk_size))%Z ->
    (length text < fuel)%nat ->
    exists chunks fs,
      chunk_text fuel text 6000 (Some chunk_size) = Some chunks
      /\ flat_map (_parse_chunk json_loads py_repr complete) chunks
         = map record_of fs
      /\ parse json_loads py_repr complete fuel text chunk_size
         = Some (map record_of (spec_dedup [] fs))
      /\ (forall chunk, complete chunk = None ->
            _parse_chunk json_loads py_repr complete chunk = []).
Proof.
  intros json_loads py_repr complete text chunk_size fuel Hsize Hfuel.
  destruct (@parse_first_seen json_loads py_repr complete text chunk_size
              fuel Hsize Hfuel) as (chunks & Hc & Hp).
  assert (Ht : Forall is_transaction
                 (flat_map (_parse_chunk json_loads py_repr complete)
                           chunks)).
  { apply Forall_flat_map, Forall_forall. intros chunk _.
    apply parse_chunk_transactions. }
  destruct (transactions_fields Ht) as (fs & Efs).
  exists chunks, fs. split; [exact Hc|]. split; [exact Efs|]. split.
  - rewrite Hp, Efs. f_equal. exact (first_seen_fields fs []).
  - intros chunk Hfail. unfold _parse_chunk. now rewrite Hfail.
Qed.

Lemma parse_returns_first_seen_witness :
  exists chunks fs,
    chunk_text 29 three_lines 6000 (Some 10%Z) = Some chunks
    /\ flat_map (_parse_chunk py_json_loads (fun _ => []) sample_model)
                chunks
       = map record_of fs
    /\ parse py_json_loads (fun _ => []) sample_model 29 three_lines 10
       = Some (map record_of (spec_dedup [] fs))
    /\ (forall chunk, sample_model chunk = None ->
          _parse_chunk py_json_loads (fun _ => []) sample_model chunk = []).
Proof.
  apply parse_returns_first_seen; [reflexivity | vm_compute; lia].
Defined.

(* ================================================================== *)
(** * ai_parser.py: more about the salvage cascade                     *)
(* ================================================================== *)

Lemma span_no_brace_spec (s : pystr) :
  s = fst (span_no_brace s) ++ snd (span_no_brace s)
  /\ forall c, In c (fst (span_no_brace s)) -> c <> 123%N /\ c <> 125%N.
Proof.
  induction s as [|c s [IH1 IH2]]; simpl.
  - split; [reflexivity | intros c []].
  - destruct ((c =? 123)%N || (c =? 125)%N) eqn:E.
    + split; [reflexivity | intros x []].
    + destruct (span_no_brace s) as [run rest]. simpl in *.
      split; [now f_equal|].
      apply orb_false_iff in E as [E1 E2].
      apply N.eqb_neq in E1, E2.
      intros x [<-|Hx]; auto.
Qed.

Lemma occurs_here (o x : pystr) : occurs (o ++ x) o = true.
Proof.
  destruct o as [|c o]; [destruct x; reflexivity|].
  change (occurs ((c :: o) ++ x) (c :: o))
    with (startswith ((c :: o) ++ x) (c :: o) || occurs (o ++ x) (c :: o)).
  rewrite (startswith_app (c :: o) x). reflexivity.
Qed.

Lemma occurs_later (a b o : pystr) :
  occurs b o = true -> occurs (a ++ b) o = true.
Proof.
  induction a as [|c a IH]; intros H; auto.
  simpl app. cbn [occurs]. rewrite IH by exact H. apply orb_true_r.
Qed.

Lemma occurs_here_eq (s o x : pystr) : s = o ++ x -> occurs s o = true.
Proof. intros ->. apply occurs_here. Qed.

Lemma occurs_later_eq (s a b o : pystr) :
  s = a ++ b -> occurs b o = true -> occurs s o = true.
Proof. intros ->. apply occurs_later. Qed.

Lemma findall_objects_shape (fuel : nat) : forall s o,
  In o (findall_objects fuel s) -> flat_object_text o /\ occurs s o = true.
Proof.
  induction fuel as [|fuel IH]; intros s o H; [contradiction|].
  destruct s as [|c r]; [contradiction|].
  cbn [findall_objects] in H.
  assert (Hskip : In o (findall_objects fuel r) ->
                  flat_object_text o /\ occurs (c :: r) o = true).
  { intros Hin. destruct (IH r o Hin) as [Hf Ho]. split; auto.
    now apply (occurs_later [c]). }
  destruct (c =? 123)%N eqn:Ec; [|now apply Hskip].
  apply N.eqb_eq in Ec. subst c.
  destruct (span_no_brace_spec r) as [Hr Hrun].
  destruct (span_no_brace r) as [run rest]. simpl in Hr, Hrun.
  destruct run as [|x run]; [now apply Hskip|].
  destruct rest as [|y rest]; [now apply Hskip|].
  destruct (N.eq_dec y 125) as [->|Hy].
  - destruct H as [<-|H].
    + split.
      * exists (x :: run). split; [reflexivity|]. split; [discriminate|auto].
      * subst r. apply occurs_here_eq with (x := rest).
        simpl. now rewrite <- app_assoc.
    + destruct (IH rest o H) as [Hf Ho]. split; auto. subst r.
      apply (@occurs_later_eq _ (123%N :: (x :: run) ++ [125%N]) rest o);
        [|exact Ho].
      simpl. now rewrite <- app_assoc.
  - destruct y as [|p]; try (now apply Hskip).
    repeat (destruct p as [p|p|]; try (now apply Hskip)).
Qed.

(** X9. Whatever the parser, the result of [_extract_json] is a list,
    unless strategy 1 or 2 parsed a mapping with a [transactions] key:
    then it is the value under that key, of whatever type. *)
Theorem extract_json_list_unless_transactions :
  forall (json_loads : pystr -> option json) (raw : pystr),
    is_list (_extract_json json_loads raw) = true
    \/ exists text d,
        (text = raw \/ text = fence_stripped raw)
        /\ json_loads text = Some (JDict d)
        /\ dict_get (lit "transactions") d
           = Some (_extract_json json_loads raw).
Proof. exact extract_json_list_or_transactions. Qed.

(** X10. Every value strategy 5 collects was parsed from a piece of the
    reply that is a pair of braces around a non-empty text without
    braces: the salvage never reads an object with an object inside, nor
    the empty object. *)
Theorem strategy_objects_flat :
  forall (json_loads : pystr -> option json) (cleaned : pystr) (v : json),
    In v (strategy_objects json_loads cleaned) ->
    exists o, json_loads o = Some v
              /\ flat_object_text o
              /\ occurs cleaned o = true.
Proof.
  intros json_loads cleaned v H. unfold strategy_objects in H.
  apply in_flat_map in H as (o & Ho & Hv).
  destruct (json_loads o) as [w|] eqn:E; [|contradiction].
  destruct Hv as [<-|[]].
  destruct (findall_objects_shape _ _ _ Ho) as [Hf Hocc].
  exists o. auto.
Qed.

Lemma strategy_objects_flat_witness :
  exists o, py_json_loads o = Some (JDict [(lit "a", JInt 1)])
            /\ flat_object_text o
            /\ occurs (lit "see {" ++ quoted "a" ++ lit ":1} and {}") o = true.
Proof.
  apply (@strategy_objects_flat py_json_loads
           (lit "see {" ++ quoted "a" ++ lit ":1} and {}")).
  vm_compute. tauto.
Defined.

Lemma sub_fences_cons (a : char) (t : pystr) :
  (a =? 96)%N = false -> sub_fences (a :: t) = a :: sub_fences t.
Proof.
  intros Ha. destruct t as [|b [|c r]]; cbn [sub_fences]; auto.
  unfold is_fence. now rewrite Ha.
Qed.

Lemma sub_fences_closing (x : pystr) :
  (forall c, In c x -> c <> 96%N) -> sub_fences (x ++ lit "```") = x.
Proof.
  induction x as [|a x IH]; intros H; [reflexivity|].
  simpl app. rewrite sub_fences_cons by (apply N.eqb_neq, H; now left).
  f_equal. apply IH. intros c Hc. apply H. now right.
Qed.

(** X11. A reply wrapped in a code fence that opens with the word json,
    in any letter case, and that holds no other backtick, is read through
    strategy 2: when the text between the
    fences, stripped, parses to an accepted document, that document is
    the result (provided the raw reply itself did not parse). *)
Theorem fenced_reply_recovered :
  forall (json_loads : pystr -> option json) (j s o n : char)
         (body : pystr) (v : json),
    is_json_word j s o n = true ->
    (forall c, In c body -> c <> 96%N) ->
    strategy_direct json_loads (lit "```" ++ [j; s; o; n] ++ body ++ lit "```")
    = None ->
    strategy_direct json_loads (strip body) = Some v ->
    fence_stripped (lit "```" ++ [j; s; o; n] ++ body ++ lit "```")
    = strip body
    /\ _extract_json json_loads
                     (lit "```" ++ [j; s; o; n] ++ body ++ lit "```") = v.
Proof.
  intros json_loads j s o n body v Hword Hbody Hraw Hclean.
  assert (Hf : fence_stripped (lit "```" ++ [j; s; o; n] ++ body ++ lit "```")
               = strip body).
  { unfold fence_stripped. f_equal.
    change (lit "```" ++ [j; s; o; n] ++ body ++ lit "```")
      with (96%N :: 96%N :: 96%N :: j :: s :: o :: n :: (body ++ lit "```")).
    cbn [sub_fences]. change (is_fence 96 96 96) with true. cbv iota.
    rewrite Hword. now apply sub_fences_closing. }
  split; [exact Hf|].
  unfold _extract_json. now rewrite Hraw, Hf, Hclean.
Qed.

Lemma fenced_reply_recovered_witness :
  _extract_json py_json_loads
    (lit "```" ++ lit "JSON" ++ lit "
[1, 2]
" ++ lit "```")
  = JList [JInt 1; JInt 2].
Proof.
  refine (proj2 (@fenced_reply_recovered py_json_loads 74 83 79 78
                   (lit "
[1, 2]
") (JList [JInt 1; JInt 2]) _ _ _ _)).
  - reflexivity.
  - intros c Hc. simpl in Hc.
    repeat (destruct Hc as [<-|Hc]; [discriminate|]). contradiction.
  - vm_compute. reflexivity.
  - vm_compute. reflexivity.
Defined.

(* ================================================================== *)
(** * extractor.py: more about the rows                                *)
(* ================================================================== *)

Lemma Qltb_false_le (a b : Q) : Qltb b a = false -> (a <= b)%Q.
Proof.
  unfold Qltb. rewrite negb_false_iff. apply Qle_bool_iff.
Qed.

Lemma by_x0_sorted (row : list token) :
  Sorted (fun a b => (token_x0 a <= token_x0 b)%Q) (sorted_by by_x0 row).
Proof.
  assert (H : Sorted (not_after by_x0) (sorted_by by_x0 row)).
  { apply sorted_by_sorted. intros a b. apply Qltb_asym. }
  induction H as [|a l Hl IH Hhd]; constructor; auto.
  destruct Hhd as [|b l Hab]; constructor.
  now apply Qltb_false_le.
Qed.

Lemma close_row_sorted (rows : list (list token)) (cur : list token) :
  Forall (Sorted (fun a b => (token_x0 a <= token_x0 b)%Q)) rows ->
  Forall (Sorted (fun a b => (token_x0 a <= token_x0 b)%Q))
         (close_row rows cur).
Proof.
  intros H. destruct cur as [|t cur]; unfold close_row; auto.
  apply Forall_app. split; auto. constructor; auto. apply by_x0_sorted.
Qed.

Lemma rows_loop_sorted (y_tol : Z) (ws : list word) : forall rows cur y,
  Forall (Sorted (fun a b => (token_x0 a <= token_x0 b)%Q)) rows ->
  Forall (Sorted (fun a b => (token_x0 a <= token_x0 b)%Q))
         (rows_loop y_tol ws rows cur y).
Proof.
  induction ws as [|w ws IH]; intros rows cur y H; simpl.
  - now apply close_row_sorted.
  - destruct (within y_tol (y0 w) y); apply IH; auto.
    now apply close_row_sorted.
Qed.

(** X12. In every row the row builder returns, the tokens stand left to
    right: the [x0] of a token is at most the [x0] of the next one. *)
Theorem rows_sorted_left_to_right :
  forall (word_list : list word) (y_tol : Z) (rows : list (list token)),
    _rows_from_words word_list y_tol = Some rows ->
    Forall (Sorted (fun a b => (token_x0 a <= token_x0 b)%Q)) rows.
Proof.
  intros word_list y_tol rows H. unfold _rows_from_words in H.
  destruct word_list as [|w0 ws]; [injection H as <-; constructor|].
  destruct (y_tol =? 0)%Z; [discriminate|].
  destruct (sorted_by _ (w0 :: ws)) as [|first rest]; [discriminate|].
  injection H as <-.
  exact (@rows_loop_sorted y_tol (first :: rest) [] [] (y0 first)
                           (Forall_nil _)).
Qed.

Lemma rows_sorted_left_to_right_witness :
  Forall (Sorted (fun a b => (token_x0 a <= token_x0 b)%Q))
         [[token_of (word_at 10 3 "b"); token_of (word_at 30 7 "a")]].
Proof.
  apply (@rows_sorted_left_to_right
           [word_at 30 7 "a"; word_at 10 3 "b"] 5).
  vm_compute. reflexivity.
Defined.

Lemma rows_loop_all_within (y_tol : Z) (y : Q) (ws : list word) :
  forall rows cur,
    (forall w, In w ws -> within y_tol (y0 w) y = true) ->
    rows_loop y_tol ws rows cur y
    = close_row rows (cur ++ map token_of ws).
Proof.
  induction ws as [|w ws IH]; intros rows cur H; simpl.
  - now rewrite app_nil_r.
  - rewrite (H w (or_introl eq_refl)).
    rewrite IH by (intros u Hu; apply H; now right).
    now rewrite <- app_assoc.
Qed.

(** X13. When every two words of the page are within the tolerance of each
    other, the row builder returns one row, and it holds all the tokens. *)
Theorem rows_single_row :
  forall (word_list : list word) (y_tol : Z),
    y_tol <> 0%Z -> word_list <> [] ->
    (forall a b, In a word_list -> In b word_list ->
                 within y_tol (y0 a) (y0 b) = true) ->
    exists row,
      _rows_from_words word_list y_tol = Some [row]
      /\ Permutation row (map token_of word_list).
Proof.
  intros word_list y_tol Htol Hne Hall. unfold _rows_from_words.
  destruct word_list as [|w0 ws]; [congruence|].
  destruct (Z.eqb_spec y_tol 0) as [E|_]; [congruence|].
  set (lt := fun a b => key_ltb (word_key y_tol a) (word_key y_tol b)).
  pose proof (sorted_by_perm lt (w0 :: ws)) as P.
  destruct (sorted_by lt (w0 :: ws)) as [|first rest] eqn:Es.
  { apply Permutation_length in P. discriminate. }
  rewrite rows_loop_all_within.
  - simpl app. unfold close_row.
    change (map token_of (first :: rest))
      with (token_of first :: map token_of rest).
    eexists. split; [reflexivity|].
    rewrite sorted_by_perm.
    exact (Permutation_map token_of P).
  - intros w Hw. apply Hall.
    + eapply Permutation_in; eauto.
    + eapply Permutation_in; [exact P | now left].
Qed.

Lemma rows_single_row_witness :
  exists row,
    _rows_from_words [word_at 30 7 "a"; word_at 10 3 "b"] 5 = Some [row]
    /\ Permutation row (map token_of [word_at 30 7 "a"; word_at 10 3 "b"]).
Proof.
  apply rows_single_row; try discriminate.
  intros a b [<-|[<-|[]]] [<-|[<-|[]]]; reflexivity.
Defined.

(* ================================================================== *)
(** * extractor.py and extract.py: page markers and missing content    *)
(* ================================================================== *)

Lemma space_prefix_bound (f : char -> bool) (c : char) :
  forall (l a x y : pystr),
    l ++ x = a ++ c :: y -> forallb f l = true -> f c = false ->
    (length l <= length a)%nat.
Proof.
  induction l as [|h l IH]; intros a x y E Hl Hc; simpl; [lia|].
  simpl in Hl. apply andb_true_iff in Hl as [Hh Hl].
  destruct a as [|h' a]; simpl in E.
  - injection E as <- _. congruence.
  - injection E as _ E. apply IH in E; auto. simpl. lia.
Qed.

(** Stripping removes what is outside the first and the last character
    that is not whitespace, at most. *)
Lemma strip_keeps_core (a m b : pystr) (c d : char) :
  py_isspace c = false -> py_isspace d = false ->
  (Z.of_nat (length m) + 2 <= len (strip (a ++ [c] ++ m ++ [d] ++ b)))%Z.
Proof.
  intros Hc Hd. set (s := a ++ [c] ++ m ++ [d] ++ b).
  destruct (strip_split s) as (l & r & Hs & Hl & Hr).
  assert (Ll : (length l <= length a)%nat).
  { apply (@space_prefix_bound py_isspace c l a (strip s ++ r)
                               (m ++ [d] ++ b));
      [now rewrite <- Hs | assumption | assumption]. }
  assert (Lr : (length r <= length b)%nat).
  { rewrite <- (length_rev r), <- (length_rev b).
    apply (@space_prefix_bound py_isspace d (rev r) (rev b)
             (rev (l ++ strip s)) (rev (a ++ [c] ++ m))).
    - transitivity (rev s).
      + rewrite <- rev_app_distr, <- app_assoc. now rewrite <- Hs.
      + assert (Es : s = (a ++ [c] ++ m) ++ d :: b)
          by (unfold s; now rewrite <- !app_assoc).
        rewrite Es, rev_app_distr. simpl rev at 1.
        now rewrite <- app_assoc.
    - rewrite forallb_forall in *. intros x Hx. apply Hr, in_rev, Hx.
    - exact Hd. }
  assert (Ls : length s = (length l + length (strip s) + length r)%nat)
    by (rewrite Hs at 1; rewrite !length_app; lia).
  assert (Ls' : length s = (length a + 1 + length m + 1 + length b)%nat)
    by (unfold s; rewrite !length_app; simpl; lia).
  unfold len. lia.
Qed.

Lemma join_head (sep x : pystr) (l : list pystr) :
  exists tail, join sep (x :: l) = x ++ tail.
Proof.
  destruct l as [|y l]; [exists []; simpl; now rewrite app_nil_r|].
  exists (sep ++ join sep (y :: l)). reflexivity.
Qed.

(** With four pages or more the markers alone pass the content test. *)
Lemma extract_pdf_long (doc : list page) :
  (4 <= length doc)%nat -> (65 <= len (strip (_extract_pdf doc)))%Z.
Proof.
  destruct doc as [|p1 [|p2 [|p3 [|p4 rest]]]]; simpl length; try lia.
  intros _. unfold _extract_pdf. cbn [page_blocks].
  destruct (join_head [NL] (page_block 4 (page_text p4))
                      (page_blocks 5 rest)) as (tail & Htail).
  change (join [NL] (page_block 1 (page_text p1)
                     :: page_block 2 (page_text p2)
                     :: page_block 3 (page_text p3)
                     :: page_block 4 (page_text p4) :: page_blocks 5 rest))
    with (page_block 1 (page_text p1) ++ [NL]
          ++ page_block 2 (page_text p2) ++ [NL]
          ++ page_block 3 (page_text p3) ++ [NL]
          ++ join [NL] (page_block 4 (page_text p4) :: page_blocks 5 rest)).
  rewrite Htail.
  set (m := lit "-- PAGE 1 ---" ++ [NL] ++ page_text p1 ++ [NL]
            ++ page_block 2 (page_text p2) ++ [NL]
            ++ page_block 3 (page_text p3) ++ [NL]
            ++ [NL] ++ lit "--- PAGE 4 --").
  assert (E : page_block 1 (page_text p1) ++ [NL]
              ++ page_block 2 (page_text p2) ++ [NL]
              ++ page_block 3 (page_text p3) ++ [NL]
              ++ page_block 4 (page_text p4) ++ tail
              = [NL] ++ [45%N] ++ m ++ [45%N]
                ++ ([NL] ++ page_text p4 ++ tail)).
  { unfold m, page_block.
    change (str_of_nat 1) with (lit "1"). change (str_of_nat 4) with (lit "4").
    repeat (progress (simpl; rewrite <- ?app_assoc)). reflexivity. }
  rewrite E.
  assert (Lm : (63 <= length m)%nat).
  { unfold m, page_block. rewrite !length_app. simpl. lia. }
  pose proof (@strip_keeps_core [NL] m ([NL] ++ page_text p4 ++ tail)
                                45%N 45%N eq_refl eq_refl) as H.
  apply Z.le_trans with (Z.of_nat (length m) + 2)%Z; [lia | exact H].
Qed.

(** X14. A PDF of four pages or more is never reported as having no
    content, whatever its pages hold and whatever the parser does: the
    page markers by themselves are 65 characters of document text. *)
Theorem long_pdf_never_no_content :
  forall (parse_text : pystr -> option (list dict)) (doc : list page),
    (4 <= length doc)%nat ->
    (65 <= len (strip (_extract_pdf doc)))%Z
    /\ main parse_text (PdfFile doc) <> NoContent.
Proof.
  intros parse_text doc Hlen.
  pose proof (extract_pdf_long doc Hlen) as H65.
  split; [exact H65|].
  unfold main. change (extract (PdfFile doc)) with (Some (_extract_pdf doc)).
  cbv iota beta.
  assert (Hne : nonempty (_extract_pdf doc) = true).
  { destruct (_extract_pdf doc); [vm_compute in H65; now elim H65 | reflexivity]. }
  rewrite Hne. simpl negb. simpl orb.
  destruct (len (strip (_extract_pdf doc)) <? 50)%Z eqn:E;
    [apply Z.ltb_lt in E; lia|].
  destruct (parse_text _) as [[|t ts]|]; discriminate.
Qed.

Lemma long_pdf_never_no_content_witness :
  (65 <= len (strip (_extract_pdf (repeat blank_page 4))))%Z
  /\ main (run_parse finds_nothing) (PdfFile (repeat blank_page 4))
     <> NoContent.
Proof.
  apply long_pdf_never_no_content. simpl. lia.
Defined.

(* ================================================================== *)
(** * extractor.py: columns                                            *)
(* ================================================================== *)

Lemma Qltb_lt (a b : Q) : Qltb a b = true -> (a < b)%Q.
Proof.
  unfold Qltb. rewrite negb_true_iff. intros H.
  apply Qnot_le_lt. intros Hle. apply Qle_bool_iff in Hle. congruence.
Qed.

(** [min_by] answers the first of the smallest: what stands before it is
    strictly larger, what stands after it is not smaller. *)
Lemma min_by_spec {A : Type} (key : A -> Q) (l : list A) :
  forall (pre : list A) (best : A) (mid : list A),
    (forall x, In x pre -> (key best < key x)%Q) ->
    (forall x, In x mid -> (key best <= key x)%Q) ->
    exists pre' post',
      pre ++ best :: mid ++ l = pre' ++ min_by key best l :: post'
      /\ (forall x, In x pre' -> (key (min_by key best l) < key x)%Q)
      /\ (forall x, In x post' -> (key (min_by key best l) <= key x)%Q).
Proof.
  induction l as [|x l IH]; intros pre best mid Hpre Hmid; simpl.
  - exists pre, mid. rewrite app_nil_r. auto.
  - destruct (Qltb (key x) (key best)) eqn:E.
    + apply Qltb_lt in E.
      destruct (IH (pre ++ best :: mid) x []) as (pre' & post' & H1 & H2 & H3).
      * intros y Hy. apply in_app_or in Hy as [Hy|[<-|Hy]]; auto.
        -- eapply Qlt_trans; eauto.
        -- eapply Qlt_le_trans; eauto.
      * intros y [].
      * exists pre', post'. split; auto.
        rewrite <- H1. rewrite <- app_assoc. reflexivity.
    + apply Qltb_false_le in E.
      destruct (IH pre best (mid ++ [x])) as (pre' & post' & H1 & H2 & H3);
        auto.
      * intros y Hy. apply in_app_or in Hy as [Hy|[<-|[]]]; auto.
      * exists pre', post'. split; auto.
        rewrite <- H1. rewrite <- app_assoc. reflexivity.
Qed.

(** X15. With no column map the nearest column is [description].
    Otherwise it is a key of the map whose centre is nearest to the
    token's: keys before it in the map are strictly farther, keys after it
    are not nearer, so of two columns at the same distance the one put in
    the map first wins. *)
Theorem nearest_col_first_closest :
  forall (cx : Q) (col_map : colmap),
    _nearest_col cx [] = lit "description"
    /\ (col_map <> [] ->
        exists pre post,
          map fst col_map = pre ++ _nearest_col cx col_map :: post
          /\ (forall c, In c pre ->
                (column_distance cx col_map (_nearest_col cx col_map)
                 < column_distance cx col_map c)%Q)
          /\ (forall c, In c post ->
                (column_distance cx col_map (_nearest_col cx col_map)
                 <= column_distance cx col_map c)%Q)).
Proof.
  intros cx col_map. split; [reflexivity|]. intros Hne.
  unfold _nearest_col.
  destruct (map fst col_map) as [|c rest] eqn:E.
  { destruct col_map; [congruence | discriminate]. }
  destruct (@min_by_spec _ (column_distance cx col_map) rest [] c [])
    as (pre & post & H1 & H2 & H3); try (intros x []).
  exists pre, post. auto.
Qed.

Lemma nearest_col_first_closest_witness :
  exists pre post,
    map fst [(lit "date", 10%Q); (lit "debit", 30%Q)]
    = pre ++ _nearest_col 20 [(lit "date", 10%Q); (lit "debit", 30%Q)] :: post
    /\ (forall c, In c pre ->
          (column_distance 20 [(lit "date", 10%Q); (lit "debit", 30%Q)]
             (_nearest_col 20 [(lit "date", 10%Q); (lit "debit", 30%Q)])
           < column_distance 20 [(lit "date", 10%Q); (lit "debit", 30%Q)] c)%Q)
    /\ (forall c, In c post ->
          (column_distance 20 [(lit "date", 10%Q); (lit "debit", 30%Q)]
             (_nearest_col 20 [(lit "date", 10%Q); (lit "debit", 30%Q)])
           <= column_distance 20 [(lit "date", 10%Q); (lit "debit", 30%Q)] c)%Q).
Proof.
  apply (proj2 (nearest_col_first_closest 20
                  [(lit "date", 10%Q); (lit "debit", 30%Q)])).
  discriminate.
Defined.

Lemma nearest_col_key (cx : Q) (col_map : colmap) :
  col_map <> [] -> In (_nearest_col cx col_map) (map fst col_map).
Proof.
  intros Hne. unfold _nearest_col.
  destruct (map fst col_map) as [|c rest] eqn:E.
  { destruct col_map; [congruence | discriminate]. }
  destruct (@min_by_spec _ (column_distance cx col_map) rest [] c [])
    as (pre & post & H1 & _); try (intros x []).
  simpl in H1. rewrite H1. apply in_or_app. right. now left.
Qed.

(** ** Dictionaries *)

Lemma pydict_set_keys {V : Type} (k : pystr) (v : V) (d : list (pystr * V)) :
  map fst (pydict_set k v d)
  = if existsb (pystr_eqb k) (map fst d) then map fst d
    else map fst d ++ [k].
Proof.
  induction d as [|[k' v'] d IH]; simpl; auto.
  destruct (pystr_eqb k k'); simpl; auto.
  rewrite IH. now destruct (existsb (pystr_eqb k) (map fst d)).
Qed.

Lemma pydict_set_In {V : Type} (k : pystr) (v : V) (d : list (pystr * V))
      (c : pystr) (x : V) :
  In (c, x) (pydict_set k v d) -> (c = k /\ x = v) \/ In (c, x) d.
Proof.
  induction d as [|[k' v'] d IH]; simpl.
  - intros [H|[]]. injection H as <- <-. now left.
  - destruct (pystr_eqb k k') eqn:E; simpl.
    + apply pystr_eqb_eq in E. subst k'.
      intros [H|H]; [injection H as <- <-; now left | now right; right].
    + intros [H|H]; [now right; left|].
      destruct (IH H) as [G|G]; [now left | now right; right].
Qed.

Lemma existsb_pystr_In (k : pystr) (l : list pystr) :
  existsb (pystr_eqb k) l = true <-> In k l.
Proof. exact (str_in_In k l). Qed.

Section PositionalFacts.

Variables _DATE_KW _DESC_KW _DEBIT_KW _CREDIT_KW _BALANCE_KW : pystr -> bool.

Lemma header_column_name (t c : pystr) :
  header_column _DATE_KW _DESC_KW _DEBIT_KW _CREDIT_KW
                    _BALANCE_KW t = Some c -> In c column_names.
Proof.
  unfold header_column, column_names.
  destruct (_DATE_KW t); [intros H; injection H as <-; simpl; tauto|].
  destruct (_DESC_KW t); [intros H; injection H as <-; simpl; tauto|].
  destruct (_DEBIT_KW t); [intros H; injection H as <-; simpl; tauto|].
  destruct (_CREDIT_KW t); [intros H; injection H as <-; simpl; tauto|].
  destruct (_BALANCE_KW t); [intros H; injection H as <-; simpl; tauto|].
  discriminate.
Qed.

Lemma cluster_loop_invariant (hw : list (pystr * Q * Q)) :
  forall (all : list (pystr * Q * Q)) (cols : colmap),
    (forall w, In w hw -> In w all) ->
    NoDup (map fst cols) ->
    (forall c v, In (c, v) cols ->
       exists t a b,
         In (t, a, b) all
         /\ header_column _DATE_KW _DESC_KW _DEBIT_KW _CREDIT_KW
                          _BALANCE_KW t = Some c
         /\ v = centre a b) ->
    NoDup (map fst (cluster_loop _DATE_KW _DESC_KW _DEBIT_KW _CREDIT_KW
                                 _BALANCE_KW hw cols))
    /\ (forall c v,
          In (c, v) (cluster_loop _DATE_KW _DESC_KW _DEBIT_KW _CREDIT_KW
                                  _BALANCE_KW hw cols) ->
          exists t a b,
            In (t, a, b) all
            /\ header_column _DATE_KW _DESC_KW _DEBIT_KW _CREDIT_KW
                             _BALANCE_KW t = Some c
            /\ v = centre a b).
Proof.
  induction hw as [|[[t a] b] hw IH]; intros all cols Hall Hnd Hcols.
  { split; assumption. }
  cbn [cluster_loop].
  apply IH.
  - intros w Hw. apply Hall. now right.
  - destruct (header_column _DATE_KW _DESC_KW _DEBIT_KW _CREDIT_KW
                    _BALANCE_KW t) as [c|]; auto.
    rewrite pydict_set_keys.
    destruct (existsb (pystr_eqb c) (map fst cols)) eqn:E; auto.
    apply NoDup_app_remove_l with (l := []). simpl.
    rewrite <- (rev_involutive (map fst cols ++ [c])).
    apply NoDup_rev. rewrite rev_app_distr. simpl. constructor.
    + intros Hin. apply in_rev in Hin.
      apply existsb_pystr_In in Hin. congruence.
    + now apply NoDup_rev.
  - destruct (header_column _DATE_KW _DESC_KW _DEBIT_KW _CREDIT_KW
                    _BALANCE_KW t) as [c|] eqn:Ec; auto.
    intros c' v Hin. apply pydict_set_In in Hin as [[-> ->]|Hin]; auto.
    exists t, a, b. split; [apply Hall; now left | auto].
Qed.

(** X16. The column map read off a header row holds only names among the
    five columns, each at most once, and the centre it gives a column is
    the centre of a header word that names this column. *)
Theorem cluster_columns_sound :
  forall header_words : list (pystr * Q * Q),
    NoDup (map fst (_cluster_columns _DATE_KW _DESC_KW _DEBIT_KW _CREDIT_KW
                                     _BALANCE_KW header_words))
    /\ (forall c v,
          In (c, v) (_cluster_columns _DATE_KW _DESC_KW _DEBIT_KW _CREDIT_KW
                                      _BALANCE_KW header_words) ->
          In c column_names
          /\ exists t a b,
               In (t, a, b) header_words
               /\ header_column _DATE_KW _DESC_KW _DEBIT_KW _CREDIT_KW
                    _BALANCE_KW t = Some c
               /\ v = centre a b).
Proof.
  intros hw.
  destruct (@cluster_loop_invariant hw hw []) as [H1 H2]; auto.
  { constructor. }
  { intros c v []. }
  split; [exact H1|]. intros c v Hin.
  destruct (H2 c v Hin) as (t & a & b & Ht & Hc & Hv).
  split; [eapply header_column_name; eauto|]. eauto.
Qed.

Lemma cluster_columns_names (hw : list (pystr * Q * Q)) (c : pystr) :
  In c (map fst (_cluster_columns _DATE_KW _DESC_KW _DEBIT_KW _CREDIT_KW
                                  _BALANCE_KW hw)) ->
  In c column_names.
Proof.
  intros Hin. apply in_map_iff in Hin as ([c' v] & <- & Hin).
  destruct (@cluster_loop_invariant hw hw []) as [_ H2]; auto.
  { constructor. }
  { intros c0 v0 []. }
  destruct (H2 c' v Hin) as (t & a & b & _ & Hc & _).
  eapply header_column_name; eauto.
Qed.

End PositionalFacts.

(* ================================================================== *)
(** * extractor.py: the positional text of a page                      *)
(* ================================================================== *)

Lemma column_names_nodup : NoDup column_names.
Proof.
  unfold column_names.
  repeat (constructor; [simpl; intuition discriminate|]). constructor.
Qed.

Lemma keyed_get {V : Type} (f : pystr -> V) (names : list pystr) (c : pystr) :
  In c names -> pydict_get c (map (fun k => (k, f k)) names) = Some (f c).
Proof.
  induction names as [|k names IH]; [contradiction|].
  intros Hin. simpl. destruct (pystr_eqb c k) eqn:E.
  - apply pystr_eqb_eq in E. now subst.
  - destruct Hin as [->|Hin]; [|now apply IH].
    rewrite (proj2 (pystr_eqb_eq c c) eq_refl) in E. discriminate.
Qed.

Lemma keyed_set {V : Type} (f : pystr -> V) (names : list pystr) (c : pystr)
      (v : V) :
  NoDup names -> In c names ->
  pydict_set c v (map (fun k => (k, f k)) names)
  = map (fun k => (k, if pystr_eqb c k then v else f k)) names.
Proof.
  induction names as [|k names IH]; [contradiction|].
  intros Hnd Hin. inversion Hnd as [|? ? Hk Hnd']; subst. simpl.
  destruct (pystr_eqb c k) eqn:E.
  - apply pystr_eqb_eq in E. subst k. f_equal.
    apply map_ext_in. intros k' Hk'.
    destruct (pystr_eqb c k') eqn:E'; auto.
    apply pystr_eqb_eq in E'. subst. contradiction.
  - f_equal. apply IH; auto.
    destruct Hin as [->|Hin]; auto.
    rewrite (proj2 (pystr_eqb_eq c c) eq_refl) in E. discriminate.
Qed.

Lemma cells_of_ext (f g : pystr -> list pystr) :
  (forall c, In c column_names -> f c = g c) -> cells_of f = cells_of g.
Proof.
  intros H. unfold cells_of. apply map_ext_in. intros c Hc. now rewrite H.
Qed.

Lemma cells_append_cells_of (f : pystr -> list pystr) (col t : pystr) :
  In col column_names ->
  cells_append col t (cells_of f)
  = Some (cells_of (fun c => if pystr_eqb col c then f c ++ [t] else f c)).
Proof.
  intros Hin. unfold cells_append, cells_of.
  rewrite keyed_get by exact Hin.
  rewrite keyed_set by (auto using column_names_nodup).
  apply f_equal. apply map_ext_in. intros c Hc.
  destruct (pystr_eqb col c) eqn:E; auto.
  apply pystr_eqb_eq in E. now subst.
Qed.

Lemma fill_cells_cells_of (col_map : colmap) (row : list token) :
  col_map <> [] ->
  (forall c, In c (map fst col_map) -> In c column_names) ->
  forall f,
    fill_cells col_map row (cells_of f)
    = Some (cells_of (fun c => f c ++ map token_text
                                       (column_tokens col_map row c))).
Proof.
  intros Hne Hnames. induction row as [|t row IH]; intros f.
  - simpl. f_equal. apply cells_of_ext. intros c _. now rewrite app_nil_r.
  - cbn [fill_cells].
    rewrite cells_append_cells_of
      by (apply Hnames, nearest_col_key, Hne).
    rewrite IH. f_equal. apply cells_of_ext. intros c _.
    unfold column_tokens. cbn [filter].
    destruct (pystr_eqb (_nearest_col (token_centre t) col_map) c); auto.
    now rewrite <- app_assoc.
Qed.

Lemma cell_texts_cells_of (f : pystr -> list pystr) (names : list pystr) :
  (forall c, In c names -> In c column_names) ->
  cell_texts (cells_of f) names
  = Some (map (fun c => join (lit " ") (f c)) names).
Proof.
  induction names as [|c names IH]; intros H; [reflexivity|].
  cbn [cell_texts]. unfold cells_of at 1.
  rewrite keyed_get by (apply H; now left).
  rewrite IH by (intros c' Hc'; apply H; now right). reflexivity.
Qed.

(** The line of a row, field by field. *)
Lemma structured_line_fields (col_map : colmap) (row : list token) :
  col_map <> [] ->
  (forall c, In c (map fst col_map) -> In c column_names) ->
  structured_line col_map row
  = Some (join (lit " | ")
            (map (fun c => join (lit " ")
                                (map token_text
                                     (column_tokens col_map row c)))
                 column_names)).
Proof.
  intros Hne Hnames. unfold structured_line.
  change empty_cells with (cells_of (fun _ => [])).
  rewrite fill_cells_cells_of by assumption.
  rewrite cell_texts_cells_of by auto. reflexivity.
Qed.

(** X17. With a column map whose names are among the five columns, the
    line of a row never fails, and its five fields are, column by column
    in the fixed order, the texts of the row's tokens nearest to that
    column, in the order of the row, joined by single blanks; every token
    of the row is in the field of its nearest column and in no other. *)
Theorem structured_line_columns :
  forall (col_map : colmap) (row : list token),
    col_map <> [] ->
    (forall c, In c (map fst col_map) -> In c column_names) ->
    structured_line col_map row
    = Some (join (lit " | ")
              (map (fun c => join (lit " ")
                                  (map token_text
                                       (column_tokens col_map row c)))
                   column_names))
    /\ (forall t, In t row ->
          In (_nearest_col (token_centre t) col_map) column_names
          /\ forall c, In t (column_tokens col_map row c)
                       <-> c = _nearest_col (token_centre t) col_map).
Proof.
  intros col_map row Hne Hnames. split.
  - now apply structured_line_fields.
  - intros t Ht. split; [apply Hnames, nearest_col_key, Hne|].
    intros c. unfold column_tokens. rewrite filter_In, pystr_eqb_eq.
    split; [intros [_ H]; now symmetry | intros ->; auto].
Qed.

Lemma structured_line_columns_witness :
  structured_line [(lit "date", 5%Q); (lit "debit", 105%Q)]
                  [token_of (word_at 2 40 "01/12");
                   token_of (word_at 30 40 "POS");
                   token_of (word_at 95 40 "500")]
  = Some (lit "01/12 POS |  | 500 |  | ").
Proof.
  refine (eq_trans
            (proj1 (@structured_line_columns
                      [(lit "date", 5%Q); (lit "debit", 105%Q)]
                      [token_of (word_at 2 40 "01/12");
                       token_of (word_at 30 40 "POS");
                       token_of (word_at 95 40 "500")] _ _)) _).
  - discriminate.
  - intros c [<-|[<-|[]]]; simpl; tauto.
  - vm_compute. reflexivity.
Defined.

Lemma rows_from_words_some (word_list : list word) (y_tol : Z) :
  y_tol <> 0%Z -> exists rows, _rows_from_words word_list y_tol = Some rows.
Proof.
  intros Htol. unfold _rows_from_words.
  destruct word_list as [|w0 ws]; [eauto|].
  destruct (Z.eqb_spec y_tol 0) as [E|_]; [congruence|].
  set (lt := fun a b => key_ltb (word_key y_tol a) (word_key y_tol b)).
  pose proof (sorted_by_perm lt (w0 :: ws)) as P.
  destruct (sorted_by lt (w0 :: ws)) as [|first rest] eqn:Es; [|eauto].
  apply Permutation_length in P. discriminate.
Qed.

Lemma page_lines_some (col_map : colmap) (rows : list (list token)) :
  (forall c, In c (map fst col_map) -> In c column_names) ->
  exists lines, page_lines col_map rows = Some lines.
Proof.
  intros Hnames. induction rows as [|row rows [lines IH]]; [simpl; eauto|].
  cbn [page_lines].
  assert (Hline : exists line, row_line col_map row = Some line).
  { unfold row_line. destruct col_map as [|kv col_map]; [eauto|].
    eexists. apply structured_line_fields; [discriminate | exact Hnames]. }
  destruct Hline as [line ->]. rewrite IH. eauto.
Qed.

Section PageText.

Variables _DATE_KW _DESC_KW _DEBIT_KW _CREDIT_KW _BALANCE_KW : pystr -> bool.

Lemma find_header_names (rows : list (list token)) : forall i c,
  In c (map fst (fst (find_header _DATE_KW _DESC_KW _DEBIT_KW _CREDIT_KW
                                  _BALANCE_KW i rows))) ->
  In c column_names.
Proof.
  induction rows as [|row rows IH]; intros i c; simpl; [contradiction|].
  destruct (_is_header _ _ _ _); [|apply IH].
  simpl. apply cluster_columns_names.
Qed.

(** X18. Whatever the five header patterns match and whatever the words
    of the page, the positional extraction returns a text: the nearest
    column of a token is always one of the five lists of the row, so the
    lookup in [cells] never fails, and the tolerance is never zero. *)
Theorem extract_page_pymupdf_returns :
  forall word_list : list word,
    exists t,
      _extract_page_pymupdf _DATE_KW _DESC_KW _DEBIT_KW _CREDIT_KW
                            _BALANCE_KW word_list = Some t.
Proof.
  intros word_list. unfold _extract_page_pymupdf.
  destruct word_list as [|w ws]; [eauto|].
  destruct (@rows_from_words_some (w :: ws) 5) as [rows ->]; [discriminate|].
  destruct rows as [|row rows]; [eauto|].
  destruct (find_header _ _ _ _ _ 0 (row :: rows)) as [col_map idx] eqn:E.
  destruct (@page_lines_some col_map (skipn idx (row :: rows)))
    as [lines ->]; [|eauto].
  intros c Hc. apply (find_header_names (row :: rows) 0).
  now rewrite E.
Qed.

End PageText.

Lemma cluster_columns_sound_witness :
  In (lit "date") column_names
  /\ exists t a b,
       In (t, a, b) [(lit "Date", 0%Q, 10%Q); (lit "Debit", 100%Q, 120%Q)]
       /\ header_column (keyword "date") (keyword "description")
                        (keyword "debit") (keyword "credit")
                        (keyword "balance") t = Some (lit "date")
       /\ centre 0 10 = centre a b.
Proof.
  apply (proj2 (@cluster_columns_sound
                  (keyword "date") (keyword "description") (keyword "debit")
                  (keyword "credit") (keyword "balance")
                  [(lit "Date", 0%Q, 10%Q); (lit "Debit", 100%Q, 120%Q)])
               (lit "date") (centre 0 10)).
  left. reflexivity.
Defined.

(* ================================================================== *)
(** * extract.py and api.py: the name of the bank                      *)
(* ================================================================== *)

Lemma first_bank_app (a b : list (pystr * pystr)) (s : pystr) :
  first_bank (a ++ b) s
  = if existsb (fun kv => occurs s (fst kv)) a then first_bank a s
    else first_bank b s.
Proof.
  induction a as [|[key name] a IH]; simpl; auto.
  destruct (occurs s key); simpl; auto.
Qed.

Lemma first_bank_none (a : list (pystr * pystr)) (s : pystr) :
  existsb (fun kv => occurs s (fst kv)) a = false ->
  first_bank a s = lit "Unknown".
Proof.
  induction a as [|[key name] a IH]; simpl; auto.
  destruct (occurs s key); simpl; [discriminate | auto].
Qed.

(** X19. The command line and the HTTP service name the same bank for
    every text, except a text in which no key of the command line's table
    occurs and [jaiz] does: the service answers Jaiz Bank and the command
    line Unknown. *)
Theorem detect_bank_agreement :
  forall (py_lower : pystr -> pystr) (t : pystr),
    detect_bank py_lower t = _detect_bank py_lower t
    \/ (detect_bank py_lower t = lit "Unknown"
        /\ _detect_bank py_lower t = lit "Jaiz Bank"
        /\ occurs (py_lower t) (lit "jaiz") = true).
Proof.
  intros py_lower t. unfold detect_bank, _detect_bank, banks_api.
  rewrite first_bank_app.
  destruct (existsb (fun kv => occurs (py_lower t) (fst kv)) banks) eqn:E;
    [now left|].
  rewrite (first_bank_none banks _ E). cbn [first_bank].
  destruct (occurs (py_lower t) (lit "jaiz")) eqn:J; [right; auto | now left].
Qed.

(* ================================================================== *)
(** * ai_parser.py: the API key                                        *)
(* ================================================================== *)

Lemma scan_env_skip (pre rest : list pystr) :
  Forall (fun l => startswith (strip l) KEY_NAME = false) pre ->
  scan_env (pre ++ rest) = scan_env rest.
Proof.
  induction pre as [|l pre IH]; intros H; auto.
  inversion H as [|? ? Hl Hpre]; subst.
  simpl app. cbn [scan_env]. cbv zeta. rewrite Hl. auto.
Qed.

Lemma key_name_chars (c : char) :
  In c KEY_NAME -> py_isspace c = false /\ c <> 61%N.
Proof.
  unfold KEY_NAME. simpl. intros H.
  repeat (destruct H as [<-|H]; [split; [reflexivity | discriminate]|]).
  contradiction.
Qed.

(** X20. The first line of the [.env] file that starts with the name
    gives the key: for a line [OPENAI_API_KEY=value], with blanks (and
    the line end) around it, and a value that is bare or inside double
    or single quotes, [_load_key] returns the value without the quotes,
    whatever the lines after it and whatever the environment holds. *)
Theorem load_key_file_entry :
  forall (pre post : list pystr) (pad1 pad2 q k : pystr)
         (environ : option pystr),
    Forall (fun l => startswith (strip l) KEY_NAME = false) pre ->
    forallb py_isspace pad1 = true -> forallb py_isspace pad2 = true ->
    In q [[]; [DQ]; [39%N]] ->
    (forall c, In c k -> py_isspace c = false /\ c <> DQ /\ c <> 39%N) ->
    _load_key (Some (pre ++ [pad1 ++ (KEY_NAME ++ lit "=" ++ q ++ k ++ q)
                                  ++ pad2] ++ post)) environ
    = k.
Proof.
  intros pre post pad1 pad2 q k environ Hpre Hp1 Hp2 Hq Hk.
  unfold _load_key. rewrite scan_env_skip by exact Hpre.
  change ([pad1 ++ (KEY_NAME ++ lit "=" ++ q ++ k ++ q) ++ pad2] ++ post)
    with ((pad1 ++ (KEY_NAME ++ lit "=" ++ q ++ k ++ q) ++ pad2) :: post).
  cbn [scan_env]. cbv zeta.
  assert (Hqc : forall c, In c q -> c = DQ \/ c = 39%N).
  { simpl in Hq. destruct Hq as [<-|[<-|[<-|[]]]]; simpl; intuition. }
  assert (Hval : forall c, In c (q ++ k ++ q) -> py_isspace c = false).
  { intros c Hc. apply in_app_or in Hc as [Hc|Hc].
    - destruct (Hqc c Hc) as [->| ->]; reflexivity.
    - apply in_app_or in Hc as [Hc|Hc]; [now apply Hk|].
      destruct (Hqc c Hc) as [->| ->]; reflexivity. }
  assert (Hline : strip (pad1 ++ (KEY_NAME ++ lit "=" ++ q ++ k ++ q) ++ pad2)
                  = KEY_NAME ++ lit "=" ++ q ++ k ++ q).
  { apply strip_by_core; auto.
    intros c Hc. apply in_app_or in Hc as [Hc|Hc];
      [now apply key_name_chars|].
    destruct Hc as [<-|Hc]; [reflexivity | now apply Hval]. }
  rewrite Hline, startswith_app.
  change (split_once 61 (KEY_NAME ++ lit "=" ++ q ++ k ++ q))
    with (Some (KEY_NAME, q ++ k ++ q)).
  cbv iota beta.
  assert (Hv : strip (q ++ k ++ q) = q ++ k ++ q)
    by (apply strip_by_id; exact Hval).
  rewrite Hv.
  assert (Hkd : forall c, In c k -> existsb (char_eqb c) [DQ] = false).
  { intros c Hc. destruct (Hk c Hc) as (_ & Hd & _). simpl.
    unfold char_eqb. rewrite orb_false_r. now apply N.eqb_neq. }
  assert (Hks : forall c, In c k -> existsb (char_eqb c) [39%N] = false).
  { intros c Hc. destruct (Hk c Hc) as (_ & _ & Hs). simpl.
    unfold char_eqb. rewrite orb_false_r. now apply N.eqb_neq. }
  assert (Ed : strip_chars [DQ] k = k) by (apply strip_by_id; exact Hkd).
  assert (Es : strip_chars [39%N] k = k) by (apply strip_by_id; exact Hks).
  simpl in Hq. destruct Hq as [<-|[<-|[<-|[]]]].
  - simpl app. rewrite app_nil_r. now rewrite Ed, Es.
  - assert (E : strip_chars [DQ] ([DQ] ++ k ++ [DQ]) = k)
      by (apply strip_by_core; auto).
    now rewrite E, Es.
  - assert (E : strip_chars [DQ] ([39%N] ++ k ++ [39%N])
                = [39%N] ++ k ++ [39%N]).
    { apply strip_by_id. intros c Hc.
      apply in_app_or in Hc as [[<-|[]]|Hc]; [reflexivity|].
      apply in_app_or in Hc as [Hc|[<-|[]]]; [now apply Hkd | reflexivity]. }
    etransitivity; [apply (f_equal (strip_chars [39%N])); exact E|].
    apply strip_by_core; auto.
Qed.

Lemma load_key_file_entry_witness :
  _load_key (Some ([lit "# keys"]
                   ++ [lit " " ++ (KEY_NAME ++ lit "=" ++ [DQ] ++ lit "sk-abc"
                                            ++ [DQ]) ++ [NL]]
                   ++ [lit "OPENAI_API_KEY=other"]))
            (Some (lit "from-environment"))
  = lit "sk-abc".
Proof.
  apply (@load_key_file_entry [lit "# keys"] [lit "OPENAI_API_KEY=other"]
           (lit " ") [NL] [DQ] (lit "sk-abc") (Some (lit "from-environment"))).
  - repeat constructor.
  - reflexivity.
  - reflexivity.
  - simpl. tauto.
  - intros c Hc. simpl in Hc.
    repeat (destruct Hc as [<-|Hc];
            [split; [reflexivity | split; discriminate]|]).
    contradiction.
Defined.

(* ================================================================== *)
(** * ai_parser.py: amounts given as integers                          *)
(* ================================================================== *)

(** The decimal text of a number holds digits only. *)
Lemma uint_text_digits (d : Decimal.uint) :
  forall c, In c (lit (NilEmpty.string_of_uint d)) -> is_digit c = true.
Proof.
  induction d; simpl; intros c Hc; try contradiction;
    (destruct Hc as [<-|Hc]; [reflexivity | now apply IHd]).
Qed.

Lemma digit_plain (c : char) : is_digit c = true -> plain c = true.
Proof. intros H. unfold plain. now rewrite H. Qed.

Lemma digits_tail_digits (t : pystr) :
  (forall c, In c t -> is_digit c = true) ->
  digits_tail t = (map digit_value t, []).
Proof.
  induction t as [|c t IH]; intros H; [reflexivity|].
  cbn [digits_tail map].
  rewrite (H c (or_introl eq_refl)).
  rewrite IH by (intros x Hx; apply H; now right). reflexivity.
Qed.

Lemma read_number_digits (c : char) (t : pystr) :
  (forall x, In x (c :: t) -> is_digit x = true) ->
  read_number (c :: t) = Some (map digit_value (c :: t), [], []).
Proof.
  intros H. unfold read_number, digitpart.
  rewrite (H c (or_introl eq_refl)).
  rewrite digits_tail_digits by (intros x Hx; apply H; now right).
  reflexivity.
Qed.

(** A text that starts with a digit is none of [inf], [infinity], [nan]. *)
Lemma ieq_digit (c : char) (t : pystr) (w : String.string) :
  is_digit c = true ->
  In w ["inf"; "infinity"; "nan"]%string ->
  ieq (c :: t) (lit w) = false.
Proof.
  intros Hc Hw. apply digit_plain, plain_enum in Hc.
  unfold plain_chars in Hc. simpl in Hc, Hw.
  repeat (destruct Hw as [<-|Hw]; [|]); try contradiction;
    repeat (destruct Hc as [<-|Hc]; [reflexivity|]); contradiction.
Qed.

Lemma Qred_integer (m : Z) : Qred (m # 1)%Q = (m # 1)%Q.
Proof.
  unfold Qred.
  pose proof (Z.ggcd_gcd m 1) as Hg.
  pose proof (Z.ggcd_correct_divisors m 1) as Hd.
  destruct (Z.ggcd m 1) as [g [a b]]. simpl in *.
  rewrite Z.gcd_1_r in Hg. subst g. destruct Hd as [Ha Hb].
  assert (Ea : a = m) by lia. assert (Eb : b = 1%Z) by lia.
  rewrite Ea, Eb. reflexivity.
Qed.

Lemma decimal_integer (m : Z) : decimal m 0 = (m # 1)%Q.
Proof.
  unfold decimal. simpl. rewrite Z.mul_1_r. apply Qred_integer.
Qed.

Lemma to_ascii_number_ascii (s : pystr) :
  (forall x, In x s -> (x <? 127)%N = true) -> to_ascii_number s = s.
Proof.
  induction s as [|c s IH]; intros H; [reflexivity|].
  cbn [to_ascii_number]. rewrite (H c (or_introl eq_refl)).
  f_equal. apply IH. intros x Hx. apply H. now right.
Qed.

(** [float] of a run of digits is the binary64 value nearest to the
    number they write. *)
Lemma py_float_digits (c : char) (t : pystr) :
  (forall x, In x (c :: t) -> is_digit x = true) ->
  py_float (c :: t)
  = Some (binary64 (digits_to_Z (map digit_value (c :: t)) # 1)%Q)
  /\ py_float (45%N :: c :: t)
     = Some (float_neg
               (binary64 (digits_to_Z (map digit_value (c :: t)) # 1)%Q)).
Proof.
  intros H.
  assert (Hsolid : forall x, In x (c :: t) ->
                     c_isspace x = false /\ (x <? 127)%N = true).
  { intros x Hx.
    now destruct (float_char_solid x (float_char_digit x (H x Hx)))
      as (H1 & _ & _ & _ & _ & _ & H2). }
  assert (Hc : is_digit c = true) by (apply H; now left).
  assert (Hsign : read_sign (c :: t) = (false, c :: t)).
  { apply digit_enum in Hc. simpl in Hc.
    repeat (destruct Hc as [<-|Hc]; [reflexivity|]). contradiction. }
  assert (Hparse : forall neg,
            (let signed := fun f => if neg : bool then float_neg f else f in
             if ieq (c :: t) (lit "inf") || ieq (c :: t) (lit "infinity")
             then Some (signed (Inf false))
             else if ieq (c :: t) (lit "nan") then Some NaN
             else match read_number (c :: t) with
                  | Some (ip, fp, rest) =>
                      match read_exponent rest with
                      | Some e =>
                          Some (signed
                                  (binary64
                                     (decimal (digits_to_Z (ip ++ fp))
                                              (e - Z.of_nat (length fp)))))
                      | None => None
                      end
                  | None => None
                  end)
            = Some ((if neg then float_neg else fun f => f)
                      (binary64
                         (digits_to_Z (map digit_value (c :: t)) # 1)%Q))).
  { intros neg. cbv zeta.
    rewrite !ieq_digit by (auto; simpl; tauto).
    cbn [orb]. rewrite read_number_digits by exact H.
    cbn [read_exponent]. rewrite app_nil_r.
    change (0 - Z.of_nat (@length Z []))%Z with 0%Z.
    rewrite decimal_integer. now destruct neg. }
  split; unfold py_float.
  - rewrite to_ascii_number_ascii by (intros x Hx; now apply Hsolid).
    assert (Es : strip_by c_isspace (c :: t) = c :: t)
      by (apply strip_by_id; intros x Hx; now apply Hsolid).
    rewrite Es. unfold float_from_ascii. rewrite Hsign.
    exact (Hparse false).
  - rewrite to_ascii_number_ascii
      by (intros x [<-|Hx]; [reflexivity | now apply Hsolid]).
    assert (Es : strip_by c_isspace (45%N :: c :: t) = 45%N :: c :: t).
    { apply strip_by_id.
      intros x [<-|Hx]; [reflexivity | now apply Hsolid]. }
    rewrite Es. unfold float_from_ascii.
    change (read_sign (45%N :: c :: t)) with (true, c :: t).
    exact (Hparse true).
Qed.

Lemma lit_cons (a : ascii) (s : String.string) :
  lit (String a s) = N_of_ascii a :: lit s.
Proof. reflexivity. Qed.

(** The digits of the decimal text, folded from the left, give the number
    back. *)
Lemma uint_value_acc (d : Decimal.uint) :
  forall acc : positive,
    fold_left (fun a x => (10 * a + x)%Z)
              (map digit_value (lit (NilEmpty.string_of_uint d)))
              (Z.pos acc)
    = Z.pos (Pos.of_uint_acc d acc).
Proof.
  induction d; intros acc; [reflexivity|..];
    cbn [NilEmpty.string_of_uint Pos.of_uint_acc];
    rewrite <- IHd; rewrite lit_cons; cbn [map fold_left];
    apply (f_equal (fold_left _ _)); vm_compute digit_value; lia.
Qed.

Lemma uint_value (d : Decimal.uint) :
  digits_to_Z (map digit_value (lit (NilEmpty.string_of_uint d)))
  = Z.of_N (Pos.of_uint d).
Proof.
  unfold digits_to_Z.
  induction d; [reflexivity | exact IHd | ..];
    cbn [NilEmpty.string_of_uint Pos.of_uint Z.of_N];
    rewrite <- uint_value_acc; rewrite lit_cons; cbn [map fold_left];
    apply (f_equal (fold_left _ _)); vm_compute; reflexivity.
Qed.

(** The text [str] gives a positive integer: digits, at least one, that
    write it. *)
Lemma positive_text (p : positive) :
  exists c t,
    lit (NilEmpty.string_of_uint (Pos.to_uint p)) = c :: t
    /\ (forall x, In x (c :: t) -> is_digit x = true)
    /\ digits_to_Z (map digit_value (c :: t)) = Z.pos p.
Proof.
  pose proof (uint_text_digits (Pos.to_uint p)) as Hd.
  pose proof (uint_value (Pos.to_uint p)) as Hv.
  rewrite DecimalPos.Unsigned.of_to in Hv.
  destruct (lit (NilEmpty.string_of_uint (Pos.to_uint p))) as [|c t].
  - discriminate Hv.
  - exists c, t. auto.
Qed.

Lemma nilzero_text (p : positive) :
  NilZero.string_of_uint (Pos.to_uint p)
  = NilEmpty.string_of_uint (Pos.to_uint p).
Proof.
  pose proof (DecimalPos.Unsigned.to_uint_nonnil p) as H.
  now destruct (Pos.to_uint p).
Qed.

(** ** Rounding an integer *)

Lemma pow2_nonneg (e : Z) : (0 <= e)%Z -> pow2 e = inject_Z (2 ^ e).
Proof.
  intros H. unfold pow2. destruct (Z.leb_spec 0 e); [reflexivity | lia].
Qed.

Lemma pow2_neg (e : Z) :
  (e < 0)%Z -> pow2 e = (1 # Z.to_pos (2 ^ (- e)))%Q.
Proof.
  intros H. unfold pow2. destruct (Z.leb_spec 0 e); [lia | reflexivity].
Qed.

Lemma py_round_integer (x : Q) (n : Z) :
  (x == inject_Z n)%Q -> py_round x = n.
Proof.
  intros H. unfold py_round.
  assert (Ef : Qfloor x = n) by (rewrite H; apply Qfloor_Z).
  rewrite Ef.
  assert (Ec : Qcompare (x - inject_Z n) (1 # 2)%Q = Lt).
  { apply Qlt_alt.
    assert (E0 : (x - inject_Z n == 0)%Q) by (rewrite H; ring).
    rewrite E0. reflexivity. }
  now rewrite Ec.
Qed.

Lemma Qlog2_integer (p : positive) : Qlog2 (Z.pos p # 1)%Q = Z.log2 (Z.pos p).
Proof.
  unfold Qlog2. cbn [Qnum Qden].
  change (Z.log2 1) with 0%Z. rewrite Z.sub_0_r.
  rewrite pow2_nonneg by apply Z.log2_nonneg.
  assert (E : Qle_bool (inject_Z (2 ^ Z.log2 (Z.pos p))) (Z.pos p # 1)%Q
              = true).
  { apply Qle_bool_iff. change (Z.pos p # 1)%Q with (inject_Z (Z.pos p)).
    rewrite <- Zle_Qle.
    apply (Z.log2_spec (Z.pos p)). reflexivity. }
  now rewrite E.
Qed.

(** An integer of at most 53 bits is a binary64 value: rounding leaves it
    as it is. *)
Lemma binary64_pos_integer (p : positive) :
  (Z.pos p <= 2 ^ 53)%Z -> binary64_pos (Z.pos p # 1)%Q = Fin (Z.pos p # 1)%Q.
Proof.
  intros Hp.
  destruct (Z.eq_dec (Z.pos p) (2 ^ 53)) as [E|Hne].
  { assert (Ep : p = Z.to_pos (2 ^ 53)) by (rewrite <- E; reflexivity).
    rewrite Ep. vm_compute. reflexivity. }
  assert (Hlt : (Z.pos p < 2 ^ 53)%Z) by lia.
  unfold binary64_pos. rewrite Qlog2_integer.
  set (k := Z.log2 (Z.pos p)).
  assert (Hk0 : (0 <= k)%Z) by apply Z.log2_nonneg.
  assert (Hk : (k < 53)%Z).
  { apply Z.log2_lt_pow2; [reflexivity | exact Hlt]. }
  rewrite Z.max_l by lia.
  set (n := (Z.pos p * 2 ^ (52 - k))%Z).
  assert (Hpow : (0 < 2 ^ (52 - k))%Z) by (apply Z.pow_pos_nonneg; lia).
  assert (Hdiv : ((Z.pos p # 1) / pow2 (k - 52) == inject_Z n)%Q).
  { destruct (Z.eq_dec k 52) as [E52|N52].
    - rewrite E52. unfold n. rewrite E52. change (52 - 52)%Z with 0%Z.
      change (pow2 0) with (inject_Z 1). change (2 ^ 0)%Z with 1%Z.
      rewrite Z.mul_1_r. unfold Qdiv, Qinv, Qmult, Qeq, inject_Z.
      simpl. lia.
    - rewrite pow2_neg by lia.
      replace (- (k - 52))%Z with (52 - k)%Z by lia.
      unfold n. destruct (2 ^ (52 - k))%Z as [|q|q] eqn:Eq; try lia.
      unfold Qdiv, Qinv, Qmult, Qeq, inject_Z. simpl. lia. }
  rewrite (@py_round_integer _ _ Hdiv).
  assert (Hv : (inject_Z n * pow2 (k - 52) == Z.pos p # 1)%Q).
  { destruct (Z.eq_dec k 52) as [E52|N52].
    - unfold n. rewrite E52. change (52 - 52)%Z with 0%Z.
      change (pow2 0) with (inject_Z 1). change (2 ^ 0)%Z with 1%Z.
      rewrite Z.mul_1_r. unfold Qmult, Qeq, inject_Z. simpl. lia.
    - rewrite pow2_neg by lia.
      replace (- (k - 52))%Z with (52 - k)%Z by lia.
      unfold n. destruct (2 ^ (52 - k))%Z as [|q|q] eqn:Eq; try lia.
      unfold Qmult, Qeq, inject_Z. simpl. lia. }
  assert (Hsmall : Qle_bool (pow2 1024) (inject_Z n * pow2 (k - 52)) = false).
  { destruct (Qle_bool (pow2 1024) (inject_Z n * pow2 (k - 52))) eqn:E;
      [|reflexivity].
    apply Qle_bool_iff in E. rewrite Hv in E.
    change (pow2 1024) with (inject_Z (2 ^ 1024)) in E.
    change (Z.pos p # 1)%Q with (inject_Z (Z.pos p)) in E.
    rewrite <- Zle_Qle in E.
    assert ((2 ^ 53 < 2 ^ 1024)%Z) by (apply Z.pow_lt_mono_r; lia).
    lia. }
  rewrite Hsmall. f_equal.
  rewrite (@Qred_complete _ _ Hv). apply Qred_integer.
Qed.

Lemma binary64_integer (z : Z) :
  (Z.abs z <= 2 ^ 53)%Z -> binary64 (z # 1)%Q = Fin (z # 1)%Q.
Proof.
  intros H. destruct z as [|p|p].
  - reflexivity.
  - change (binary64 (Z.pos p # 1)%Q) with (binary64_pos (Z.pos p # 1)%Q).
    now apply binary64_pos_integer.
  - change (binary64 (Z.neg p # 1)%Q)
      with (float_neg (binary64_pos (Z.pos p # 1)%Q)).
    rewrite binary64_pos_integer by exact H. reflexivity.
Qed.

(** X21. An amount the model gives as a JSON integer ([str] prints an
    integer of up to 4300 digits on every version of CPython) is read
    back by [_clean_num] as the binary64 value nearest to it: no marker
    is removed and [float] reads the digits [str] wrote.  Up to [2 ^ 53]
    in absolute value that is the integer itself; above, it can differ:
    [2 ^ 53 + 1] comes back as [2 ^ 53]. *)
Theorem clean_num_integer :
  forall (py_repr : json -> pystr) (z : Z),
    (Z.abs z < 10 ^ 4300)%Z ->
    clean_num_value py_repr (JInt z) = binary64 (z # 1)%Q
    /\ ((Z.abs z <= 2 ^ 53)%Z ->
        clean_num_value py_repr (JInt z) = Fin (z # 1)%Q)
    /\ clean_num_value py_repr (JInt (2 ^ 53 + 1)) = Fin (2 ^ 53 # 1)%Q.
Proof.
  intros py_repr z _.
  assert (H : clean_num_value py_repr (JInt z) = binary64 (z # 1)%Q).
  { unfold clean_num_value, py_str.
    destruct z as [|p|p].
    - vm_compute. reflexivity.
    - cbn [Z.to_int NilZero.string_of_int]. rewrite nilzero_text.
      destruct (positive_text p) as (c & t & -> & Hd & Hv).
      rewrite clean_num_numeral
        by (intros x Hx; apply digit_plain; now apply Hd).
      unfold float_or_zero.
      rewrite (proj1 (@py_float_digits c t Hd)), Hv. reflexivity.
    - cbn [Z.to_int NilZero.string_of_int]. rewrite nilzero_text.
      change (lit (String "-" (NilEmpty.string_of_uint (Pos.to_uint p))))
        with (45%N :: lit (NilEmpty.string_of_uint (Pos.to_uint p))).
      destruct (positive_text p) as (c & t & -> & Hd & Hv).
      rewrite (@clean_num_accepted (45%N :: c :: t) _
                 (proj2 (@py_float_digits c t Hd))).
      + rewrite Hv. reflexivity.
      + intros Hs.
        assert (E : str_in (strip (45%N :: c :: t)) sentinels = false).
        { apply plain_not_sentinel with (c := c);
            [right; now left | apply digit_plain, Hd; now left]. }
        apply str_in_In in Hs. congruence. }
  split; [exact H|]. split.
  - intros Hz. rewrite H. now apply binary64_integer.
  - vm_compute. reflexivity.
Qed.

Lemma clean_num_integer_witness :
  clean_num_value (fun _ => []) (JInt (-1200)) = Fin (-1200 # 1)%Q.
Proof.
  refine (proj1 (proj2 (@clean_num_integer (fun _ => []) (-1200)%Z _)) _).
  - reflexivity.
  - vm_compute. discriminate.
Defined.

(* ================================================================== *)
(** * extractor.py: the header row and what stands above it            *)
(* ================================================================== *)

Lemma page_lines_plain (rows : list (list token)) :
  page_lines [] rows = Some (filter kept_line (map plain_line rows)).
Proof.
  induction rows as [|row rows IH]; [reflexivity|].
  cbn [page_lines row_line map filter]. rewrite IH.
  fold (plain_line row). fold (kept_line (plain_line row)).
  now destruct (kept_line (plain_line row)).
Qed.

Lemma skipn_length_app {A : Type} (a b : list A) :
  skipn (length a) (a ++ b) = b.
Proof. induction a; simpl; auto. Qed.

Section HeaderRow.

Variables _DATE_KW _DESC_KW _DEBIT_KW _CREDIT_KW _BALANCE_KW : pystr -> bool.

Lemma find_header_spec (rows : list (list token)) : forall i : nat,
  (Forall (fun row => _is_header _DATE_KW _DEBIT_KW _CREDIT_KW
                                 (map token_text row) = false) rows
   /\ find_header _DATE_KW _DESC_KW _DEBIT_KW _CREDIT_KW _BALANCE_KW i rows
      = ([], O))
  \/ exists above header below,
       rows = above ++ header :: below
       /\ Forall (fun row => _is_header _DATE_KW _DEBIT_KW _CREDIT_KW
                                        (map token_text row) = false) above
       /\ _is_header _DATE_KW _DEBIT_KW _CREDIT_KW
                     (map token_text header) = true
       /\ find_header _DATE_KW _DESC_KW _DEBIT_KW _CREDIT_KW _BALANCE_KW
                      i rows
          = (_cluster_columns _DATE_KW _DESC_KW _DEBIT_KW _CREDIT_KW
                              _BALANCE_KW (map header_word header),
             (i + length above)%nat).
Proof.
  induction rows as [|row rows IH]; intros i.
  { left. split; [constructor | reflexivity]. }
  cbn [find_header].
  destruct (_is_header _DATE_KW _DEBIT_KW _CREDIT_KW (map token_text row))
    eqn:E.
  - right. exists [], row, rows. simpl.
    rewrite Nat.add_0_r. repeat split; auto.
  - destruct (IH (S i)) as [[Hall Hf]|(above & h & below & -> & Ha & Hh & Hf)].
    + left. split; [now constructor | exact Hf].
    + right. exists (row :: above), h, below. simpl.
      rewrite Hf, Nat.add_succ_r. repeat split; auto.
Qed.

(** X22. The positional text of a page starts at the header row.  When no
    row is a header, the text is one line per row, the row's words joined
    by blanks, without the lines that hold only blanks and bars.  When
    there is one, the columns are read off the first such row, the text
    is made of the lines of that row and of the rows below it, and the
    rows above it leave nothing in the text. *)
Theorem extract_page_pymupdf_from_header :
  forall (word_list : list word) (rows : list (list token)),
    _rows_from_words word_list 5 = Some rows ->
    (Forall (fun row => _is_header _DATE_KW _DEBIT_KW _CREDIT_KW
                                   (map token_text row) = false) rows
     /\ _extract_page_pymupdf _DATE_KW _DESC_KW _DEBIT_KW _CREDIT_KW
                              _BALANCE_KW word_list
        = Some (join [NL] (filter kept_line (map plain_line rows))))
    \/ exists above header below lines,
         rows = above ++ header :: below
         /\ Forall (fun row => _is_header _DATE_KW _DEBIT_KW _CREDIT_KW
                                          (map token_text row) = false)
                   above
         /\ _is_header _DATE_KW _DEBIT_KW _CREDIT_KW
                       (map token_text header) = true
         /\ page_lines (_cluster_columns _DATE_KW _DESC_KW _DEBIT_KW
                                         _CREDIT_KW _BALANCE_KW
                                         (map header_word header))
                       (header :: below) = Some lines
         /\ _extract_page_pymupdf _DATE_KW _DESC_KW _DEBIT_KW _CREDIT_KW
                                  _BALANCE_KW word_list
            = Some (join [NL] lines).
Proof.
  intros word_list rows Hrows. unfold _extract_page_pymupdf.
  destruct word_list as [|w ws].
  { injection Hrows as <-. left. split; [constructor | reflexivity]. }
  rewrite Hrows.
  destruct rows as [|row rows].
  { left. split; [constructor | reflexivity]. }
  destruct (find_header_spec (row :: rows) 0)
    as [[Hall Hf]|(above & h & below & E & Ha & Hh & Hf)].
  - left. split; [exact Hall|]. rewrite Hf. cbn [skipn].
    now rewrite page_lines_plain.
  - right. rewrite Hf, E. cbn [Nat.add]. rewrite skipn_length_app.
    destruct (@page_lines_some
                (_cluster_columns _DATE_KW _DESC_KW _DEBIT_KW _CREDIT_KW
                                  _BALANCE_KW (map header_word h))
                (h :: below)) as [lines Hl].
    { intros c. apply cluster_columns_names. }
    exists above, h, below, lines. rewrite Hl. repeat split; auto.
Qed.

End HeaderRow.

Lemma extract_page_pymupdf_from_header_witness :
  exists lines,
    page_lines (_cluster_columns (mentions "date") (mentions "narration")
                                 (mentions "debit") (mentions "credit")
                                 (mentions "balance")
                  (map header_word [token_of (word_at 2 40 "Date");
                                    token_of (word_at 95 40 "Debit")]))
               [[token_of (word_at 2 40 "Date");
                 token_of (word_at 95 40 "Debit")];
                [token_of (word_at 2 60 "01/12");
                 token_of (word_at 95 60 "500")]]
    = Some lines
    /\ _extract_page_pymupdf (mentions "date") (mentions "narration")
                             (mentions "debit") (mentions "credit")
                             (mentions "balance")
                             [word_at 2 10 "Zenith"; word_at 2 40 "Date";
                              word_at 95 40 "Debit"; word_at 2 60 "01/12";
                              word_at 95 60 "500"]
       = Some (join [NL] lines).
Proof.
  destruct (@extract_page_pymupdf_from_header
              (mentions "date") (mentions "narration") (mentions "debit")
              (mentions "credit") (mentions "balance")
              [word_at 2 10 "Zenith"; word_at 2 40 "Date";
               word_at 95 40 "Debit"; word_at 2 60 "01/12";
               word_at 95 60 "500"]
              [[token_of (word_at 2 10 "Zenith")];
               [token_of (word_at 2 40 "Date");
                token_of (word_at 95 40 "Debit")];
               [token_of (word_at 2 60 "01/12");
                token_of (word_at 95 60 "500")]])
    as [[Hall _]|(above & h & below & lines & E & Ha & Hh & Hl & Hr)].
  - vm_compute. reflexivity.
  - exfalso. inversion Hall as [|? ? _ Hrest]. inversion Hrest as [|? ? Hd _].
    vm_compute in Hd. discriminate Hd.
  - destruct above as [|a above].
    + injection E as <- _. vm_compute in Hh. discriminate Hh.
    + destruct above as [|b above].
      * injection E as _ <- <-. exists lines. split; assumption.
      * exfalso. injection E as _ <- E. inversion Ha as [|? ? _ Hrest].
        inversion Hrest as [|? ? Hd _]. vm_compute in Hd. discriminate Hd.
Defined.
